(** * Credential lifecycle and local attachment delivery of the Google
    Calendar / Gmail / Tasks tool functions.

    The Python tool functions are embedded as Rocq functions over an explicit
    model of what they touch: the local file system, the process globals of
    [attachment_tool.py], the local TCP ports, and the remote services
    (token endpoint, consent flow, Gmail / Calendar / Tasks REST calls), which
    answer through oracles.  Exceptions are values of [result]; a small
    state-and-exception monad threads the world through the calls. *)

From stdpp Require Import gmap strings list pretty.

Open Scope Z_scope.

(** ** Python values shared by all tools *)

(** Exceptions the tools meet.  [HttpError] is googleapiclient's (it carries
    the response status); everything else is a plain [Exception].  The text is
    what [str(e)] gives. *)
Inductive exn :=
| HttpError (status : Z) (text : string)
| Exception (text : string).

Definition str (e : exn) : string :=
  match e with
  | HttpError _ t => t
  | Exception t => t
  end.

Inductive result (A : Type) :=
| Return (a : A)
| Raise (e : exn).
Arguments Return {A} a.
Arguments Raise {A} e.

(** [google.oauth2.credentials.Credentials], reduced to the attributes the
    helper reads. [expiry] is in seconds. *)
Record Creds := {
  token : option string;
  refresh_token : option string;
  expiry : option Z
}.

(** A file on the local disk: a directory, a token file ([TokenJson c] is
    what [c.to_json()] writes: the attributes of [c] that are not None), or
    any other bytes. *)
Inductive file :=
| Directory
| TokenJson (c : Creds)
| Blob (bytes : string).

(** One part of a Gmail message payload, a JSON object: every key may be
    absent.  [b_size] is the key 'size' of a body. *)
Record Body := {
  data : option string;
  attachmentId : option string;
  b_size : option Z
}.

#[local] Unset Elimination Schemes.
Inductive Part := {
  mimeType : option string;
  filename : option string;
  headers : option (list (string * string));
  body : option Body;
  parts : option (list Part)
}.
#[local] Set Elimination Schemes.

(** A message as [messages().get] returns it. *)
Record Message := {
  msg_payload : option Part;
  labelIds : option (list string);
  threadId : option string;
  snippet : option string;
  sizeEstimate : option Z
}.

(** The effects a tool has on the outside, in the order they happen: the
    remote calls (token endpoint, consent flow on the callback port, REST
    calls with their arguments) and the local ones (a file written, a server
    thread started). *)
Inductive event :=
| TokenRefresh (c : Creds)
| LocalServerFlow (port : Z)
| MessagesList (labelIds : option string) (q : option string) (maxResults : option Z)
| MessagesGet (id : string) (format : option string)
| AttachmentsGet (messageId id : string)
| EventsDelete (calendarId eventId : string)
| TasksDelete (tasklist task : string)
| FileWrite (path : string) (f : file)
| ServeForever (port : Z) (directory : string).

(** ** The world the tools run in *)

(** An [HTTPServer] object of this process: its bound port and the directory
    its handler serves. *)
Record HTTPServer := { server_port : Z; directory : string }.

(** The mutable state: local files, clock, log of effects, the ports on which
    another process accepts connections ([listening]) or which it has bound
    without accepting ([held]), the listeners this process has bound (never
    closed: no code path calls shutdown), and the four module globals of
    [attachment_tool.py].  [_file_server_thread] is the thread object, the
    boolean its [is_alive()]. *)
Record World := {
  files : gmap string file;
  now : Z;
  log : list event;
  listening : gset Z;
  held : gset Z;
  bound_servers : list HTTPServer;
  _file_server : option HTTPServer;
  _file_server_thread : option bool;
  _download_path : option string;
  FILE_SERVER_PORT : Z
}.

(** What the outside answers.  A reply is a function of the log up to and
    including the call it answers, so it may depend on the arguments and on
    everything that happened before.  [refresh_reply] is the record after
    [creds.refresh(Request())]; [flow_reply] is the whole consent flow, from
    reading credentials.json to the code exchange on the callback port;
    [list_reply] gives the ids under 'messages' (or no such key),
    [attachment_reply] the value under 'data'.  [write_denied] tells the
    paths [open] refuses to write.  The last three are library functions the
    tools call:
    [base64.urlsafe_b64decode], [bytes.decode('utf-8')] and BeautifulSoup's
    [get_text]. *)
Record Env := {
  cwd : string;
  write_denied : string → bool;
  refresh_reply : list event → result Creds;
  flow_reply : list event → result Creds;
  list_reply : list event → result (option (list string));
  message_reply : list event → result Message;
  attachment_reply : list event → result (option string);
  delete_reply : list event → result unit;
  b64decode : string → result string;
  decode_utf8 : string → result string;
  get_text : string → string
}.

(** ** The state-and-exception monad *)

Definition M (A : Type) : Type := World → result A * World.

#[global] Instance M_ret : MRet M := λ A a w, (Return a, w).
#[global] Instance M_bind : MBind M := λ A B k m w,
  match m w with
  | (Return a, w') => k a w'
  | (Raise e, w') => (Raise e, w')
  end.
#[global] Instance M_fmap : FMap M := λ A B f m w,
  match m w with
  | (Return a, w') => (Return (f a), w')
  | (Raise e, w') => (Raise e, w')
  end.

Definition raise {A} (e : exn) : M A := λ w, (Raise e, w).

(** [try: m except Exception as e: h e] *)
Definition try_except {A} (m : M A) (h : exn → M A) : M A := λ w,
  match m w with
  | (Return a, w') => (Return a, w')
  | (Raise e, w') => h e w'
  end.

Definition lift {A} (r : result A) : M A := λ w, (r, w).
Definition get_world : M World := λ w, (Return w, w).
Definition record (e : event) : M unit := λ w,
  (Return (),
   {| files := files w; now := now w; log := log w ++ [e];
      listening := listening w; held := held w;
      bound_servers := bound_servers w; _file_server := _file_server w;
      _file_server_thread := _file_server_thread w;
      _download_path := _download_path w;
      FILE_SERVER_PORT := FILE_SERVER_PORT w |}).
Definition set_file (path : string) (f : file) : M unit := λ w,
  (Return (),
   {| files := <[path := f]> (files w); now := now w; log := log w;
      listening := listening w; held := held w;
      bound_servers := bound_servers w; _file_server := _file_server w;
      _file_server_thread := _file_server_thread w;
      _download_path := _download_path w;
      FILE_SERVER_PORT := FILE_SERVER_PORT w |}).

(** A remote call: log it, then take the oracle's answer. *)
Definition remote {A} (e : event) (reply : list event → result A) : M A :=
  record e;; w ← get_world; lift (reply (log w)).

(** Python truthiness of an optional string: [None] and [""] are false. *)
Definition truthy (s : option string) : bool :=
  match s with
  | Some s => negb (String.eqb s "")
  | None => false
  end.

(** ** Local files *)

(** [os.path.exists] *)
Definition path_exists (path : string) : M bool :=
  w ← get_world; mret (bool_decide (is_Some (files w !! path))).

(** [with open(path, mode) as f: f.write(content)], mode "w" or "wb" *)
Definition write_file (env : Env) (path : string) (content : file) : M unit :=
  w ← get_world;
  if write_denied env path then
    raise (Exception ("[Errno 13] Permission denied: '" +:+ path +:+ "'"))
  else match files w !! path with
       | Some Directory =>
           raise (Exception ("[Errno 21] Is a directory: '" +:+ path +:+ "'"))
       | _ => set_file path content;; record (FileWrite path content)
       end.

(** ** CredentialBroker: [_get_credentials] *)

Module Credentials.

(** google-auth's [_helpers.REFRESH_THRESHOLD] (3 minutes 45 seconds) and the
    properties [Credentials.expired] and [Credentials.valid]. *)
Definition REFRESH_THRESHOLD : Z := 225.

Definition expired (c : Creds) : M bool :=
  w ← get_world;
  mret match expiry c with
       | None => false
       | Some t => bool_decide (t - REFRESH_THRESHOLD ≤ now w)
       end.

Definition valid (c : Creds) : M bool :=
  e ← expired c; mret (bool_decide (is_Some (token c)) && negb e).

(** [Credentials.from_authorized_user_info] on what [to_json] wrote for
    [c]: the key 'refresh_token' is required and is missing when the
    attribute was None; a missing 'expiry' is replaced by a time already
    past, [utcnow() - REFRESH_THRESHOLD]; 'token' may be missing.  The client
    id and secret, which are required too, are not among the attributes
    modelled: the consent flow and the refresh always set them. *)
Definition from_authorized_user_info (c : Creds) : M Creds :=
  w ← get_world;
  match refresh_token c with
  | None =>
      raise (Exception ("Authorized user info was not in the expected format, "
                        +:+ "missing fields refresh_token."))
  | Some _ =>
      mret {| token := token c;
              refresh_token := refresh_token c;
              expiry := Some (default (now w - REFRESH_THRESHOLD) (expiry c)) |}
  end.

(** [Credentials.from_authorized_user_file] *)
Definition from_authorized_user_file (path : string) : M Creds :=
  w ← get_world;
  match files w !! path with
  | Some (TokenJson c) => from_authorized_user_info c
  | Some _ => raise (Exception "Expecting value: line 1 column 1 (char 0)")
  | None => raise (Exception ("[Errno 2] No such file or directory: '" +:+ path +:+ "'"))
  end.

Definition FIXED_PORT : Z := 8080.

Section Helper.
(** The helper is repeated in every tool module; the copies differ in the
    token file only ("token.json", "token_calendar.json",
    "token_tasks.json") and in the scope passed on to the library. *)
Variable env : Env.
Variable token_path : string.

(** The block under [if not creds or not creds.valid:], entered with the
    record loaded so far ([None] for no record). *)
Definition renew (creds : option Creds) : M Creds :=
  creds ← (match creds with
           | Some c =>
               e ← expired c;
               if (e : bool) && truthy (refresh_token c) then
                 try_except
                   (Some <$> remote (TokenRefresh c) (refresh_reply env))
                   (λ _, mret None)
               else mret (Some c)
           | None => mret None
           end : M (option Creds));
  creds ← (match creds with
           | Some c => mret c
           | None => remote (LocalServerFlow FIXED_PORT) (flow_reply env)
           end : M Creds);
  write_file env token_path (TokenJson creds);;
  mret creds.

Definition _get_credentials : M Creds :=
  creds ← (ex ← path_exists token_path;
           if (ex : bool) then
             try_except (Some <$> from_authorized_user_file token_path)
                        (λ _, mret None)
           else mret None : M (option Creds));
  match creds with
  | Some c => ok ← valid c; if (ok : bool) then mret c else renew creds
  | None => renew creds
  end.
End Helper.

End Credentials.

(** ** AttachmentDeliveryServer: the singleton file server of
    [attachment_tool.py] *)

Module FileServer.

(** [s.connect_ex(('localhost', port)) == 0]: a connection succeeds exactly
    when somebody listens there, another process or a server of this one. *)
Definition connects (w : World) (port : Z) : bool :=
  bool_decide (port ∈ listening w)
  || bool_decide (port ∈ server_port <$> bound_servers w).

Definition _is_port_in_use (port : Z) : M bool :=
  w ← get_world; mret (connects w port).

(** [HTTPServer(('localhost', port), FileHandler)]: binding fails on a port
    that is taken, whether or not it accepts connections, and on a number that
    is not a port. *)
Definition bindable (w : World) (port : Z) : bool :=
  bool_decide (0 ≤ port ≤ 65535)
  && negb (bool_decide (port ∈ listening w))
  && negb (bool_decide (port ∈ held w))
  && negb (bool_decide (port ∈ server_port <$> bound_servers w)).

Definition new_HTTPServer (port : Z) (download_path : string) : M HTTPServer := λ w,
  if bindable w port then
    let s := {| server_port := port; directory := download_path |} in
    (Return s,
     {| files := files w; now := now w; log := log w;
        listening := listening w; held := held w;
        bound_servers := bound_servers w ++ [s];
        _file_server := _file_server w;
        _file_server_thread := _file_server_thread w;
        _download_path := _download_path w;
        FILE_SERVER_PORT := FILE_SERVER_PORT w |})
  else (Raise (Exception "[Errno 98] Address already in use"), w).

(** The assignments to the module globals after a successful bind:
    [_file_server], [_file_server_thread] (started, hence alive),
    [_download_path] and [FILE_SERVER_PORT]. *)
Definition set_globals (s : HTTPServer) (download_path : string) (port : Z)
  : M unit := λ w,
  (Return (),
   {| files := files w; now := now w; log := log w;
      listening := listening w; held := held w;
      bound_servers := bound_servers w;
      _file_server := Some s;
      _file_server_thread := Some true;
      _download_path := Some download_path;
      FILE_SERVER_PORT := port |}).

(** [while _is_port_in_use(port) and port < max_port: port += 1].  The
    distance to [max_port] bounds the iterations; [None] is the loop running
    out of fuel, which [probe_total] excludes. *)
Fixpoint probe (fuel : nat) (port max_port : Z) : M (option Z) :=
  used ← _is_port_in_use port;
  if (used : bool) && bool_decide (port < max_port) then
    match fuel with
    | O => mret None
    | S fuel' => probe fuel' (port + 1) max_port
    end
  else mret (Some port).

(** The guard of the first [if]: a server object, a thread object that is
    alive, and the same served path. *)
Definition reusable (w : World) (download_path : string) : bool :=
  bool_decide (is_Some (_file_server w))
  && bool_decide (_file_server_thread w = Some true)
  && bool_decide (_download_path w = Some download_path).

(** The returned dict [{"server": ..., "port": ...}]. *)
Record server_info := { server : option HTTPServer; port : Z }.

Definition _start_file_server (download_path : string) : M server_info :=
  w ← get_world;
  if reusable w download_path then
    mret {| server := _file_server w; port := FILE_SERVER_PORT w |}
  else
    let port0 := FILE_SERVER_PORT w in
    let max_port := FILE_SERVER_PORT w + 10 in
    found ← probe (Z.to_nat (max_port - port0)) port0 max_port;
    match found with
    | None => raise (Exception "probe: out of fuel")
    | Some port =>
        if bool_decide (max_port ≤ port) then
          raise (Exception ("Could not find available port between "
                            +:+ pretty port0 +:+ " and " +:+ pretty max_port))
        else
          try_except
            (s ← new_HTTPServer port download_path;
             record (ServeForever port download_path);;
             set_globals s download_path port;;
             mret {| server := Some s; port := port |})
            (λ e, raise (Exception ("Could not start file server on port "
                                    +:+ pretty port +:+ ": " +:+ str e)))
    end.

End FileServer.

(** ** Python [str] functions the tools call

    A [str] is modelled as the sequence of its code points, each below 256. *)

Module Text.

Definition nl : Ascii.ascii := Ascii.ascii_of_N 10.
Definition dot : Ascii.ascii := Ascii.ascii_of_N 46.
Definition slash : Ascii.ascii := Ascii.ascii_of_N 47.
Definition code (c : Ascii.ascii) : Z := Z.of_N (Ascii.N_of_ascii c).

(** [str.lower], on the ASCII letters *)
Definition lower_char (c : Ascii.ascii) : Ascii.ascii :=
  if bool_decide (65 ≤ code c ≤ 90)
  then Ascii.ascii_of_N (Ascii.N_of_ascii c + 32) else c.

Fixpoint lower (s : string) : string :=
  match s with
  | "" => ""
  | String c s' => String (lower_char c) (lower s')
  end.

(** Whitespace as [str.strip] and the pattern [\s] see it
    ([Py_UNICODE_ISSPACE]). *)
Definition is_space (c : Ascii.ascii) : bool :=
  bool_decide (9 ≤ code c ≤ 13) || bool_decide (28 ≤ code c ≤ 32)
  || bool_decide (code c = 133) || bool_decide (code c = 160).

Fixpoint lstrip (s : string) : string :=
  match s with
  | String c s' => if is_space c then lstrip s' else s
  | "" => ""
  end.

Definition rstrip (s : string) : string := String.rev (lstrip (String.rev s)).
Definition strip (s : string) : string := rstrip (lstrip s).

Fixpoint drop (n : nat) (s : string) : string :=
  match n, s with
  | S n', String _ s' => drop n' s'
  | _, _ => s
  end.

Fixpoint take (n : nat) (s : string) : string :=
  match n, s with
  | S n', String c s' => String c (take n' s')
  | _, _ => ""
  end.

(** Where a match of [\s*\n+] ends when tried at the start of [s]: the
    greedy [\s*] backs off to the last newline of the leading whitespace run,
    which [\n+] then takes.  [pos] counts the characters read, [best] is the
    end of the last newline seen. *)
Fixpoint blank_end (s : string) (pos : nat) (best : option nat) : option nat :=
  match s with
  | String c s' =>
      if is_space c then
        blank_end s' (S pos) (if Ascii.eqb c nl then Some (S pos) else best)
      else best
  | "" => best
  end.

(** [re.sub(r'\n\s*\n+', '\n\n', text)]: leftmost matches, not overlapping.
    [skip] is the number of characters still inside the current match. *)
Fixpoint sub_blank_lines (skip : nat) (text : string) : string :=
  match text with
  | "" => ""
  | String c rest =>
      match skip with
      | S k => sub_blank_lines k rest
      | O =>
          if Ascii.eqb c nl then
            match blank_end rest 0 None with
            | Some k => String nl (String nl (sub_blank_lines k rest))
            | None => String c (sub_blank_lines 0 rest)
            end
          else String c (sub_blank_lines 0 rest)
      end
  end.

(** [str.rfind] of one character; -1 when absent. *)
Fixpoint rfind_from (c : Ascii.ascii) (s : string) (i : Z) (last : Z) : Z :=
  match s with
  | "" => last
  | String d s' => rfind_from c s' (i + 1) (if Ascii.eqb c d then i else last)
  end.
Definition rfind (c : Ascii.ascii) (s : string) : Z := rfind_from c s 0 (-1).

Fixpoint all_dots (s : string) : bool :=
  match s with
  | "" => true
  | String c s' => Ascii.eqb c dot && all_dots s'
  end.

(** [os.path.splitext] ([genericpath._splitext] with sep "/", extsep "."):
    the extension starts at the last dot of the last path component, unless
    only dots precede it there. *)
Definition splitext (p : string) : string * string :=
  let sepIndex := rfind slash p in
  let dotIndex := rfind dot p in
  if bool_decide (sepIndex < dotIndex) then
    let lead := take (Z.to_nat (dotIndex - (sepIndex + 1)))
                     (drop (Z.to_nat (sepIndex + 1)) p) in
    if all_dots lead then (p, "")
    else (take (Z.to_nat dotIndex) p, drop (Z.to_nat dotIndex) p)
  else (p, "").

Definition startswith_slash (s : string) : bool :=
  match s with
  | String c _ => Ascii.eqb c slash
  | "" => false
  end.

Definition endswith_slash (s : string) : bool :=
  startswith_slash (String.rev s).

(** [os.path.join] of two components ([posixpath.join]) *)
Definition join (a b : string) : string :=
  if startswith_slash b then b
  else if String.eqb a "" || endswith_slash a then a +:+ b
  else a +:+ "/" +:+ b.

(** [urllib.parse.quote] with the default [safe='/']: letters, digits and
    [_.-~/] pass; any other code point is percent-encoded from its UTF-8
    bytes. *)
Definition hex_digit (n : Z) : Ascii.ascii :=
  Ascii.ascii_of_N (Z.to_N (if bool_decide (n < 10) then 48 + n else 55 + n)).

Definition percent (byte : Z) : string :=
  String (Ascii.ascii_of_N 37) (String (hex_digit (byte / 16)) (String (hex_digit (byte mod 16)) "")).

Definition always_safe (c : Ascii.ascii) : bool :=
  bool_decide (65 ≤ code c ≤ 90) || bool_decide (97 ≤ code c ≤ 122)
  || bool_decide (48 ≤ code c ≤ 57)
  || bool_decide (code c = 95) || Ascii.eqb c dot || bool_decide (code c = 45)
  || bool_decide (code c = 126) || Ascii.eqb c slash.

Definition quote_char (c : Ascii.ascii) : string :=
  if always_safe c then String c ""
  else if bool_decide (code c < 128) then percent (code c)
  else percent (192 + code c / 64) +:+ percent (128 + code c mod 64).

Fixpoint quote (s : string) : string :=
  match s with
  | "" => ""
  | String c s' => quote_char c +:+ quote s'
  end.

End Text.

#[global] Instance result_ret : MRet result := λ A a, Return a.
#[global] Instance result_bind : MBind result := λ A B k r,
  match r with
  | Return a => k a
  | Raise e => Raise e
  end.

(** ** MimeTreeWalker: the recursive walks over a message payload *)

Module Mime.

(** The two variables the body walk assigns ([nonlocal] in the source). *)
Record Bodies := { email_body_plain : string; email_body_html : string }.

(** An entry of the [attachments] list. *)
Record Attachment := {
  attachment_id : string;
  a_filename : string;
  mime_type : string;
  a_size : Z
}.

(** [payload.get('body', {})] followed by a lookup of 'data' *)
Definition body_data (payload : Part) : option string :=
  match body payload with
  | Some b => data b
  | None => None
  end.

Definition body_attachmentId (payload : Part) : option string :=
  match body payload with
  | Some b => attachmentId b
  | None => None
  end.

Definition KeyError (key : string) : exn := Exception ("'" +:+ key +:+ "'").

Section Walker.
Variable env : Env.

(** [base64.urlsafe_b64decode(d).decode('utf-8')] *)
Definition decode (d : string) : result string :=
  bytes ← b64decode env d; decode_utf8 env bytes.

(** The body of [extract_body_recursive] before it recurses: what one node
    does to the two variables. *)
Definition visit (payload : Part) (acc : Bodies) : result Bodies :=
  match mimeType payload with
  | Some mt =>
      match body_data payload with
      | Some d =>
          if bool_decide (mt = "text/plain") then
            s ← decode d;
            mret {| email_body_plain := s;
                    email_body_html := email_body_html acc |}
          else if bool_decide (mt = "text/html") then
            s ← decode d;
            mret {| email_body_plain := email_body_plain acc;
                    email_body_html := s |}
          else mret acc
      | None => mret acc
      end
  | None => mret acc
  end.

(** [extract_body_recursive] of [get_email_details] *)
Fixpoint extract_body_recursive (payload : Part) (acc : Bodies)
  : result Bodies :=
  acc ← visit payload acc;
  match parts payload with
  | Some ps =>
      (fix each (ps : list Part) (acc : Bodies) : result Bodies :=
         match ps with
         | [] => mret acc
         | part :: ps' =>
             acc ← extract_body_recursive part acc; each ps' acc
         end) ps acc
  | None => mret acc
  end.

(** [extract_attachments_recursive] of [get_email_details]: absent keys
    fall back to defaults. *)
Definition describe (payload : Part) : list Attachment :=
  match filename payload, body_attachmentId payload with
  | Some fn, Some aid =>
      if truthy (Some fn) && truthy (Some aid) then
        [{| attachment_id := aid; a_filename := fn;
            mime_type := default "unknown" (mimeType payload);
            a_size := default 0 (body payload ≫= b_size) |}]
      else []
  | _, _ => []
  end.

Fixpoint extract_attachments_recursive (payload : Part) : list Attachment :=
  describe payload ++
  match parts payload with
  | Some ps =>
      (fix each (ps : list Part) : list Attachment :=
         match ps with
         | [] => []
         | part :: ps' => extract_attachments_recursive part ++ each ps'
         end) ps
  | None => []
  end.

(** The same walk in [download_email_attachments]: ['body'] and
    ['mimeType'] are indexed, so a part without them raises. *)
Definition describe_strict (payload : Part) : result (list Attachment) :=
  if truthy (filename payload) then
    match body payload with
    | None => Raise (KeyError "body")
    | Some b =>
        if truthy (attachmentId b) then
          match mimeType payload with
          | None => Raise (KeyError "mimeType")
          | Some mt =>
              mret [{| attachment_id := default "" (attachmentId b);
                       a_filename := default "" (filename payload);
                       mime_type := mt;
                       a_size := default 0 (b_size b) |}]
          end
        else mret []
    end
  else mret [].

Fixpoint extract_attachments_strict (payload : Part) (acc : list Attachment)
  : result (list Attachment) :=
  here ← describe_strict payload;
  match parts payload with
  | Some ps =>
      (fix each (ps : list Part) (acc : list Attachment) :=
         match ps with
         | [] => mret acc
         | part :: ps' =>
             acc ← extract_attachments_strict part acc; each ps' acc
         end) ps (acc ++ here)
  | None => mret (acc ++ here)
  end.
End Walker.

(** The nodes of a payload in the order the walks visit them. *)
Fixpoint preorder (payload : Part) : list Part :=
  payload ::
  match parts payload with
  | Some ps => (fix each (ps : list Part) : list Part :=
                  match ps with
                  | [] => []
                  | part :: ps' => preorder part ++ each ps'
                  end) ps
  | None => []
  end.

End Mime.

(** ** The tool functions *)

(** What a tool returns: a Python dict, its keys in insertion order. *)
#[local] Unset Elimination Schemes.
Inductive value :=
| VNone
| VBool (b : bool)
| VInt (n : Z)
| VStr (s : string)
| VList (l : list value)
| VDict (d : list (string * value)).
#[local] Set Elimination Schemes.

(** [d.get(key)] on a returned dict *)
Definition dict_get (key : string) (v : value) : option value :=
  match v with
  | VDict d => snd <$> List.find (λ kv, String.eqb (fst kv) key) d
  | _ => None
  end.

Definition of_option (o : option string) : value :=
  match o with
  | Some s => VStr s
  | None => VNone
  end.

(** [d[key]] on a JSON object whose key may be absent *)
Definition index {A} (key : string) (o : option A) : result A :=
  match o with
  | Some a => Return a
  | None => Raise (Mime.KeyError key)
  end.

Module Gmail.

Import Text Mime Credentials FileServer.

Section Tools.
Variable env : Env.

(** [next((h['value'] for h in headers if h['name'].lower() == name), None)] *)
Definition header (hs : list (string * string)) (name : string) : option string :=
  snd <$> List.find (λ h, String.eqb (lower (fst h)) name) hs.

(** The readable text of an HTML body: BeautifulSoup's [get_text], then
    [re.sub(r'\n\s*\n+', '\n\n', text).strip()]. *)
Definition html_to_text (html : string) : string :=
  strip (sub_blank_lines 0 (get_text env html)).

(** The [if email_body_html: ... elif email_body_plain: ...] of both
    readers, from the empty [body_text]. *)
Definition choose_body (html plain : string) : string :=
  if negb (String.eqb html "") then html_to_text html
  else if negb (String.eqb plain "") then plain
  else "".

(** [body_text if body_text else "No message body found."] *)
Definition body_field (body_text : string) : value :=
  VStr (if negb (String.eqb body_text "") then body_text
        else "No message body found.").

Definition attachment_dict (a : Attachment) : value :=
  VDict [("filename", VStr (a_filename a)); ("mime_type", VStr (mime_type a));
         ("size", VInt (a_size a)); ("attachment_id", VStr (attachment_id a))].

Definition optional (key : string) (o : option string) : list (string * value) :=
  if truthy o then [(key, of_option o)] else [].

Definition gmail_errors (e : exn) : M value :=
  match e with
  | HttpError _ _ => mret (VDict [("error", VStr ("Gmail API error: " +:+ str e))])
  | Exception _ => mret (VDict [("error", VStr ("Unexpected error: " +:+ str e))])
  end.

(** [email_details_tool.get_email_details] *)
Definition get_email_details (email_id : string) : M value :=
  creds ← _get_credentials env "token.json";
  try_except
    (msg ← remote (MessagesGet email_id (Some "full")) (message_reply env);
     payload ← lift (index "payload" (msg_payload msg));
     let hs := default [] (headers payload) in
     let subject := default "(No Subject)" (header hs "subject") in
     let from_email := default "(Unknown Sender)" (header hs "from") in
     let to_email := default "(Unknown Recipient)" (header hs "to") in
     let cc_email := header hs "cc" in
     let bcc_email := header hs "bcc" in
     let date := default "(Unknown Date)" (header hs "date") in
     let message_id := header hs "message-id" in
     bodies ← lift (extract_body_recursive env payload
                      {| email_body_plain := ""; email_body_html := "" |});
     let body_text :=
       choose_body (email_body_html bodies) (email_body_plain bodies) in
     let attachments := extract_attachments_recursive payload in
     mret (VDict
       ([("id", VStr email_id);
         ("thread_id", of_option (threadId msg));
         ("labels", VList (VStr <$> default [] (labelIds msg)));
         ("snippet", VStr (default "" (snippet msg)));
         ("date", VStr date);
         ("from", VStr from_email);
         ("to", VStr to_email);
         ("subject", VStr subject);
         ("body", body_field body_text);
         ("size_estimate", VInt (default 0 (sizeEstimate msg)));
         ("has_attachments", VBool (bool_decide (0 < length attachments)%nat));
         ("attachment_count", VInt (Z.of_nat (length attachments)));
         ("attachments", VList (attachment_dict <$> attachments))]
        ++ optional "cc" cc_email ++ optional "bcc" bcc_email
        ++ optional "message_id" message_id
        ++ (if negb (String.eqb (email_body_html bodies) "")
            then [("body_html", VStr (email_body_html bodies))] else []))))
    gmail_errors.

(** The loop of [get_latest_emails] over the top-level parts; [None] is
    the initial [None] of [plain_text_body] and [html_body]. *)
Fixpoint scan_parts (ps : list Part) (plain html : option string)
  : result (option string * option string) :=
  match ps with
  | [] => mret (plain, html)
  | part :: ps' =>
      mt ← index "mimeType" (mimeType part);
      if bool_decide (mt = "text/plain") then
        b ← index "body" (body part);
        match data b with
        | Some d => s ← decode env d; scan_parts ps' (Some s) html
        | None =>
            (* the [elif] is tried and its first test fails *)
            scan_parts ps' plain html
        end
      else if bool_decide (mt = "text/html") then
        b ← index "body" (body part);
        match data b with
        | Some d => s ← decode env d; scan_parts ps' plain (Some s)
        | None => scan_parts ps' plain html
        end
      else scan_parts ps' plain html
  end.

(** The body of one message in [get_latest_emails] *)
Definition latest_body (payload : Part) : result string :=
  match parts payload with
  | Some ps =>
      '(plain, html) ← scan_parts ps None None;
      mret (choose_body (default "" html) (default "" plain))
  | None =>
      b ← index "body" (body payload);
      match data b with
      | Some d => decode env d
      | None => mret ""
      end
  end.

Definition latest_one (msg_id : string) : M value :=
  msg ← remote (MessagesGet msg_id (Some "full")) (message_reply env);
  payload ← lift (index "payload" (msg_payload msg));
  hs ← lift (index "headers" (headers payload));
  let subject := default "(No Subject)" (header hs "subject") in
  let from_email := default "(Unknown Sender)" (header hs "from") in
  let to_email := default "(Unknown Recipient)" (header hs "to") in
  let date := default "(Unknown Date)" (header hs "date") in
  email_body ← lift (latest_body payload);
  mret (VDict [("id", VStr msg_id); ("date", VStr date);
               ("from", VStr from_email); ("to", VStr to_email);
               ("subject", VStr subject); ("body", body_field email_body)]).

Fixpoint for_each {A B} (f : A → M B) (l : list A) : M (list B) :=
  match l with
  | [] => mret []
  | a :: l' => b ← f a; bs ← for_each f l'; mret (b :: bs)
  end.

(** [gmail_tool.get_latest_emails]: no [try] anywhere in its body. *)
Definition get_latest_emails (n : Z) : M value :=
  creds ← _get_credentials env "token.json";
  results ← remote (MessagesList (Some "INBOX") None (Some n)) (list_reply env);
  let messages := default [] results in
  match messages with
  | [] => mret (VDict [("status", VStr "No emails found.")])
  | _ =>
      emails ← for_each latest_one messages;
      mret (VDict [("count", VInt (Z.of_nat (length emails)));
                   ("emails", VList emails)])
  end.

Definition search_one (id : string) : M value :=
  msg ← remote (MessagesGet id None) (message_reply env);
  let hs := default [] (msg_payload msg ≫= headers) in
  let subject := default "(No Subject)" (header hs "subject") in
  let from_email := default "(Unknown Sender)" (header hs "from") in
  mret (VDict [("id", VStr id); ("from", VStr from_email);
               ("subject", VStr subject)]).

(** [search_tool.search_emails]: no [try] either. *)
Definition search_emails (query : string) : M value :=
  creds ← _get_credentials env "token.json";
  results ← remote (MessagesList None (Some query) None) (list_reply env);
  let messages := default [] results in
  match messages with
  | [] => mret (VDict [("status", VStr "No emails found matching your query.")])
  | _ =>
      email_list ← for_each search_one (List.firstn 5 messages);
      mret (VDict [("emails", VList email_list)])
  end.
End Tools.

End Gmail.

(** ** AttachmentFetcher: [attachment_tool.download_email_attachments] *)

Module Fetcher.

Import Text Mime Credentials FileServer.

(** An entry of [downloaded_files] and one of [failed_downloads]. *)
Record Downloaded := {
  d_filename : string;
  original_filename : string;
  download_link : string;
  file_size : Z;
  d_mime_type : string
}.

Record Failed := { f_filename : string; error : string }.

(** [os.makedirs(path, exist_ok=True)] *)
Definition makedirs (path : string) : M unit :=
  w ← get_world;
  match files w !! path with
  | Some Directory => mret ()
  | Some _ => raise (Exception ("[Errno 17] File exists: '" +:+ path +:+ "'"))
  | None => set_file path Directory
  end.

(** [f"{name}_{counter}{ext}"] *)
Definition numbered (original_filename : string) (counter : nat) : string :=
  let '(name, ext) := splitext original_filename in
  name +:+ "_" +:+ pretty counter +:+ ext.

(** The [while os.path.exists(file_path)] loop: the name to write under,
    starting from [filename] with [counter] the next number to try.  Each
    turn finds one more existing file, so the number of files bounds the
    turns; [None] is the loop running out of fuel. *)
Fixpoint unique_name (fuel : nat) (download_path original_filename filename : string)
  (counter : nat) : M (option string) :=
  ex ← path_exists (join download_path filename);
  if (ex : bool) then
    match fuel with
    | O => mret None
    | S fuel' =>
        unique_name fuel' download_path original_filename
                    (numbered original_filename counter) (S counter)
    end
  else mret (Some filename).

Section Fetch.
Variable env : Env.

(** The body of the [try] inside the loop over the attachments. *)
Definition download_one (email_id download_path : string) (server_port : Z)
  (attachment : Attachment) : M Downloaded :=
  attachment_data ← remote (AttachmentsGet email_id (attachment_id attachment))
                           (attachment_reply env);
  d ← lift (index "data" attachment_data);
  file_data ← lift (b64decode env d);
  w ← get_world;
  found ← unique_name (S (size (files w))) download_path
                      (a_filename attachment) (a_filename attachment) 1;
  match found with
  | None => raise (Exception "unique_name: out of fuel")
  | Some filename =>
      let file_path := join download_path filename in
      write_file env file_path (Blob file_data);;
      mret {| d_filename := filename;
              original_filename := a_filename attachment;
              download_link := "http://localhost:" +:+ pretty server_port
                               +:+ "/" +:+ quote filename;
              file_size := Z.of_nat (String.length file_data);
              d_mime_type := mime_type attachment |}
  end.

(** [for attachment in attachments: try: ... except Exception as e: ...] *)
Fixpoint download_each (email_id download_path : string) (server_port : Z)
  (attachments : list Attachment)
  (downloaded_files : list Downloaded) (failed_downloads : list Failed)
  : M (list Downloaded * list Failed) :=
  match attachments with
  | [] => mret (downloaded_files, failed_downloads)
  | attachment :: rest =>
      outcome ← try_except
                  (inl <$> download_one email_id download_path server_port attachment)
                  (λ e, mret (inr {| f_filename := a_filename attachment;
                                     error := str e |}));
      match outcome with
      | inl d =>
          download_each email_id download_path server_port rest
                        (downloaded_files ++ [d]) failed_downloads
      | inr f =>
          download_each email_id download_path server_port rest
                        downloaded_files (failed_downloads ++ [f])
      end
  end.

Definition downloaded_dict (d : Downloaded) : value :=
  VDict [("filename", VStr (d_filename d));
         ("original_filename", VStr (original_filename d));
         ("download_link", VStr (download_link d));
         ("file_size", VInt (file_size d));
         ("mime_type", VStr (d_mime_type d))].

Definition failed_dict (f : Failed) : value :=
  VDict [("filename", VStr (f_filename f)); ("error", VStr (error f))].

Definition server_text (info : server_info) : string :=
  if bool_decide (is_Some (server info))
  then "File server running at http://localhost:" +:+ pretty (port info)
  else "File server not running".

Definition download_email_attachments (email_id : string) : M value :=
  creds ← _get_credentials env "token.json";
  try_except
    (let download_path := join (cwd env) "downloads" in
     makedirs download_path;;
     info ← _start_file_server download_path;
     msg ← remote (MessagesGet email_id None) (message_reply env);
     payload ← lift (index "payload" (msg_payload msg));
     attachments ← lift (extract_attachments_strict payload []);
     match attachments with
     | [] =>
         mret (VDict [("status", VStr "No attachments found in this email.");
                      ("file_server_running", VBool (bool_decide (is_Some (server info))));
                      ("server_info", VStr (server_text info))])
     | _ =>
         '(downloaded_files, failed_downloads) ←
           download_each email_id download_path (port info) attachments [] [];
         mret (VDict
           [("email_id", VStr email_id);
            ("total_attachments", VInt (Z.of_nat (length attachments)));
            ("successful_downloads", VInt (Z.of_nat (length downloaded_files)));
            ("failed_downloads", VInt (Z.of_nat (length failed_downloads)));
            ("download_links", VList (downloaded_dict <$> downloaded_files));
            ("failed_files", VList (failed_dict <$> failed_downloads));
            ("file_server_running", VBool (bool_decide (is_Some (server info))));
            ("server_info", VStr (server_text info))])
     end)
    (Gmail.gmail_errors).
End Fetch.

End Fetcher.

(** ** Calendar and Tasks: the two delete tools *)

Module Calendar.

Import Credentials.

Section Tools.
Variable env : Env.

(** [delete_event_tool.delete_event]; [calendar_id] defaults to "primary". *)
Definition delete_event (event_id calendar_id : string) : M value :=
  try_except
    (creds ← _get_credentials env "token_calendar.json";
     remote (EventsDelete calendar_id event_id) (delete_reply env);;
     mret (VDict [("status", VStr "success");
                  ("message", VStr "Event deleted successfully");
                  ("event_id", VStr event_id)]))
    (λ e,
       match e with
       | HttpError status _ =>
           if bool_decide (status = 404) then
             mret (VDict [("status", VStr "error");
                          ("message", VStr "Event not found");
                          ("details", VStr ("No event with ID '" +:+ event_id
                                            +:+ "' exists in the calendar"));
                          ("event_id", VStr event_id)])
           else if bool_decide (status = 410) then
             mret (VDict [("status", VStr "error");
                          ("message", VStr "Event already deleted");
                          ("details", VStr ("Event with ID '" +:+ event_id
                                            +:+ "' was already deleted"));
                          ("event_id", VStr event_id)])
           else
             mret (VDict [("status", VStr "error");
                          ("message", VStr "Failed to delete event");
                          ("details", VStr (str e));
                          ("event_id", VStr event_id)])
       | Exception _ =>
           mret (VDict [("status", VStr "error");
                        ("message", VStr "An unexpected error occurred");
                        ("details", VStr (str e));
                        ("event_id", VStr event_id)])
       end).
End Tools.

End Calendar.

Module Tasks.

Import Credentials.

Section Tools.
Variable env : Env.

(** [delete_task_tool.delete_task]; [tasklist_id] defaults to "@default". *)
Definition delete_task (task_id tasklist_id : string) : M value :=
  try_except
    (creds ← _get_credentials env "token_tasks.json";
     remote (TasksDelete tasklist_id task_id) (delete_reply env);;
     mret (VDict [("status", VStr "success");
                  ("message", VStr "Task deleted successfully");
                  ("task_id", VStr task_id)]))
    (λ e,
       match e with
       | HttpError status _ =>
           if bool_decide (status = 404) then
             mret (VDict [("status", VStr "error");
                          ("message", VStr "Task not found");
                          ("details", VStr ("No task with ID '" +:+ task_id
                                            +:+ "' exists in the task list"));
                          ("task_id", VStr task_id)])
           else
             mret (VDict [("status", VStr "error");
                          ("message", VStr "Failed to delete task");
                          ("details", VStr (str e));
                          ("task_id", VStr task_id)])
       | Exception _ =>
           mret (VDict [("status", VStr "error");
                        ("message", VStr "An unexpected error occurred");
                        ("details", VStr (str e));
                        ("task_id", VStr task_id)])
       end).
End Tools.

End Tasks.

(** ** Reference behaviours the statements compare against *)

Module Reference.

Import Credentials.

(** Step 4 of the broker on its own: run the consent flow on the fixed
    callback port, persist what it returns, return it. *)
Definition authorize_and_persist (env : Env) (token_path : string) : M Creds :=
  creds ← remote (LocalServerFlow FIXED_PORT) (flow_reply env);
  write_file env token_path (TokenJson creds);;
  mret creds.

(** The stored record is usable as it is at time [t]: its file loads (it
    has a refresh token), it carries an access token, and it has an expiry
    that google-auth does not report as reached.  A record stored without an
    expiry is not: it loads as already expired. *)
Definition unexpired (c : Creds) (t : Z) : Prop :=
  is_Some (token c) ∧ is_Some (refresh_token c) ∧
  ∃ e, expiry c = Some e ∧ t < e - REFRESH_THRESHOLD.

(** The record is due for a silent refresh at time [t]. *)
Definition refreshable (c : Creds) (t : Z) : Prop :=
  (∃ e, expiry c = Some e ∧ e - REFRESH_THRESHOLD ≤ t) ∧
  truthy (refresh_token c) = true.

(** The world after one more logged effect. *)
Definition logged (e : event) (w : World) : World := (record e w).2.

End Reference.

(** ** Stand-ins for the outside, used to run the tools on concrete inputs *)

Module Scenario.

Import Text.

(** Base64 (URL-safe alphabet, padded) on canonical input. *)
Definition sextet (c : Ascii.ascii) : option Z :=
  let n := code c in
  if bool_decide (65 ≤ n ≤ 90) then Some (n - 65)
  else if bool_decide (97 ≤ n ≤ 122) then Some (n - 71)
  else if bool_decide (48 ≤ n ≤ 57) then Some (n + 4)
  else if bool_decide (n = 45) then Some 62
  else if bool_decide (n = 95) then Some 63
  else None.

Definition byte (n : Z) : Ascii.ascii := Ascii.ascii_of_N (Z.to_N (n mod 256)).
Definition pad : Ascii.ascii := Ascii.ascii_of_N 61.

Fixpoint urlsafe_b64decode (s : string) : result string :=
  match s with
  | "" => Return ""
  | String a (String b (String c (String d rest))) =>
      match sextet a, sextet b, sextet c, sextet d with
      | Some x, Some y, Some z, Some v =>
          tail ← urlsafe_b64decode rest;
          mret (String (byte (x * 4 + y / 16))
                  (String (byte (y * 16 + z / 4))
                     (String (byte (z * 64 + v)) tail)))
      | Some x, Some y, Some z, None =>
          if Ascii.eqb d pad && String.eqb rest ""
          then Return (String (byte (x * 4 + y / 16))
                         (String (byte (y * 16 + z / 4)) ""))
          else Raise (Exception "Incorrect padding")
      | Some x, Some y, None, None =>
          if Ascii.eqb c pad && Ascii.eqb d pad && String.eqb rest ""
          then Return (String (byte (x * 4 + y / 16)) "")
          else Raise (Exception "Incorrect padding")
      | _, _, _, _ => Raise (Exception "Incorrect padding")
      end
  | _ => Raise (Exception "Incorrect padding")
  end.

Fixpoint all_ascii (s : string) : bool :=
  match s with
  | "" => true
  | String c s' => bool_decide (code c < 128) && all_ascii s'
  end.

(** UTF-8 decoding of ASCII bytes. *)
Definition decode_ascii (s : string) : result string :=
  if all_ascii s then Return s
  else Raise (Exception "'utf-8' codec can't decode byte").

(** The text of markup without entities: what lies outside the tags. *)
Fixpoint strip_tags (in_tag : bool) (s : string) : string :=
  match s with
  | "" => ""
  | String c s' =>
      if bool_decide (code c = 60) then strip_tags true s'
      else if bool_decide (code c = 62) then strip_tags false s'
      else if in_tag then strip_tags in_tag s'
      else String c (strip_tags in_tag s')
  end.

(** A service that answers every message request with [msg], every
    attachment request through [attachment], every listing with [ids], and
    whose token endpoint, consent flow and delete calls answer as given. *)
Definition service (refresh flow : result Creds)
  (ids : result (option (list string))) (msg : result Message)
  (attachment : string → result (option string)) (del : result unit) : Env :=
  {| cwd := "/srv";
     write_denied := λ _, false;
     refresh_reply := λ _, refresh;
     flow_reply := λ _, flow;
     list_reply := λ _, ids;
     message_reply := λ _, msg;
     attachment_reply := λ l,
       match last l with
       | Some (AttachmentsGet _ id) => attachment id
       | _ => Raise (Exception "not an attachment request")
       end;
     delete_reply := λ _, del;
     b64decode := urlsafe_b64decode;
     decode_utf8 := decode_ascii;
     get_text := strip_tags false |}.

(** A freshly started process: nothing bound, the globals as the module
    initialises them. *)
Definition fresh (fs : gmap string file) (clock : Z) (taken parked : gset Z) : World :=
  {| files := fs; now := clock; log := [];
     listening := taken; held := parked; bound_servers := [];
     _file_server := None; _file_server_thread := None;
     _download_path := None; FILE_SERVER_PORT := 8000 |}.

Definition cached : Creds :=
  {| token := Some "ya29.cached"; refresh_token := Some "1//r"; expiry := Some 5000 |}.
Definition granted : Creds :=
  {| token := Some "ya29.new"; refresh_token := Some "1//n"; expiry := Some 9000 |}.

End Scenario.

(** ** Induction over a payload, and the walks as folds *)

Section PartInduction.
Variable P : Part → Prop.
Hypothesis step : ∀ mt fn hs b ps,
  match ps with Some l => Forall P l | None => True end →
  P {| mimeType := mt; filename := fn; headers := hs; body := b; parts := ps |}.

Fixpoint Part_induction (p : Part) : P p :=
  match p with
  | Build_Part mt fn hs b ps =>
      step mt fn hs b ps
        (match ps as o return match o with Some l => Forall P l | None => True end with
         | Some l =>
             (fix all (l : list Part) : Forall P l :=
                match l with
                | [] => @List.Forall_nil _ P
                | x :: l' => @List.Forall_cons _ P x l' (Part_induction x) (all l')
                end) l
         | None => I
         end)
  end.
End PartInduction.

Module MimeRef.
Import Mime.
(** The walk as a left fold of [visit] over a list of nodes. *)
Fixpoint visit_all (env : Env) (nodes : list Part) (acc : Bodies) : result Bodies :=
  match nodes with
  | [] => Return acc
  | n :: rest => acc ← visit env n acc; visit_all env rest acc
  end.

(** The inline data of the nodes of type [mt], in visiting order. *)
Definition inline_bodies (mt : string) (nodes : list Part) : list string :=
  omap (λ n, if bool_decide (mimeType n = Some mt) then body_data n else None) nodes.

(** What the last node of a kind leaves in its variable, [init] when there is
    no such node. *)
Definition captured (env : Env) (mt : string) (nodes : list Part) (init : string)
  : result string :=
  match last (inline_bodies mt nodes) with
  | Some d => decode env d
  | None => Return init
  end.

(** A part that is neither a text/plain nor a text/html part: a multipart
    container, an attachment, an image. *)
Definition container (part : Part) : Prop :=
  ∃ mt, mimeType part = Some mt ∧ mt ≠ "text/plain" ∧ mt ≠ "text/html".
End MimeRef.

(** ** Sample messages and outcome lists *)

Module Samples.
Import Scenario.

Definition leaf (mt : string) (d : string) : Part :=
  {| mimeType := Some mt; filename := None; headers := None;
     body := Some {| data := Some d; attachmentId := None; b_size := None |};
     parts := None |}.

Definition multipart (mt : string) (hs : option (list (string * string)))
  (ps : list Part) : Part :=
  {| mimeType := Some mt; filename := None; headers := hs;
     body := Some {| data := None; attachmentId := None; b_size := Some 0 |};
     parts := Some ps |}.

Definition attached (fn aid : string) : Part :=
  {| mimeType := Some "application/pdf"; filename := Some fn; headers := None;
     body := Some {| data := None; attachmentId := Some aid; b_size := Some 3 |};
     parts := None |}.

Definition message (p : Part) : Message :=
  {| msg_payload := Some p; labelIds := Some ["INBOX"]; threadId := Some "t1";
     snippet := Some ""; sizeEstimate := Some 100 |}.

(** "first" at the top level, "second" and markup one level down. *)
Definition two_plain : Part :=
  multipart "multipart/mixed" (Some [("Subject", "hello")])
    [leaf "text/plain" "Zmlyc3Q=";
     multipart "multipart/alternative" None
       [leaf "text/plain" "c2Vjb25k"; leaf "text/html" "PHA-aGk8L3A-"]].

(** One text/plain part at the top level and one text/html part three
    levels down. *)
Definition deep_html : Part :=
  multipart "multipart/mixed" None
    [leaf "text/plain" "cGxhaW4gdGV4dA==";
     multipart "multipart/related" None
       [multipart "multipart/alternative" None
          [leaf "text/html" "PGI-Ym9sZDwvYj4="]]].

(** A message with an attachment: the two bodies sit in a
    multipart/alternative under multipart/mixed. *)
Definition with_attachment : Part :=
  multipart "multipart/mixed" (Some [("Subject", "report"); ("From", "a@example.com")])
    [multipart "multipart/alternative" None
       [leaf "text/plain" "cGxhaW4gdGV4dA=="; leaf "text/html" "PGI-Ym9sZDwvYj4="];
     attached "report.pdf" "att-1"].

Definition signed_in (fs : gmap string file) : World :=
  fresh (<["token.json" := TokenJson cached]> fs) 1000 ∅ ∅.
End Samples.

Module Outcomes.
Import Mime Fetcher.

(** What the loop records for one attachment, and the two lists read back
    from a run of such records. *)
Definition outcome_name (o : Downloaded + Failed) : string :=
  match o with
  | inl d => original_filename d
  | inr f => f_filename f
  end.

Definition succeeded (outcomes : list (Downloaded + Failed)) : list Downloaded :=
  omap (λ o, match o with inl d => Some d | inr _ => None end) outcomes.

Definition failures (outcomes : list (Downloaded + Failed)) : list Failed :=
  omap (λ o, match o with inl _ => None | inr f => Some f end) outcomes.

(** [attempts env email_id download_path server_port attachments w outcomes w']:
    every attachment has been tried once, in order, each in the world the
    attempts before it left; [outcomes] records, entry by entry, what
    [download_one] returned for it, or the attachment's name with the text
    of what it raised, and [w'] is the world after the last attempt. *)
Inductive attempts (env : Env) (email_id download_path : string) (server_port : Z)
  : list Attachment → World → list (Downloaded + Failed) → World → Prop :=
| attempts_none w :
    attempts env email_id download_path server_port [] w [] w
| attempts_downloaded attachment rest w d w1 outcomes w' :
    download_one env email_id download_path server_port attachment w
    = (Return d, w1) →
    attempts env email_id download_path server_port rest w1 outcomes w' →
    attempts env email_id download_path server_port (attachment :: rest) w
             (inl d :: outcomes) w'
| attempts_failed attachment rest w e w1 outcomes w' :
    download_one env email_id download_path server_port attachment w
    = (Raise e, w1) →
    attempts env email_id download_path server_port rest w1 outcomes w' →
    attempts env email_id download_path server_port (attachment :: rest) w
             (inr {| f_filename := a_filename attachment; error := str e |}
              :: outcomes) w'.
End Outcomes.

Module Cases.
Import Scenario Samples Mime.

(** A mailbox holding one message, "m1". *)
Definition mailbox (p : Part) : Env :=
  service (Raise (Exception "invalid_grant")) (Return granted)
          (Return (Some ["m1"])) (Return (message p))
          (λ _, Return None) (Return ()).

(** The Gmail service answers every listing with HTTP 500. *)
Definition gmail_down : Env :=
  service (Raise (Exception "invalid_grant")) (Return granted)
          (Raise (HttpError 500 "<HttpError 500 Backend Error>"))
          (Raise (HttpError 500 "<HttpError 500 Backend Error>"))
          (λ _, Return None) (Return ()).

(** A record whose access token ran out at 900, with a refresh token the
    endpoint no longer honours. *)
Definition stale : Creds :=
  {| token := Some "ya29.old"; refresh_token := Some "1//r"; expiry := Some 900 |}.

(** Three attachments; the service has no bytes for the second. *)
Definition three_files : Part :=
  multipart "multipart/mixed" (Some [("Subject", "files")])
    [leaf "text/plain" "Zmlyc3Q=";
     attached "a.txt" "att-1"; attached "b.txt" "att-2"; attached "c.txt" "att-3"].

Definition bytes_for (id : string) : result (option string) :=
  if String.eqb id "att-2"
  then Raise (HttpError 404 "<HttpError 404 Not Found>")
  else Return (Some "aGVsbG8=").

Definition flaky_store : Env :=
  service (Raise (Exception "invalid_grant")) (Return granted)
          (Return (Some ["m1"])) (Return (message three_files))
          bytes_for (Return ()).

Definition pdf_store : Env :=
  service (Raise (Exception "invalid_grant")) (Return granted)
          (Return (Some ["m1"])) (Return (message with_attachment))
          (λ _, Return (Some "aGVsbG8=")) (Return ()).

Definition report : Attachment :=
  {| attachment_id := "att-1"; a_filename := "report.pdf";
     mime_type := "application/pdf"; a_size := 3 |}.

(** The process after a first download served "/srv/a" on port 8000. *)
Definition serving_a : World :=
  {| files := ∅; now := 1000; log := [ServeForever 8000 "/srv/a"];
     listening := ∅; held := ∅;
     bound_servers := [{| server_port := 8000; directory := "/srv/a" |}];
     _file_server := Some {| server_port := 8000; directory := "/srv/a" |};
     _file_server_thread := Some true;
     _download_path := Some "/srv/a";
     FILE_SERVER_PORT := 8000 |}.
End Cases.

(** ** JSON objects of the Tasks and Calendar services *)

Module Json.

(** A JSON object as Python holds it: a dict, its keys in insertion order. *)
Abbreviation dict := (list (string * value)).

(** [d.get(key)]: [None] of the option is Python's [None] of a missing key. *)
Definition get (key : string) (d : dict) : option value :=
  snd <$> List.find (λ kv, String.eqb (fst kv) key) d.

(** [key in d] *)
Definition has (key : string) (d : dict) : bool :=
  bool_decide (is_Some (get key d)).

(** [d.get(key, fallback)] *)
Definition get_or (key : string) (fallback : value) (d : dict) : value :=
  default fallback (get key d).

(** [d[key]] *)
Definition getitem (key : string) (d : dict) : result value :=
  index key (get key d).

(** [d[key] = v]: an existing key keeps its place, a new one goes last. *)
Fixpoint set (key : string) (v : value) (d : dict) : dict :=
  match d with
  | [] => [(key, v)]
  | (k, x) :: d' =>
      if String.eqb k key then (k, v) :: d' else (k, x) :: set key v d'
  end.

(** [if key in src: dst[key] = src[key]] *)
Definition copy_key (key : string) (src dst : dict) : dict :=
  match get key src with
  | Some v => set key v dst
  | None => dst
  end.

(** Python truthiness of an optional list argument: [None] and [[]] are
    false. *)
Definition some_items {A} (o : option (list A)) : bool :=
  match o with
  | Some (_ :: _) => true
  | _ => false
  end.

(** [key in s] for a string [s]: the substring test. *)
Fixpoint occurs (key s : string) : bool :=
  String.prefix key s ||
  match s with
  | "" => false
  | String _ s' => occurs key s'
  end.

(** A TypeError and an AttributeError, with the text [str(e)] gives. *)
Definition type_error (what : string) : exn := Exception what.
Definition attribute_error (what : string) : exn :=
  Exception (what +:+ " object has no attribute 'get'").

Definition type_name (v : value) : string :=
  match v with
  | VNone => "'NoneType'"
  | VBool _ => "'bool'"
  | VInt _ => "'int'"
  | VStr _ => "'str'"
  | VList _ => "'list'"
  | VDict _ => "'dict'"
  end.

(** [key in v] for a value found inside an object: membership of a dict's
    keys, of a list's items, the substring test of a string; the other types
    are not containers. *)
Definition contains (key : string) (v : value) : result bool :=
  match v with
  | VDict d => Return (has key d)
  | VList l => Return (existsb (λ x, match x with
                                     | VStr s => String.eqb s key
                                     | _ => false
                                     end) l)
  | VStr s => Return (occurs key s)
  | _ => Raise (type_error ("argument of type " +:+ type_name v +:+ " is not iterable"))
  end.

(** [v.get]: only a dict has it. *)
Definition as_dict (v : value) : result dict :=
  match v with
  | VDict d => Return d
  | _ => Raise (attribute_error (type_name v))
  end.

(** [v[key] = x] for a value found inside an object *)
Definition setitem (key : string) (x : value) (v : value) : result value :=
  match v with
  | VDict d => Return (VDict (set key x d))
  | VList _ => Raise (type_error "list indices must be integers or slices, not str")
  | _ => Raise (type_error (type_name v +:+ " object does not support item assignment"))
  end.

(** Truthiness of a value tested with [if not v]. *)
Definition truthy_value (v : value) : bool :=
  match v with
  | VNone => false
  | VBool b => b
  | VInt n => negb (n =? 0)
  | VStr s => negb (String.eqb s "")
  | VList l => match l with [] => false | _ => true end
  | VDict d => match d with [] => false | _ => true end
  end.

Fixpoint chars (s : string) : list value :=
  match s with
  | "" => []
  | String c s' => VStr (String c "") :: chars s'
  end.

(** [for x in v]: the items of a list, the keys of a dict, the characters of
    a string. *)
Definition iterate (v : value) : result (list value) :=
  match v with
  | VList l => Return l
  | VDict d => Return ((λ kv, VStr (fst kv)) <$> d)
  | VStr s => Return (chars s)
  | _ => Raise (type_error (type_name v +:+ " object is not iterable"))
  end.

(** [v[key]] for a value found inside a list or an object *)
Definition subscript (key : string) (v : value) : result value :=
  match v with
  | VDict d => getitem key d
  | VStr _ => Raise (type_error "string indices must be integers, not 'str'")
  | VList _ => Raise (type_error "list indices must be integers or slices, not str")
  | _ => Raise (type_error (type_name v +:+ " object is not subscriptable"))
  end.

(** [for x in l: out.append(f(x))], stopping at the first exception *)
Fixpoint each {A B} (f : A → result B) (l : list A) : result (list B) :=
  match l with
  | [] => Return []
  | a :: l' => b ← f a; bs ← each f l'; mret (b :: bs)
  end.

End Json.

(** ** Calls to the Tasks and Calendar services *)

Module Rest.

Import Json.

(** The requests the remaining tools build, with every argument they pass.
    [TasksList] carries the two flags [show_completed] adds, [EventsList] the
    query of [search_events] or the time window of [list_events]; both
    calendar listings pass [singleEvents=True, orderBy='startTime']. *)
Inductive request :=
| TasksGet (tasklist task : string)
| TasksUpdate (tasklist task : string) (body : dict)
| TasksInsert (tasklist : string) (body : dict) (parent : option string)
| TasksList (tasklist : string) (maxResults : Z) (showCompleted showHidden : option bool)
| TasklistsList
| EventsGet (calendarId eventId : string)
| EventsUpdate (calendarId eventId : string) (body : dict) (sendUpdates : string)
| EventsInsert (calendarId : string) (body : dict) (sendUpdates : string)
| EventsList (calendarId : string) (q timeMin timeMax : option string) (maxResults : Z).

(** What [execute()] gives: the parsed JSON object of the response, or the
    exception raised.  The answer may depend on every request made so far,
    the one answered included. *)
Definition Api : Type := list request → result dict.

(** The clock of [list_events], read once: [now_iso] is
    [now.isoformat()] for [now = datetime.utcnow()], [later_iso d] is
    [(now + timedelta(days=d)).isoformat()], which overflows for large [d],
    and [today] is [now.strftime('%Y-%m-%d')]. *)
Record Clock := {
  now_iso : string;
  later_iso : Z → result string;
  today : string
}.

(** A tool run: the world of the credential helper and the requests made. *)
Record Session := { world : World; calls : list request }.

Definition T (A : Type) : Type := Session → result A * Session.

#[global] Instance T_ret : MRet T := λ A a s, (Return a, s).
#[global] Instance T_bind : MBind T := λ A B k m s,
  match m s with
  | (Return a, s') => k a s'
  | (Raise e, s') => (Raise e, s')
  end.

(** [try: m except HttpError/Exception as e: h e] *)
Definition guarded {A} (m : T A) (h : exn → A) : T A := λ s,
  match m s with
  | (Return a, s') => (Return a, s')
  | (Raise e, s') => (Return (h e), s')
  end.

(** A computation of the credential helper's monad, run on the session's
    world. *)
Definition in_world {A} (m : M A) : T A := λ s,
  match m (world s) with
  | (r, w') => (r, {| world := w'; calls := calls s |})
  end.

Definition pure {A} (r : result A) : T A := λ s, (r, s).

(** [service....(...).execute()] *)
Definition execute (api : Api) (r : request) : T dict := λ s,
  (api (calls s ++ [r]), {| world := world s; calls := calls s ++ [r] |}).

End Rest.

(** ** The Tasks tools *)

Module TaskTools.

Import Json Rest Credentials.

Section Tools.
Variable env : Env.
Variable api : Api.

Definition token_file : string := "token_tasks.json".

(** The two handlers shared by [complete_task] and [update_task], with the
    word that differs. *)
Definition task_errors (verb task_id : string) (e : exn) : value :=
  match e with
  | HttpError status _ =>
      if bool_decide (status = 404) then
        VDict [("status", VStr "error");
               ("message", VStr "Task not found");
               ("details", VStr ("No task with ID '" +:+ task_id
                                 +:+ "' exists in the task list"));
               ("task_id", VStr task_id)]
      else
        VDict [("status", VStr "error");
               ("message", VStr ("Failed to " +:+ verb +:+ " task"));
               ("details", VStr (str e));
               ("task_id", VStr task_id)]
  | Exception _ =>
      VDict [("status", VStr "error");
             ("message", VStr "An unexpected error occurred");
             ("details", VStr (str e));
             ("task_id", VStr task_id)]
  end.

(** The [update_body] of [complete_task] *)
Definition completed_body (task : dict) : result dict :=
  id ← getitem "id" task;
  mret (copy_key "due" task
          (copy_key "notes" task
             [("id", id);
              ("title", get_or "title" (VStr "") task);
              ("status", VStr "completed")])).

(** [complete_task_tool.complete_task] *)
Definition complete_task (task_id tasklist_id : string) : T value :=
  guarded
    (creds ← in_world (_get_credentials env token_file);
     task ← execute api (TasksGet tasklist_id task_id);
     update_body ← pure (completed_body task);
     updated_task ← execute api (TasksUpdate tasklist_id task_id update_body);
     id ← pure (getitem "id" updated_task);
     mret (VDict [("status", VStr "success");
                  ("message", VStr "Task marked as completed");
                  ("task_id", id);
                  ("title", get_or "title" VNone updated_task);
                  ("completed", get_or "completed" (VStr "") updated_task);
                  ("task_status", get_or "status" (VStr "completed") updated_task)]))
    (task_errors "complete" task_id).

(** [x if x is not None else task.get(key, fallback)] *)
Definition given_or (x : option string) (key : string) (fallback : string)
  (task : dict) : value :=
  match x with
  | Some s => VStr s
  | None => get_or key (VStr fallback) task
  end.

(** [if x is not None: body[key] = x elif key in task: body[key] = task[key]] *)
Definition given_or_kept (x : option string) (key : string) (task body : dict)
  : dict :=
  match x with
  | Some s => set key (VStr s) body
  | None => copy_key key task body
  end.

(** The [update_body] of [update_task] *)
Definition updated_body (title notes due status : option string) (task : dict)
  : result dict :=
  id ← getitem "id" task;
  mret (given_or_kept due "due" task
          (given_or_kept notes "notes" task
             [("id", id);
              ("title", given_or title "title" "" task);
              ("status", given_or status "status" "needsAction" task)])).

(** [update_task_tool.update_task] *)
Definition update_task (task_id : string) (title notes due status : option string)
  (tasklist_id : string) : T value :=
  guarded
    (creds ← in_world (_get_credentials env token_file);
     task ← execute api (TasksGet tasklist_id task_id);
     update_body ← pure (updated_body title notes due status task);
     updated_task ← execute api (TasksUpdate tasklist_id task_id update_body);
     id ← pure (getitem "id" updated_task);
     mret (VDict [("status", VStr "success");
                  ("message", VStr "Task updated successfully");
                  ("task_id", id);
                  ("title", get_or "title" VNone updated_task);
                  ("notes", get_or "notes" (VStr "No notes") updated_task);
                  ("due", get_or "due" (VStr "No due date") updated_task);
                  ("task_status", get_or "status" (VStr "needsAction") updated_task)]))
    (task_errors "update" task_id).

(** [if x: body[key] = x] *)
Definition when_truthy (x : option string) (key : string) (body : dict) : dict :=
  if truthy x then set key (of_option x) body else body.

(** The [task] body of [create_task] *)
Definition new_task (title : string) (notes due : option string) : dict :=
  when_truthy due "due" (when_truthy notes "notes" [("title", VStr title)]).

(** [create_task_tool.create_task] *)
Definition create_task (title : string) (notes due parent : option string)
  (tasklist_id : string) : T value :=
  guarded
    (creds ← in_world (_get_credentials env token_file);
     created_task ← execute api
       (TasksInsert tasklist_id (new_task title notes due)
                    (if truthy parent then parent else None));
     id ← pure (getitem "id" created_task);
     mret (VDict [("status", VStr "success");
                  ("message", VStr "Task created successfully");
                  ("task_id", id);
                  ("title", get_or "title" VNone created_task);
                  ("notes", get_or "notes" (VStr "No notes") created_task);
                  ("due", get_or "due" (VStr "No due date") created_task);
                  ("tasklist_id", VStr tasklist_id);
                  ("position", get_or "position" (VStr "") created_task)]))
    (λ e, match e with
          | HttpError _ _ =>
              VDict [("status", VStr "error");
                     ("message", VStr "Failed to create task");
                     ("details", VStr (str e))]
          | Exception _ =>
              VDict [("status", VStr "error");
                     ("message", VStr "An unexpected error occurred");
                     ("details", VStr (str e))]
          end).

(** One entry of [formatted_tasks] *)
Definition format_task (task : value) : result value :=
  id ← subscript "id" task;
  d ← as_dict task;
  mret (VDict
    (copy_key "links" d
       (copy_key "parent" d
          (copy_key "completed" d
             (copy_key "due" d
                (copy_key "notes" d
                   [("id", id);
                    ("title", get_or "title" (VStr "(No Title)") d);
                    ("status", get_or "status" (VStr "needsAction") d);
                    ("updated", get_or "updated" (VStr "") d);
                    ("position", get_or "position" (VStr "") d)])))))).

(** [list_tasks_tool.list_tasks] *)
Definition list_tasks (tasklist_id : string) (max_results : Z)
  (show_completed : bool) : T value :=
  guarded
    (creds ← in_world (_get_credentials env token_file);
     results ← execute api
       (TasksList tasklist_id max_results
                  (if show_completed then Some true else None)
                  (if show_completed then Some true else None));
     let tasks := get_or "items" (VList []) results in
     if negb (truthy_value tasks) then
       mret (VDict [("count", VInt 0);
                    ("tasklist_id", VStr tasklist_id);
                    ("tasks", VList []);
                    ("message", VStr "No tasks found in this list.")])
     else
       items ← pure (iterate tasks);
       formatted_tasks ← pure (each format_task items);
       mret (VDict [("count", VInt (Z.of_nat (length formatted_tasks)));
                    ("tasklist_id", VStr tasklist_id);
                    ("tasks", VList formatted_tasks)]))
    (λ e, match e with
          | HttpError _ _ =>
              VDict [("status", VStr "error");
                     ("message", VStr ("An HTTP error occurred: " +:+ str e));
                     ("tasklist_id", VStr tasklist_id);
                     ("tasks", VList [])]
          | Exception _ =>
              VDict [("status", VStr "error");
                     ("message", VStr ("An error occurred: " +:+ str e));
                     ("tasklist_id", VStr tasklist_id);
                     ("tasks", VList [])]
          end).

(** One entry of [formatted_lists] *)
Definition format_tasklist (tasklist : value) : result value :=
  id ← subscript "id" tasklist;
  d ← as_dict tasklist;
  mret (VDict [("id", id);
               ("title", get_or "title" (VStr "(No Title)") d);
               ("updated", get_or "updated" (VStr "") d)]).

(** [list_tasklists_tool.list_tasklists] *)
Definition list_tasklists : T value :=
  guarded
    (creds ← in_world (_get_credentials env token_file);
     results ← execute api TasklistsList;
     let tasklists := get_or "items" (VList []) results in
     if negb (truthy_value tasklists) then
       mret (VDict [("count", VInt 0);
                    ("tasklists", VList []);
                    ("message", VStr "No task lists found.")])
     else
       items ← pure (iterate tasklists);
       formatted_lists ← pure (each format_tasklist items);
       mret (VDict [("count", VInt (Z.of_nat (length formatted_lists)));
                    ("tasklists", VList formatted_lists)]))
    (λ e, match e with
          | HttpError _ _ =>
              VDict [("status", VStr "error");
                     ("message", VStr ("An HTTP error occurred: " +:+ str e));
                     ("tasklists", VList [])]
          | Exception _ =>
              VDict [("status", VStr "error");
                     ("message", VStr ("An error occurred: " +:+ str e));
                     ("tasklists", VList [])]
          end).
End Tools.

End TaskTools.

(** ** The Calendar tools *)

Module EventTools.

Import Json Rest Credentials.

Section Tools.
Variable env : Env.
Variable api : Api.
Variable clock : Clock.

Definition token_file : string := "token_calendar.json".

(** [event[key].get('dateTime', event[key].get('date'))] *)
Definition moment (key : string) (event : dict) : result value :=
  v ← getitem key event;
  d ← as_dict v;
  mret (get_or "dateTime" (get_or "date" VNone d) d).

(** The success dict of [create_event] and [update_event], which differ in
    the message. *)
Definition event_summary (message : string) (event : dict) : result value :=
  id ← getitem "id" event;
  start ← moment "start" event;
  finish ← moment "end" event;
  mret (VDict [("status", VStr "success");
               ("message", VStr message);
               ("event_id", id);
               ("summary", get_or "summary" VNone event);
               ("start", start);
               ("end", finish);
               ("html_link", get_or "htmlLink" (VStr "") event);
               ("location", get_or "location" (VStr "No location specified") event)]).

(** [[{'email': email} for email in attendees]] *)
Definition invitees (attendees : list string) : value :=
  VList ((λ email, VDict [("email", VStr email)]) <$> attendees).

Definition timed (datetime timezone : string) : value :=
  VDict [("dateTime", VStr datetime); ("timeZone", VStr timezone)].

(** The [event] body of [create_event] *)
Definition new_event (summary start_datetime end_datetime : string)
  (description location : option string) (attendees : option (list string))
  (timezone : string) : dict :=
  let event := [("summary", VStr summary);
                ("start", timed start_datetime timezone);
                ("end", timed end_datetime timezone)] in
  let event := if truthy description
               then set "description" (of_option description) event else event in
  let event := if truthy location
               then set "location" (of_option location) event else event in
  if some_items attendees
  then set "attendees" (invitees (default [] attendees)) event else event.

(** [calendar_agent.create_event_tool.create_event] *)
Definition create_event (summary start_datetime end_datetime : string)
  (description location : option string) (attendees : option (list string))
  (timezone calendar_id : string) : T value :=
  guarded
    (creds ← in_world (_get_credentials env token_file);
     created_event ← execute api
       (EventsInsert calendar_id
          (new_event summary start_datetime end_datetime description location
                     attendees timezone)
          (if some_items attendees then "all" else "none"));
     pure (event_summary "Event created successfully" created_event))
    (λ e, match e with
          | HttpError _ _ =>
              VDict [("status", VStr "error");
                     ("message", VStr "Failed to create event");
                     ("details", VStr (str e))]
          | Exception _ =>
              VDict [("status", VStr "error");
                     ("message", VStr "An unexpected error occurred");
                     ("details", VStr (str e))]
          end).

(** The block [if start_datetime is not None: ...] of [update_event], and its
    twin for the end, on the key [key]. *)
Definition move (key : string) (datetime timezone : option string) (event : dict)
  : result dict :=
  match datetime with
  | None => Return event
  | Some t =>
      v ← getitem key event;
      is_timed ← contains "dateTime" v;
      if (is_timed : bool) then
        v ← setitem "dateTime" (VStr t) v;
        v ← (if truthy timezone then setitem "timeZone" (of_option timezone) v
             else Return v);
        mret (set key v event)
      else
        mret (set key (timed t (if truthy timezone then default "" timezone
                                else "UTC")) event)
  end.

Definition replace (key : string) (x : option string) (event : dict) : dict :=
  match x with
  | Some s => set key (VStr s) event
  | None => event
  end.

(** The fetched event after the updates [update_event] applies to it. *)
Definition revised (summary start_datetime end_datetime description location
                    : option string) (attendees : option (list string))
  (timezone : option string) (event : dict) : result dict :=
  let event := replace "summary" summary event in
  event ← move "start" start_datetime timezone event;
  event ← move "end" end_datetime timezone event;
  let event := replace "description" description event in
  let event := replace "location" location event in
  mret (match attendees with
        | Some l => set "attendees" (invitees l) event
        | None => event
        end).

(** [calendar_agent.update_event_tool.update_event] *)
Definition update_event (event_id : string)
  (summary start_datetime end_datetime description location : option string)
  (attendees : option (list string)) (timezone : option string)
  (calendar_id : string) : T value :=
  guarded
    (creds ← in_world (_get_credentials env token_file);
     event ← execute api (EventsGet calendar_id event_id);
     event ← pure (revised summary start_datetime end_datetime description
                           location attendees timezone event);
     updated_event ← execute api
       (EventsUpdate calendar_id event_id event
                     (if has "attendees" event then "all" else "none"));
     pure (event_summary "Event updated successfully" updated_event))
    (λ e, match e with
          | HttpError status _ =>
              if bool_decide (status = 404) then
                VDict [("status", VStr "error");
                       ("message", VStr "Event not found");
                       ("details", VStr ("No event with ID '" +:+ event_id
                                         +:+ "' exists in the calendar"));
                       ("event_id", VStr event_id)]
              else
                VDict [("status", VStr "error");
                       ("message", VStr "Failed to update event");
                       ("details", VStr (str e));
                       ("event_id", VStr event_id)]
          | Exception _ =>
              VDict [("status", VStr "error");
                     ("message", VStr "An unexpected error occurred");
                     ("details", VStr (str e));
                     ("event_id", VStr event_id)]
          end).

(** [event[key].get('dateTime', event[key].get('date'))] on an item of a
    listing *)
Definition moment_of (key : string) (event : value) : result value :=
  v ← subscript key event;
  d ← as_dict v;
  mret (get_or "dateTime" (get_or "date" VNone d) d).

(** One entry of [formatted_events] in [search_events] *)
Definition format_event (event : value) : result value :=
  start ← moment_of "start" event;
  finish ← moment_of "end" event;
  id ← subscript "id" event;
  d ← as_dict event;
  mret (VDict
    (copy_key "description" d
       (copy_key "location" d
          [("id", id);
           ("summary", get_or "summary" (VStr "(No Title)") d);
           ("start", start);
           ("end", finish);
           ("status", get_or "status" (VStr "confirmed") d);
           ("html_link", get_or "htmlLink" (VStr "") d)]))).

Definition listing_errors (extra : dict) (e : exn) : value :=
  match e with
  | HttpError _ _ =>
      VDict ([("status", VStr "error");
              ("message", VStr ("An HTTP error occurred: " +:+ str e))]
             ++ extra ++ [("events", VList [])])
  | Exception _ =>
      VDict ([("status", VStr "error");
              ("message", VStr ("An error occurred: " +:+ str e))]
             ++ extra ++ [("events", VList [])])
  end.

(** [calendar_agent.search_events_tool.search_events] *)
Definition search_events (query : string) (max_results : Z) (calendar_id : string)
  : T value :=
  guarded
    (creds ← in_world (_get_credentials env token_file);
     events_result ← execute api
       (EventsList calendar_id (Some query) None None max_results);
     let events := get_or "items" (VList []) events_result in
     if negb (truthy_value events) then
       mret (VDict [("count", VInt 0);
                    ("query", VStr query);
                    ("events", VList []);
                    ("message", VStr ("No events found matching '" +:+ query +:+ "'."))])
     else
       items ← pure (iterate events);
       formatted_events ← pure (each format_event items);
       mret (VDict [("count", VInt (Z.of_nat (length formatted_events)));
                    ("query", VStr query);
                    ("events", VList formatted_events)]))
    (listing_errors [("query", VStr query)]).

(** One entry of the 'attendees' list in [list_events] *)
Definition format_attendee (attendee : value) : result value :=
  d ← as_dict attendee;
  mret (VDict [("email", get_or "email" VNone d);
               ("responseStatus", get_or "responseStatus" (VStr "needsAction") d)]).

(** One entry of [formatted_events] in [list_events] *)
Definition format_upcoming (event : value) : result value :=
  base ← format_event event;
  d ← as_dict event;
  entry ← as_dict base;
  match get "attendees" d with
  | Some people =>
      people ← iterate people;
      people ← each format_attendee people;
      mret (VDict (set "attendees" (VList people) entry))
  | None => mret base
  end.

(** [calendar_agent.list_events_tool.list_events] *)
Definition list_events (max_results days_ahead : Z) (calendar_id : string)
  : T value :=
  guarded
    (creds ← in_world (_get_credentials env token_file);
     time_max ← pure (later_iso clock days_ahead);
     let time_min := now_iso clock +:+ "Z" in
     let time_max_str := time_max +:+ "Z" in
     events_result ← execute api
       (EventsList calendar_id None (Some time_min) (Some time_max_str) max_results);
     let events := get_or "items" (VList []) events_result in
     if negb (truthy_value events) then
       mret (VDict [("count", VInt 0);
                    ("events", VList []);
                    ("message", VStr ("No upcoming events found in the next "
                                      +:+ pretty days_ahead +:+ " days."))])
     else
       items ← pure (iterate events);
       formatted_events ← pure (each format_upcoming items);
       mret (VDict [("count", VInt (Z.of_nat (length formatted_events)));
                    ("events", VList formatted_events);
                    ("time_range", VStr ("Next " +:+ pretty days_ahead
                                         +:+ " days from " +:+ today clock))]))
    (listing_errors []).
End Tools.

End EventTools.

(** ** What stays true of the server globals *)

Module ServerState.

(** The handle in the globals is a listener this process has bound, on the
    port the globals report, serving the path the globals name. *)
Definition handle_bound (w : World) : Prop :=
  ∀ s, _file_server w = Some s →
    s ∈ bound_servers w ∧
    server_port s = FILE_SERVER_PORT w ∧
    _download_path w = Some (directory s).

(** No two listeners of the process share a port, and none sits on a port
    another process occupies. *)
Definition ports_exclusive (w : World) : Prop :=
  NoDup (server_port <$> bound_servers w) ∧
  ∀ p, p ∈ (server_port <$> bound_servers w) →
       (p ∉ listening w) ∧ (p ∉ held w) ∧ 0 ≤ p ≤ 65535.

Definition consistent (w : World) : Prop := handle_bound w ∧ ports_exclusive w.

End ServerState.

(** ** The attachment walks over a list of nodes *)

Module WalkRef.
Import Mime.

(** A part [download_email_attachments] cannot describe: it has a file name
    but no 'body', or it has a file name and an attachment id but no
    'mimeType'. *)
Definition malformed (payload : Part) : bool :=
  truthy (filename payload) &&
  match body payload with
  | None => true
  | Some b => truthy (attachmentId b) && negb (bool_decide (is_Some (mimeType payload)))
  end.

(** One step of the walk of [download_email_attachments], and the walk over
    a list of nodes: once a part raised, nothing more is collected. *)
Definition collect (r : result (list Attachment)) (node : Part)
  : result (list Attachment) :=
  acc ← r; here ← describe_strict node; mret (acc ++ here).

Definition collect_all (nodes : list Part) (acc : list Attachment)
  : result (list Attachment) :=
  foldl collect (Return acc) nodes.

End WalkRef.

(** ** Vocabulary for the statements about the Tasks and Calendar tools *)

Module ToolRef.
Import Json Rest.

(** The keys [complete_task] and [update_task] ever put in an update body. *)
Definition sendable (k : string) : Prop :=
  k = "id" ∨ k = "title" ∨ k = "status" ∨ k = "notes" ∨ k = "due".

(** The keys [update_event] may assign in the fetched event. *)
Definition revisable (k : string) : Prop :=
  k = "summary" ∨ k = "start" ∨ k = "end" ∨ k = "description" ∨
  k = "location" ∨ k = "attendees".

(** An item of a listing that the formatters accept: an object with an
    'id'. *)
Definition identified (item : value) : Prop :=
  match item with
  | VDict d => is_Some (get "id" d)
  | _ => False
  end.

(** [x if x is not None else stored] *)
Definition given (x : option string) (stored : option value) : option value :=
  match x with
  | Some s => Some (VStr s)
  | None => stored
  end.

(** What the listings show for a start or an end: the time of a timed
    event, the date of an all-day one. *)
Definition shown (moment : dict) : value :=
  get_or "dateTime" (get_or "date" VNone moment) moment.

Definition is_object (v : value) : Prop :=
  match v with
  | VDict _ => True
  | _ => False
  end.

(** An event [list_events] can format: an object with an 'id', whose 'start'
    and 'end' are objects and whose 'attendees', when present, is a list of
    objects. *)
Definition scheduled (item : value) : Prop :=
  match item with
  | VDict d =>
      is_Some (get "id" d) ∧
      (∃ s, get "start" d = Some (VDict s)) ∧
      (∃ e, get "end" d = Some (VDict e)) ∧
      match get "attendees" d with
      | None => True
      | Some (VList guests) => Forall is_object guests
      | Some _ => False
      end
  | _ => False
  end.

(** What [list_events] keeps of one attendee. *)
Definition guest (attendee : value) : value :=
  match attendee with
  | VDict a => VDict [("email", get_or "email" VNone a);
                      ("responseStatus",
                       get_or "responseStatus" (VStr "needsAction") a)]
  | _ => attendee
  end.

(** A run that made no request beyond those of [s], left the world as [w1]
    and answered with a dict tagged "error" that carries a message. *)
Definition refusal (s : Session) (w1 : World) (r : result value * Session) : Prop :=
  ∃ answer, r = (Return answer, {| world := w1; calls := calls s |}) ∧
    dict_get "status" answer = Some (VStr "error") ∧
    ∃ text, dict_get "message" answer = Some (VStr text).

End ToolRef.

(** ** Vocabulary for the statements about the body text *)

Module TextRef.
Import Text.

(** No three newlines in a row in [s], when [n] newlines come just before
    it. *)
Fixpoint tidy (n : nat) (s : string) : bool :=
  match s with
  | "" => true
  | String c s' =>
      if Ascii.eqb c nl then (n <? 2)%nat && tidy (S n) s' else tidy 0 s'
  end.

Definition starts_nl (s : string) : bool :=
  match s with
  | String c _ => Ascii.eqb c nl
  | "" => false
  end.

End TextRef.

(** ** Sample services for the Tasks and Calendar tools *)

Module Desk.
Import Json Rest Scenario Samples Cases.

(** A process that has the token file [token_file], with the cached
    record, and has made no request yet. *)
Definition at_desk (token_file : string) : Session :=
  {| world := fresh {[token_file := TokenJson cached]} 1000 ∅ ∅; calls := [] |}.

(** No token file, and a user who refuses consent. *)
Definition refusing : Env :=
  service (Raise (Exception "invalid_grant")) (Raise (Exception "access_denied"))
          (Return None) (Raise (Exception "no message"))
          (λ _, Return None) (Return ()).

Definition stranger : Session := {| world := fresh ∅ 1000 ∅ ∅; calls := [] |}.

(** The token endpoint honours the refresh token. *)
Definition renewing : Env :=
  service (Return granted) (Raise (Exception "access_denied"))
          (Return None) (Raise (Exception "no message"))
          (λ _, Return None) (Return ()).

(** Every delete request finds the resource gone. *)
Definition gone : Env :=
  service (Raise (Exception "invalid_grant")) (Return granted)
          (Return None) (Raise (Exception "no message"))
          (λ _, Return None) (Raise (HttpError 410 "<HttpError 410 Gone>")).

(** A record without an access token, not yet expired at 1000. *)
Definition blank : Creds :=
  {| token := None; refresh_token := Some "1//r"; expiry := Some 5000 |}.

Definition groceries : dict :=
  [("kind", VStr "tasks#task"); ("id", VStr "t1"); ("title", VStr "Buy milk");
   ("status", VStr "needsAction"); ("notes", VStr "2 litres");
   ("position", VStr "00000000000000000001")].

(** An all-day event with one guest. *)
Definition offsite : dict :=
  [("kind", VStr "calendar#event"); ("id", VStr "e1"); ("summary", VStr "Offsite");
   ("start", VDict [("date", VStr "2024-05-01")]);
   ("end", VDict [("date", VStr "2024-05-02")]);
   ("attendees", VList [VDict [("email", VStr "a@example.com")]])].

(** A timed event in Berlin. *)
Definition standup : dict :=
  [("id", VStr "e2"); ("summary", VStr "Standup");
   ("start", VDict [("dateTime", VStr "2024-05-01T09:00:00");
                    ("timeZone", VStr "Europe/Berlin")]);
   ("end", VDict [("dateTime", VStr "2024-05-01T09:15:00");
                  ("timeZone", VStr "Europe/Berlin")])].

(** A service holding one task and one event: reads return them, writes
    return the body sent, inserts add an id. *)
Definition office : Api := λ l,
  match last l with
  | Some (TasksGet _ _) => Return groceries
  | Some (TasksUpdate _ _ body) => Return body
  | Some (TasksInsert _ body _) => Return (("id", VStr "t2") :: body)
  | Some (TasksList _ _ _ _) => Return [("items", VList [VDict groceries])]
  | Some (EventsGet _ _) => Return offsite
  | Some (EventsUpdate _ _ body _) => Return body
  | Some (EventsInsert _ body _) => Return (("id", VStr "e3") :: body)
  | Some (EventsList _ _ _ _ _) => Return [("items", VList [VDict offsite; VDict standup])]
  | _ => Raise (HttpError 400 "<HttpError 400 Bad Request>")
  end.

(** A service that knows no resource. *)
Definition nowhere : Api := λ _, Raise (HttpError 404 "<HttpError 404 Not Found>").

Definition wall_clock : Clock :=
  {| now_iso := "2024-05-01T08:00:00";
     later_iso := λ _, Return "2024-05-08T08:00:00";
     today := "2024-05-01" |}.

(** The downloads directory already holds a report. *)
Definition with_old_report : World :=
  fresh {["token.json" := TokenJson cached;
          "/srv/downloads" := Directory;
          "/srv/downloads/report.pdf" := Blob "old"]} 1000 ∅ ∅.

End Desk.

(** * Properties *)

(** ** The credential broker *)

Module CredentialProofs.
Import Credentials Reference.

Ltac run :=
  unfold _get_credentials, renew, authorize_and_persist, from_authorized_user_file,
    from_authorized_user_info, valid, expired, path_exists, write_file, remote, record, set_file, logged,
    try_except, raise, lift, get_world,
    mbind, M_bind, mret, M_ret, fmap, M_fmap; simpl.


(** A record stored with a refresh token and an expiry is loaded as it was
    stored. *)
Lemma loaded_as_stored c w :
  is_Some (refresh_token c) → is_Some (expiry c) →
  from_authorized_user_info c w = (Return c, w).
Proof.
  intros [r Hr] [e He]. destruct c as [tok rt ex]; simpl in *; subst.
  reflexivity.
Qed.

Lemma expired_false c w :
  unexpired c (now w) →
  from_authorized_user_info c w = (Return c, w) ∧
  bool_decide (is_Some (token c)) = true ∧
  match expiry c with
  | None => false
  | Some t => bool_decide (t - REFRESH_THRESHOLD ≤ now w)
  end = false.
Proof.
  intros (Htok & Hrt & e & He & Hlt).
  split; [apply loaded_as_stored; [done|by rewrite He]|].
  split; [by apply bool_decide_eq_true|].
  rewrite He. apply bool_decide_eq_false. lia.
Qed.


Lemma not_usable_when_due c w :
  refreshable c (now w) →
  match expiry c with
  | None => false
  | Some t => bool_decide (t - REFRESH_THRESHOLD ≤ now w)
  end = true.
Proof.
  intros [(e & -> & Hle) _]. by apply bool_decide_eq_true.
Qed.


End CredentialProofs.

(** ** The file server *)

Module FileServerProofs.
Import FileServer Scenario.

Ltac run :=
  unfold _start_file_server, _is_port_in_use, new_HTTPServer, set_globals,
    record, try_except, raise, lift, get_world,
    mbind, M_bind, mret, M_ret, fmap, M_fmap; simpl.

(** The probing loop does not change the world, and stops at the first
    candidate that does not accept a connection, or at [max_port]. *)
Lemma probe_stops w max_port (k : nat) : ∀ (fuel : nat) (port : Z),
  (k ≤ fuel)%nat →
  (∀ i : nat, (i < k)%nat → connects w (port + Z.of_nat i) = true) →
  port + Z.of_nat k ≤ max_port →
  connects w (port + Z.of_nat k) = false ∨ port + Z.of_nat k = max_port →
  probe fuel port max_port w = (Return (Some (port + Z.of_nat k)), w).
Proof.
  induction k as [|k IH]; intros fuel port Hfuel Hused Hle Hstop.
  - replace (port + Z.of_nat 0) with port in * by lia.
    destruct fuel; simpl; run;
      (destruct Hstop as [-> | ->]; [done|]);
      rewrite bool_decide_eq_false_2 by lia; by rewrite andb_false_r.
  - destruct fuel as [|fuel]; [lia|]. simpl. run.
    pose proof (Hused 0%nat ltac:(lia)) as H0.
    replace (port + Z.of_nat 0) with port in H0 by lia. rewrite H0.
    rewrite bool_decide_eq_true_2 by lia. simpl.
    replace (port + Z.of_nat (S k)) with (port + 1 + Z.of_nat k) in * by lia.
    apply IH; [lia| |lia|done].
    intros i Hi. replace (port + 1 + Z.of_nat i) with (port + Z.of_nat (S i)) by lia.
    apply Hused. lia.
Qed.

(** With fuel for the distance to [max_port] the loop always ends with a
    port, in an unchanged world. *)
Lemma probe_total w max_port : ∀ (fuel : nat) (port : Z),
  port ≤ max_port →
  (Z.to_nat (max_port - port) ≤ fuel)%nat →
  ∃ q, probe fuel port max_port w = (Return (Some q), w) ∧
       port ≤ q ≤ max_port ∧ (q < max_port → connects w q = false).
Proof.
  induction fuel as [|fuel IH]; intros port Hle Hfuel; simpl; run.
  - assert (port = max_port) as -> by lia.
    rewrite bool_decide_eq_false_2 by lia. rewrite andb_false_r.
    exists max_port. repeat split; lia.
  - destruct (connects w port) eqn:Hc; simpl.
    + case_bool_decide as Hlt; simpl.
      * destruct (IH (port + 1)) as (q & -> & Hq & Hfree); [lia|lia|].
        exists q. repeat split; [lia|lia|done].
      * exists port. repeat split; lia.
    + exists port. repeat split; try lia. done.
Qed.

Lemma start_when_free w download_path (k : nat) :
  reusable w download_path = false →
  (k < 10)%nat →
  (∀ i : nat, (i < k)%nat → connects w (FILE_SERVER_PORT w + Z.of_nat i) = true) →
  connects w (FILE_SERVER_PORT w + Z.of_nat k) = false →
  _start_file_server download_path w =
  try_except
    (s ← new_HTTPServer (FILE_SERVER_PORT w + Z.of_nat k) download_path;
     record (ServeForever (FILE_SERVER_PORT w + Z.of_nat k) download_path);;
     set_globals s download_path (FILE_SERVER_PORT w + Z.of_nat k);;
     mret {| server := Some s; port := FILE_SERVER_PORT w + Z.of_nat k |})
    (λ e, raise (Exception ("Could not start file server on port "
                            +:+ pretty (FILE_SERVER_PORT w + Z.of_nat k)
                            +:+ ": " +:+ str e))) w.
Proof.
  intros Hnew Hk Hused Hfree.
  unfold _start_file_server. unfold mbind at 1, M_bind at 1, get_world at 1.
  rewrite Hnew. unfold mbind at 1, M_bind at 1.
  rewrite (probe_stops w _ k) by (try lia; auto).
  rewrite bool_decide_eq_false_2 by lia. done.
Qed.

Lemma start_when_exhausted w download_path :
  reusable w download_path = false →
  (∀ i : nat, (i < 10)%nat → connects w (FILE_SERVER_PORT w + Z.of_nat i) = true) →
  _start_file_server download_path w =
  (Raise (Exception ("Could not find available port between "
                     +:+ pretty (FILE_SERVER_PORT w) +:+ " and "
                     +:+ pretty (FILE_SERVER_PORT w + 10))), w).
Proof.
  intros Hnew Hused.
  unfold _start_file_server. unfold mbind at 1, M_bind at 1, get_world at 1.
  rewrite Hnew. unfold mbind at 1, M_bind at 1.
  rewrite (probe_stops w _ 10) by (try lia; auto).
  rewrite bool_decide_eq_true_2 by lia. done.
Qed.

(** C4, as amended.  When [_start_file_server] has to start a server, the
    candidates are the ten ports from the current value of the global
    [FILE_SERVER_PORT] upwards, probed in increasing order by a connection
    attempt.  For the first candidate that refuses the connection: if the
    bind succeeds the result is that port, one new listener on it, and the
    global now holds it; if the bind fails an error is raised and the world is
    unchanged.  If all ten accept connections, an error is raised and the
    world is unchanged. *)
Theorem negotiation_from_current_base w download_path :
  reusable w download_path = false →
  (∀ k : nat, (k < 10)%nat →
     (∀ i : nat, (i < k)%nat →
        connects w (FILE_SERVER_PORT w + Z.of_nat i) = true) →
     connects w (FILE_SERVER_PORT w + Z.of_nat k) = false →
     let p := FILE_SERVER_PORT w + Z.of_nat k in
     let s := {| server_port := p; directory := download_path |} in
     (bindable w p = true →
      ∃ w', _start_file_server download_path w
            = (Return {| server := Some s; port := p |}, w') ∧
            bound_servers w' = bound_servers w ++ [s] ∧
            FILE_SERVER_PORT w' = p) ∧
     (bindable w p = false →
      ∃ e, _start_file_server download_path w = (Raise e, w))) ∧
  ((∀ i : nat, (i < 10)%nat →
      connects w (FILE_SERVER_PORT w + Z.of_nat i) = true) →
   ∃ e, _start_file_server download_path w = (Raise e, w)).
Proof.
  intros Hnew. split.
  - intros k Hk Hused Hfree p s.
    rewrite (start_when_free w download_path k) by done. fold p.
    split; intros Hbind; run; rewrite Hbind; eauto.
  - intros Hused. rewrite start_when_exhausted by done. eauto.
Qed.

(** C2, as amended.  With a live handle for [old_path]: a call for the same
    path returns the handle and its port and changes nothing; a call for
    another path negotiates again and either raises, leaving the world as it
    was, or binds one more listener for the new path on a port no listener
    of this process holds, keeps every earlier listener bound with its own
    directory, and makes the new listener the handle. *)
Theorem other_root_binds_second_listener w download_path old_path s :
  _file_server w = Some s →
  _file_server_thread w = Some true →
  _download_path w = Some old_path →
  (download_path = old_path →
   _start_file_server download_path w
   = (Return {| server := Some s; port := FILE_SERVER_PORT w |}, w)) ∧
  (download_path ≠ old_path →
   ∀ r w', _start_file_server download_path w = (r, w') →
     match r with
     | Return info =>
         let s' := {| server_port := port info; directory := download_path |} in
         server info = Some s' ∧
         (port info ∉ (server_port <$> bound_servers w)) ∧
         bound_servers w' = bound_servers w ++ [s'] ∧
         _file_server w' = Some s' ∧
         _download_path w' = Some download_path ∧
         FILE_SERVER_PORT w' = port info
     | Raise _ => w' = w
     end).
Proof.
  intros Hs Ht Hd. split.
  - intros ->. unfold _start_file_server, reusable.
    unfold mbind, M_bind, get_world. rewrite Hs, Ht, Hd.
    rewrite !bool_decide_eq_true_2 by eauto. done.
  - intros Hne r w'.
    assert (reusable w download_path = false) as Hnew.
    { unfold reusable. rewrite Hd.
      rewrite (bool_decide_eq_false_2 (Some old_path = Some download_path)) by congruence.
      by rewrite andb_false_r. }
    unfold _start_file_server. unfold mbind at 1, M_bind at 1, get_world at 1.
    rewrite Hnew. unfold mbind at 1, M_bind at 1.
    destruct (probe_total w (FILE_SERVER_PORT w + 10)
                (Z.to_nat (FILE_SERVER_PORT w + 10 - FILE_SERVER_PORT w))
                (FILE_SERVER_PORT w)) as (q & -> & Hq & _); [lia|lia|].
    case_bool_decide as Hmax; run; [by intros [= <- <-]|].
    destruct (bindable w q) eqn:Hbind; simpl; [|by intros [= <- <-]].
    intros [= <- <-]. simpl. repeat split; try done.
    unfold bindable in Hbind. rewrite !andb_true_iff in Hbind.
    destruct Hbind as [_ Hown]. apply negb_true_iff in Hown.
    by apply bool_decide_eq_false in Hown.
Qed.
End FileServerProofs.

(** ** The body walk *)

Module MimeProofs.
Import Mime MimeRef.

Lemma visit_all_app env l1 l2 acc :
  visit_all env (l1 ++ l2) acc = (acc' ← visit_all env l1 acc; visit_all env l2 acc').
Proof.
  revert acc. induction l1 as [|n l1 IH]; intros acc; simpl; [done|].
  unfold mbind, result_bind. destruct (visit env n acc); [apply IH|done].
Qed.

Lemma walk_is_fold env p : ∀ acc,
  extract_body_recursive env p acc = visit_all env (preorder p) acc.
Proof.
  induction p as [mt fn hs b ps IH] using Part_induction. intros acc.
  simpl. unfold mbind at 1 3, result_bind.
  destruct (visit env _ acc) as [acc'|e]; [|done].
  destruct ps as [l|]; [|done]. revert acc'.
  induction IH as [|x l Hx Hl IHl]; intros acc'; simpl; [done|].
  rewrite visit_all_app, Hx. unfold mbind, result_bind.
  destruct (visit_all env (preorder x) acc'); [apply IHl|done].
Qed.

Lemma captured_cons env mt n rest init :
  captured env mt (n :: rest) init =
  match (if bool_decide (mimeType n = Some mt) then body_data n else None) with
  | Some d =>
      match last (inline_bodies mt rest) with
      | Some d' => decode env d'
      | None => decode env d
      end
  | None => captured env mt rest init
  end.
Proof.
  unfold captured, inline_bodies. simpl.
  destruct (if bool_decide _ then _ else _) as [d|]; [|done].
  rewrite last_cons. by destruct (last _).
Qed.

Lemma captured_decoded env mt rest d s :
  decode env d = Return s →
  match last (inline_bodies mt rest) with
  | Some d' => decode env d'
  | None => decode env d
  end = captured env mt rest s.
Proof. intros Hd. unfold captured. by destruct (last _). Qed.

Ltac at_acc H :=
  match goal with
  | |- ∃ _ _, visit_all _ _ ?a = _ ∧ _ => exact (H a)
  end.

Lemma fold_keeps_last env nodes : ∀ acc,
  (∀ d, d ∈ inline_bodies "text/plain" nodes ++ inline_bodies "text/html" nodes →
        ∃ s, decode env d = Return s) →
  ∃ plain html,
    visit_all env nodes acc
    = Return {| email_body_plain := plain; email_body_html := html |} ∧
    captured env "text/plain" nodes (email_body_plain acc) = Return plain ∧
    captured env "text/html" nodes (email_body_html acc) = Return html.
Proof.
  induction nodes as [|n rest IH]; intros [pl ht] Hdec; simpl.
  { by exists pl, ht. }
  assert (∀ d, d ∈ inline_bodies "text/plain" rest ++ inline_bodies "text/html" rest →
               ∃ s, decode env d = Return s) as Hrest.
  { intros d Hd. apply Hdec. unfold inline_bodies in *. simpl.
    rewrite elem_of_app in *. destruct Hd as [Hd|Hd]; [left|right];
      destruct (if bool_decide _ then _ else _); set_solver. }
  pose (use := λ a, IH a Hrest).
  rewrite !captured_cons. unfold visit.
  destruct (mimeType n) as [mt|] eqn:Hmt; simpl.
  2: { at_acc use. }
  destruct (body_data n) as [d|] eqn:Hdata.
  2: { unfold mbind, result_bind; simpl.
       repeat case_bool_decide; at_acc use. }
  destruct (decide (mt = "text/plain")) as [->|Hnp].
  - destruct (Hdec d) as [s Hs].
    { apply elem_of_app. left. unfold inline_bodies. simpl. rewrite Hdata, Hmt.
      case_bool_decide; [apply list_elem_of_here|done]. }
    rewrite bool_decide_eq_true_2 by done.
    rewrite (bool_decide_eq_false_2 (Some "text/plain" = Some "text/html")) by done.
    unfold mbind at 1 2, result_bind. rewrite Hs. simpl.
    rewrite ?(captured_decoded _ _ _ _ _ Hs). at_acc use.
  - rewrite (bool_decide_eq_false_2 (mt = "text/plain")) by done.
    rewrite (bool_decide_eq_false_2 (Some mt = Some "text/plain")) by congruence.
    destruct (decide (mt = "text/html")) as [->|Hnh].
    + destruct (Hdec d) as [s Hs].
      { apply elem_of_app. right. unfold inline_bodies. simpl. rewrite Hdata, Hmt.
        case_bool_decide; [apply list_elem_of_here|done]. }
      rewrite !bool_decide_eq_true_2 by done.
      unfold mbind at 1 2, result_bind. rewrite Hs. simpl.
    rewrite ?(captured_decoded _ _ _ _ _ Hs). at_acc use.
    + rewrite (bool_decide_eq_false_2 (mt = "text/html")) by done.
      rewrite (bool_decide_eq_false_2 (Some mt = Some "text/html")) by congruence.
      unfold mbind, result_bind, mret, result_ret. at_acc use.
Qed.

(** C1, as amended.  When every inline text/plain and text/html body of the
    tree decodes, [extract_body_recursive] returns, for each kind, the decoded
    data of the last node of that kind in pre-order (the empty string when
    there is none): each such node overwrites what an earlier one left. *)
Theorem last_occurrence_of_each_kind_wins env payload :
  (∀ d, d ∈ inline_bodies "text/plain" (preorder payload)
            ++ inline_bodies "text/html" (preorder payload) →
        ∃ s, decode env d = Return s) →
  ∃ plain html,
    extract_body_recursive env payload
      {| email_body_plain := ""; email_body_html := "" |}
    = Return {| email_body_plain := plain; email_body_html := html |} ∧
    captured env "text/plain" (preorder payload) "" = Return plain ∧
    captured env "text/html" (preorder payload) "" = Return html.
Proof.
  intros Hdec. rewrite walk_is_fold.
  apply (fold_keeps_last env (preorder payload)
           {| email_body_plain := ""; email_body_html := "" |} Hdec).
Qed.
End MimeProofs.

(** ** The body shown to the caller *)

Module BodyProofs.
Import Text Mime MimeRef Credentials Gmail Scenario Samples.

Ltac run :=
  unfold get_email_details, latest_one, latest_body, remote, record,
    try_except, raise, lift, get_world, index,
    mbind, M_bind, result_bind, mret, M_ret, result_ret, fmap, M_fmap; simpl.

Lemma choose_body_html env html plain :
  html ≠ "" → choose_body env html plain = html_to_text env html.
Proof.
  intros Hne. unfold choose_body.
  destruct (String.eqb_spec html ""); [done|done].
Qed.

Lemma choose_body_plain env plain : choose_body env "" plain = plain.
Proof.
  unfold choose_body. simpl. by destruct (String.eqb_spec plain "") as [->|].
Qed.

(** What both readers do with the bodies they captured.  A non-empty
    captured HTML body decides the body text, whatever the plain body is: it
    is BeautifulSoup's text of the HTML with blank-line runs collapsed and
    the ends stripped.  The plain body is the body text when the captured
    HTML is empty.  [get_email_details] applies this to what the recursive
    walk captured over the whole tree, [get_latest_emails] to what its scan
    of the top-level parts captured; in both, the "body" entry is that text,
    or the placeholder when it is empty. *)
Lemma captured_html_takes_precedence env :
  (∀ html plain, html ≠ "" →
     choose_body env html plain
     = strip (sub_blank_lines 0 (get_text env html))) ∧
  (∀ plain, choose_body env "" plain = plain) ∧
  (∀ email_id w creds w1 msg payload bodies,
     _get_credentials env "token.json" w = (Return creds, w1) →
     message_reply env (log w1 ++ [MessagesGet email_id (Some "full")]) = Return msg →
     msg_payload msg = Some payload →
     extract_body_recursive env payload
       {| email_body_plain := ""; email_body_html := "" |} = Return bodies →
     ∃ details,
       (get_email_details env email_id w).1 = Return details ∧
       dict_get "body" details
       = Some (body_field (choose_body env (email_body_html bodies)
                                           (email_body_plain bodies)))) ∧
  (∀ msg_id w msg payload hs ps plain html,
     message_reply env (log w ++ [MessagesGet msg_id (Some "full")]) = Return msg →
     msg_payload msg = Some payload →
     headers payload = Some hs →
     parts payload = Some ps →
     scan_parts env ps None None = Return (plain, html) →
     ∃ email,
       (latest_one env msg_id w).1 = Return email ∧
       dict_get "body" email
       = Some (body_field (choose_body env (default "" html) (default "" plain)))).
Proof.
  split; [|split; [|split]].
  - intros html plain Hne. by apply choose_body_html.
  - apply choose_body_plain.
  - intros email_id w creds w1 msg payload bodies Hc Hm Hp Hb.
    unfold get_email_details. unfold mbind at 1, M_bind at 1. rewrite Hc.
    run. rewrite Hm. simpl. rewrite Hp. simpl. rewrite Hb. simpl.
    eexists. split; [reflexivity|]. reflexivity.
  - intros msg_id w msg payload hs ps plain html Hm Hp Hh Hps Hscan.
    run. rewrite Hm. simpl. rewrite Hp. simpl. rewrite Hh. simpl.
    rewrite Hps. rewrite Hscan. simpl.
    eexists. split; [reflexivity|]. reflexivity.
Qed.

(** The scan of [get_latest_emails] passes over every part that is not
    itself a text/plain or text/html part, without looking inside it. *)
Lemma scan_parts_skips_containers env ps plain html :
  Forall container ps → scan_parts env ps plain html = Return (plain, html).
Proof.
  induction 1 as [|part ps (mt & Hmt & Hplain & Hhtml) _ IH]; [done|].
  simpl. rewrite Hmt. simpl.
  rewrite (bool_decide_eq_false_2 _ Hplain), (bool_decide_eq_false_2 _ Hhtml).
  apply IH.
Qed.

(** C10.  [get_latest_emails] reads the bodies from the top-level parts
    only.  For a message whose top-level parts are all containers or
    attachments, the body it reports is the placeholder "No message body
    found.", whatever text/plain and text/html parts lie deeper in the tree:
    the HTML body of such a message is not used, and neither is the plain
    one. *)
Theorem latest_emails_miss_nested_bodies env n w creds w1 id msg payload hs ps :
  _get_credentials env "token.json" w = (Return creds, w1) →
  list_reply env (log w1 ++ [MessagesList (Some "INBOX") None (Some n)])
  = Return (Some [id]) →
  message_reply env (log w1 ++ [MessagesList (Some "INBOX") None (Some n);
                                MessagesGet id (Some "full")]) = Return msg →
  msg_payload msg = Some payload →
  headers payload = Some hs →
  parts payload = Some ps →
  Forall container ps →
  ∃ email w',
    get_latest_emails env n w
    = (Return (VDict [("count", VInt 1); ("emails", VList [email])]), w') ∧
    dict_get "id" email = Some (VStr id) ∧
    dict_get "body" email = Some (VStr "No message body found.").
Proof.
  intros Hc Hl Hm Hp Hh Hps Hall.
  unfold get_latest_emails. unfold mbind at 1, M_bind at 1. rewrite Hc.
  unfold remote at 1, record, lift, get_world.
  unfold mbind at 1 2 3, M_bind at 1 2 3, mret at 1 2, M_ret at 1 2. simpl.
  rewrite Hl. simpl. run. rewrite <- app_assoc. simpl. rewrite Hm. simpl.
  rewrite Hp. simpl. rewrite Hh. simpl. rewrite Hps.
  rewrite (scan_parts_skips_containers env ps None None Hall). simpl.
  eexists _, _. split; [reflexivity|]. split; reflexivity.
Qed.
End BodyProofs.

(** ** File names of downloaded attachments *)

Module NameProofs.
Import Text Fetcher.

(** *** Facts about [str] concatenation *)

Lemma app_cons (c : Ascii.ascii) (a b : string) :
  String c a +:+ b = String c (a +:+ b).
Proof. reflexivity. Qed.

Lemma app_nil (b : string) : "" +:+ b = b.
Proof. reflexivity. Qed.

Lemma length_app (a b : string) :
  String.length (a +:+ b) = (String.length a + String.length b)%nat.
Proof.
  induction a as [|c a IH]; [done|]. rewrite app_cons. simpl. by rewrite IH.
Qed.

Lemma app_inj_tail (a b t : string) : a +:+ t = b +:+ t → a = b.
Proof.
  revert b. induction a as [|c a IH]; intros [|d b] Heq;
    rewrite ?app_cons, ?app_nil in Heq.
  - done.
  - apply (f_equal String.length) in Heq. simpl in Heq.
    rewrite !length_app in Heq. simpl in Heq. lia.
  - apply (f_equal String.length) in Heq. simpl in Heq.
    rewrite !length_app in Heq. simpl in Heq. lia.
  - injection Heq as -> Heq. f_equal. by apply IH.
Qed.

Lemma take_drop (n : nat) (s : string) : take n s +:+ drop n s = s.
Proof.
  revert s. induction n as [|n IH]; intros [|c s]; simpl; try done.
  rewrite app_cons. f_equal. apply IH.
Qed.

(** [splitext] cuts the name in two: nothing is lost, the extension is the
    original's. *)
Lemma splitext_join (p : string) :
  (splitext p).1 +:+ (splitext p).2 = p.
Proof.
  unfold splitext. case_bool_decide; simpl.
  - destruct (all_dots _); simpl; [|apply take_drop].
    clear. induction p; [done|]. rewrite app_cons. by f_equal.
  - clear. induction p; [done|]. rewrite app_cons. by f_equal.
Qed.

Lemma numbered_eq (original : string) (counter : nat) :
  numbered original counter
  = (splitext original).1 +:+ "_" +:+ pretty counter +:+ (splitext original).2.
Proof. unfold numbered. by destruct (splitext original). Qed.

#[local] Instance numbered_inj original : Inj (=) (=) (numbered original).
Proof.
  intros k k' Heq. rewrite !numbered_eq in Heq.
  apply String.app_inj in Heq. rewrite !app_cons, !app_nil in Heq.
  injection Heq as Heq.
  apply app_inj_tail in Heq. by apply (inj pretty) in Heq.
Qed.

Lemma numbered_slash original k k' :
  startswith_slash (numbered original k) = startswith_slash (numbered original k').
Proof.
  rewrite !numbered_eq. destruct (splitext original).1; [done|].
  by rewrite !app_cons.
Qed.

#[local] Instance numbered_path_inj download_path original :
  Inj (=) (=) (λ k, join download_path (numbered original k)).
Proof.
  intros k k' Heq. unfold join in Heq.
  rewrite (numbered_slash original k' k) in Heq.
  destruct (startswith_slash (numbered original k)).
  - by apply (inj (numbered original)).
  - destruct (_ || _); apply String.app_inj in Heq.
    + by apply (inj (numbered original)).
    + apply String.app_inj in Heq. by apply (inj (numbered original)).
Qed.

(** *** The collision loop *)

Definition present (w : World) (path : string) : Prop := is_Some (files w !! path).

Ltac run :=
  unfold path_exists, get_world, mbind, M_bind, mret, M_ret; simpl.

(** What the loop has seen when it stops, or when the fuel is gone. *)
Lemma unique_name_sound w download_path original : ∀ fuel filename counter,
  ∃ r, unique_name fuel download_path original filename counter w = (Return r, w) ∧
    match r with
    | Some name =>
        (name = filename ∧ ¬ present w (join download_path filename)) ∨
        (present w (join download_path filename) ∧
         ∃ n, (counter ≤ n < counter + fuel)%nat ∧ name = numbered original n ∧
              ¬ present w (join download_path name) ∧
              ∀ k, (counter ≤ k < n)%nat →
                   present w (join download_path (numbered original k)))
    | None =>
        present w (join download_path filename) ∧
        ∀ k, (counter ≤ k < counter + fuel)%nat →
             present w (join download_path (numbered original k))
    end.
Proof.
  induction fuel as [|fuel IH]; intros filename counter; simpl; run.
  - case_bool_decide as Hex; simpl.
    + exists None. split; [done|]. split; [done|]. intros k ?. lia.
    + exists (Some filename). split; [done|]. by left.
  - case_bool_decide as Hex; simpl.
    + destruct (IH (numbered original counter) (S counter)) as (r & -> & Hr).
      exists r. split; [done|]. destruct r as [name|].
      * right. split; [done|]. destruct Hr as [[-> Hfree]|[Hfirst (n & Hn & -> & Hfree & Hbelow)]].
        -- exists counter. repeat split; try done; try lia.
        -- exists n. repeat split; try done; try lia.
           intros k Hk. destruct (decide (k = counter)) as [->|]; [done|].
           apply Hbelow. lia.
      * destruct Hr as [Hfirst Hall]. split; [done|].
        intros k Hk. destruct (decide (k = counter)) as [->|]; [done|].
        apply Hall. lia.
    + exists (Some filename). split; [done|]. by left.
Qed.

(** A directory with [n] entries cannot hold [n + 1] numbered names. *)
Lemma numbered_names_run_out w download_path original counter :
  ¬ ∀ k, (counter ≤ k < counter + S (size (files w)))%nat →
         present w (join download_path (numbered original k)).
Proof.
  intros Hall.
  pose (names := (λ k, join download_path (numbered original k))
                   <$> seq counter (S (size (files w)))).
  assert (NoDup names) as Hnd.
  { apply (NoDup_fmap_2 _), NoDup_seq. }
  assert (names ⊆+ elements (dom (files w))) as Hsub.
  { apply NoDup_submseteq; [done|]. intros x Hx.
    apply list_elem_of_fmap in Hx as (k & -> & Hk).
    apply elem_of_seq in Hk. apply elem_of_elements, elem_of_dom.
    apply Hall. lia. }
  apply submseteq_length in Hsub.
  unfold names in Hsub. rewrite length_fmap, length_seq in Hsub.
  change (length (elements (dom (files w)))) with (size (dom (files w))) in Hsub.
  rewrite size_dom in Hsub. lia.
Qed.
End NameProofs.

(** ** The download loop *)

Module FetchProofs.
Import Text Mime Fetcher NameProofs Reference Outcomes.

Ltac run :=
  unfold download_one, write_file, set_file, remote, record, logged,
    try_except, raise, lift, get_world, index,
    mbind, M_bind, mret, M_ret, fmap, M_fmap; simpl.

Lemma bind_return {A B} (m : M A) (k : A → M B) w a w' :
  m w = (Return a, w') → (m ≫= k) w = k a w'.
Proof. intros H. unfold mbind, M_bind. by rewrite H. Qed.

Lemma remote_run {A} (e : event) (reply : list event → result A) w a :
  reply (log w ++ [e]) = Return a →
  remote e reply w = (Return a, logged e w).
Proof. intros H. unfold remote. run. by rewrite H. Qed.

Lemma unique_name_total w download_path original filename :
  ∃ name, unique_name (S (size (files w))) download_path original filename 1 w
          = (Return (Some name), w) ∧
    ((name = filename ∧ ¬ present w (join download_path filename)) ∨
     (present w (join download_path filename) ∧
      ∃ n, (1 ≤ n)%nat ∧ name = numbered original n ∧
           ¬ present w (join download_path name) ∧
           ∀ k, (1 ≤ k < n)%nat →
                present w (join download_path (numbered original k)))).
Proof.
  destruct (unique_name_sound w download_path original
              (S (size (files w))) filename 1%nat) as ([name|] & Hrun & Hr).
  - exists name. split; [done|].
    destruct Hr as [?|[? (n & ? & ? & ? & ?)]]; [by left|right].
    split; [done|]. exists n. repeat split; try done. lia.
  - destruct Hr as [_ Hall].
    by destruct (numbered_names_run_out w download_path original 1%nat).
Qed.

(** C7.  When a file of the attachment's name exists in the download
    directory, the loop ends with the name [stem_n.ext], where [stem] and
    [ext] are [os.path.splitext] of the original name (so [stem ++ ext] is the
    original and the extension is untouched), [n >= 1], the names numbered
    1 .. n-1 all exist and number n does not.  If the attachment's bytes
    arrive and the write is allowed, [download_one] writes them under that
    name in the download directory and builds the link from the same name. *)
Theorem collision_appends_counter_before_extension w download_path filename :
  present w (join download_path filename) →
  ∃ n : nat, (1 ≤ n)%nat ∧
    unique_name (S (size (files w))) download_path filename filename 1 w
    = (Return (Some (numbered filename n)), w) ∧
    numbered filename n
    = (splitext filename).1 +:+ "_" +:+ pretty n +:+ (splitext filename).2 ∧
    (splitext filename).1 +:+ (splitext filename).2 = filename ∧
    (∀ k, (1 ≤ k < n)%nat →
          present w (join download_path (numbered filename k))) ∧
    ¬ present w (join download_path (numbered filename n)) ∧
    ∀ env email_id server_port attachment d file_data,
      a_filename attachment = filename →
      attachment_reply env
        (log w ++ [AttachmentsGet email_id (attachment_id attachment)])
      = Return (Some d) →
      b64decode env d = Return file_data →
      write_denied env (join download_path (numbered filename n)) = false →
      ∃ w', download_one env email_id download_path server_port attachment w
            = (Return {| d_filename := numbered filename n;
                         original_filename := filename;
                         download_link := "http://localhost:" +:+ pretty server_port
                                          +:+ "/" +:+ quote (numbered filename n);
                         file_size := Z.of_nat (String.length file_data);
                         d_mime_type := mime_type attachment |}, w') ∧
            files w' = <[join download_path (numbered filename n) := Blob file_data]> (files w).
Proof.
  intros Hcollides.
  destruct (unique_name_total w download_path filename filename)
    as (name & Hrun & [[_ Hfree]|[_ (n & Hn & -> & Hfree & Hbelow)]]); [done|].
  exists n. repeat split; try done.
  - apply numbered_eq.
  - apply splitext_join.
  - intros env email_id server_port attachment d file_data Hname Hreply Hdec Hw.
    set (w1 := logged (AttachmentsGet email_id (attachment_id attachment)) w).
    destruct (unique_name_total w1 download_path filename filename)
      as (name & Hrun1 & [[_ Hfree1]|[_ (m & Hm & -> & Hfree1 & Hbelow1)]]); [done|].
    assert (m = n) as ->.
    { destruct (Nat.lt_trichotomy m n) as [Hlt|[->|Hgt]]; [|done|].
      - destruct Hfree1. apply Hbelow. lia.
      - destruct Hfree. apply (Hbelow1 n). lia. }
    assert (files w1 !! join download_path (numbered filename n) = None) as Hnone.
    { apply eq_None_not_Some. apply Hfree. }
    unfold download_one.
    erewrite bind_return; [|by apply remote_run].
    erewrite bind_return; [|reflexivity].
    erewrite bind_return; [|unfold lift; by rewrite Hdec].
    erewrite bind_return; [|reflexivity].
    rewrite Hname. fold w1.
    erewrite bind_return; [|exact Hrun1]. cbv beta iota.
    erewrite bind_return; [|unfold write_file; erewrite bind_return; [|reflexivity];
                            rewrite Hw, Hnone; reflexivity].
    eexists. split; reflexivity.
Qed.

Lemma download_one_keeps_name env email_id download_path server_port attachment w d w' :
  download_one env email_id download_path server_port attachment w = (Return d, w') →
  original_filename d = a_filename attachment.
Proof.
  unfold download_one. unfold mbind, M_bind.
  destruct (remote _ _ w) as [[?|?] ?]; [|done].
  destruct (lift _ _) as [[?|?] ?]; [|done].
  destruct (lift _ _) as [[?|?] ?]; [|done].
  unfold get_world.
  destruct (unique_name _ _ _ _ _ _) as [[[name|]|?] ?]; [|done|done].
  destruct (write_file _ _ _ _) as [[?|?] ?]; [|done].
  unfold mret, M_ret. by intros [= <- <-].
Qed.

Lemma succeeded_inl d os : succeeded (inl d :: os) = d :: succeeded os.
Proof. reflexivity. Qed.
Lemma succeeded_inr f os : succeeded (inr f :: os) = succeeded os.
Proof. reflexivity. Qed.
Lemma failures_inl d os : failures (inl d :: os) = failures os.
Proof. reflexivity. Qed.
Lemma failures_inr f os : failures (inr f :: os) = f :: failures os.
Proof. reflexivity. Qed.

(** C8.  The download loop never raises and never stops early: for any list
    of attachments it tries every attachment once, in order, each after the
    ones before it, whatever those did; it returns both lists, extended by
    the outcome of each attempt (what [download_one] returned, or the
    attachment's name with the text of what it raised), successes and
    failures each keeping the attachments' order.  In particular, when of three attachments the first and third
    download and the second raises, the result is the two downloads and the
    one failure, carrying the second attachment's name and the error text. *)
Theorem every_attachment_gets_its_own_outcome env email_id download_path server_port :
  (∀ attachments downloaded_files failed_downloads w,
     ∃ outcomes w',
       attempts env email_id download_path server_port attachments w outcomes w' ∧
       download_each env email_id download_path server_port attachments
                     downloaded_files failed_downloads w
       = (Return (downloaded_files ++ succeeded outcomes,
                  failed_downloads ++ failures outcomes), w') ∧
       outcome_name <$> outcomes = a_filename <$> attachments ∧
       (length (succeeded outcomes) + length (failures outcomes)
        = length attachments)%nat) ∧
  (∀ a1 a2 a3 w d1 w1 e w2 d3 w3,
     download_one env email_id download_path server_port a1 w = (Return d1, w1) →
     download_one env email_id download_path server_port a2 w1 = (Raise e, w2) →
     download_one env email_id download_path server_port a3 w2 = (Return d3, w3) →
     download_each env email_id download_path server_port [a1; a2; a3] [] [] w
     = (Return ([d1; d3], [{| f_filename := a_filename a2; error := str e |}]), w3)).
Proof.
  split.
  - induction attachments as [|a rest IH]; intros ds fs w; simpl.
    { exists [], w. split; [constructor|]. by rewrite !app_nil_r. }
    unfold mbind at 1, M_bind at 1, try_except, fmap, M_fmap.
    destruct (download_one env email_id download_path server_port a w)
      as [[d|e] w1] eqn:Hone; simpl.
    + destruct (IH (ds ++ [d]) fs w1) as (os & w' & Htried & -> & Hnames & Hlen).
      exists (inl d :: os), w'.
      split; [by eapply attempts_downloaded|].
      split; [by simpl; rewrite <- app_assoc|].
      split; [|rewrite ?succeeded_inl, ?succeeded_inr, ?failures_inl, ?failures_inr, ?length_cons; lia].
      rewrite !fmap_cons, Hnames. simpl.
      by rewrite (download_one_keeps_name _ _ _ _ _ _ _ _ Hone).
    + destruct (IH ds (fs ++ [{| f_filename := a_filename a; error := str e |}]) w1)
        as (os & w' & Htried & -> & Hnames & Hlen).
      exists (inr {| f_filename := a_filename a; error := str e |} :: os), w'.
      split; [by eapply attempts_failed|].
      split; [by simpl; rewrite <- app_assoc|].
      split; [|rewrite ?succeeded_inl, ?succeeded_inr, ?failures_inl, ?failures_inr, ?length_cons; lia].
      by rewrite !fmap_cons, Hnames.
  - intros a1 a2 a3 w d1 w1 e w2 d3 w3 H1 H2 H3. simpl.
    unfold mbind, M_bind, try_except, fmap, M_fmap, mret, M_ret.
    rewrite H1. simpl. rewrite H2. simpl. by rewrite H3.
Qed.
End FetchProofs.

(** ** The tool boundary *)

Module ToolProofs.
Import Credentials Gmail Scenario Samples Cases.

(** C3.  [get_latest_emails] has no handler: once the credentials are there,
    an exception raised by the listing call leaves the tool as it is, instead
    of coming back as an error result. *)
Theorem latest_emails_lets_a_failed_listing_through env n w creds w1 e :
  _get_credentials env "token.json" w = (Return creds, w1) →
  list_reply env (log w1 ++ [MessagesList (Some "INBOX") None (Some n)]) = Raise e →
  (get_latest_emails env n w).1 = Raise e.
Proof.
  intros Hc Hl. unfold get_latest_emails.
  unfold mbind at 1, M_bind at 1. rewrite Hc.
  unfold remote, record, lift, get_world, mbind, M_bind, mret, M_ret. simpl.
  by rewrite Hl.
Qed.

Lemma latest_emails_lets_a_failed_listing_through_witness :
  (get_latest_emails gmail_down 1 (signed_in ∅)).1
  = Raise (HttpError 500 "<HttpError 500 Backend Error>").
Proof.
  apply (latest_emails_lets_a_failed_listing_through gmail_down 1 (signed_in ∅)
           cached (signed_in ∅)); vm_compute; reflexivity.
Defined.

(** The sibling tool: whatever the credential helper or the remote call
    raises, [delete_event] returns a dict; when something was raised the dict
    is tagged "error", has a message and echoes the event id. *)
Lemma delete_event_always_answers env event_id calendar_id w :
  ∃ answer w', Calendar.delete_event env event_id calendar_id w = (Return answer, w') ∧
    dict_get "event_id" answer = Some (VStr event_id) ∧
    (dict_get "status" answer = Some (VStr "success") ∨
     (dict_get "status" answer = Some (VStr "error") ∧
      ∃ text, dict_get "message" answer = Some (VStr text))).
Proof.
  assert (∀ e w', ∃ answer,
            (match e with
             | HttpError status _ =>
                 if bool_decide (status = 404) then
                   mret (VDict [("status", VStr "error");
                                ("message", VStr "Event not found");
                                ("details", VStr ("No event with ID '" +:+ event_id
                                                  +:+ "' exists in the calendar"));
                                ("event_id", VStr event_id)])
                 else if bool_decide (status = 410) then
                   mret (VDict [("status", VStr "error");
                                ("message", VStr "Event already deleted");
                                ("details", VStr ("Event with ID '" +:+ event_id
                                                  +:+ "' was already deleted"));
                                ("event_id", VStr event_id)])
                 else
                   mret (VDict [("status", VStr "error");
                                ("message", VStr "Failed to delete event");
                                ("details", VStr (str e));
                                ("event_id", VStr event_id)])
             | Exception _ =>
                 mret (VDict [("status", VStr "error");
                              ("message", VStr "An unexpected error occurred");
                              ("details", VStr (str e));
                              ("event_id", VStr event_id)])
             end : M value) w' = (Return answer, w') ∧
            dict_get "event_id" answer = Some (VStr event_id) ∧
            dict_get "status" answer = Some (VStr "error") ∧
            ∃ text, dict_get "message" answer = Some (VStr text)) as Hhandler.
  { intros [status text|text] w'; unfold mret, M_ret.
    - repeat case_bool_decide; eexists; repeat split; eexists; reflexivity.
    - eexists; repeat split; eexists; reflexivity. }
  unfold Calendar.delete_event, try_except, mbind, M_bind.
  destruct (_get_credentials _ _ w) as [[creds|e] w1].
  - destruct (remote _ _ w1) as [[[]|e] w2].
    + eexists _, _. split; [reflexivity|]. split; [done|]. by left.
    + destruct (Hhandler e w2) as (answer & -> & ? & ? & ?). eauto 10.
  - destruct (Hhandler e w1) as (answer & -> & ? & ? & ?). eauto 10.
Qed.
End ToolProofs.

(** ** The statements at concrete inputs *)

Module Examples.
Import Text Mime MimeRef Credentials FileServer Gmail Fetcher Reference Outcomes.
Import Scenario Samples Cases.

(** *** Credentials *)




(** *** File server *)

Lemma second_root_gets_its_own_listener :
  ∃ first w1 second w2,
    _start_file_server "/srv/a" (fresh ∅ 0 ∅ ∅) = (Return first, w1) ∧
    _start_file_server "/srv/b" w1 = (Return second, w2) ∧
    port first = 8000 ∧ port second = 8001 ∧
    bound_servers w2 = [{| server_port := 8000; directory := "/srv/a" |};
                        {| server_port := 8001; directory := "/srv/b" |}].
Proof.
  eexists _, _, _, _. split; [vm_compute; reflexivity|].
  split; [vm_compute; reflexivity|]. repeat split.
Qed.

Lemma other_root_binds_second_listener_witness :
  _start_file_server "/srv/b" serving_a
  = (Return {| server := Some {| server_port := 8001; directory := "/srv/b" |};
               port := 8001 |},
     (_start_file_server "/srv/b" serving_a).2) ∧
  bound_servers (_start_file_server "/srv/b" serving_a).2
  = bound_servers serving_a ++ [{| server_port := 8001; directory := "/srv/b" |}].
Proof.
  assert (_start_file_server "/srv/b" serving_a
          = (Return {| server := Some {| server_port := 8001; directory := "/srv/b" |};
                       port := 8001 |},
             (_start_file_server "/srv/b" serving_a).2)) as Hrun.
  { vm_compute. reflexivity. }
  split; [exact Hrun|].
  destruct (FileServerProofs.other_root_binds_second_listener serving_a "/srv/b" "/srv/a"
              {| server_port := 8000; directory := "/srv/a" |}
              eq_refl eq_refl eq_refl) as [_ Hother].
  pose proof (Hother ltac:(done) _ _ Hrun) as (_ & _ & Hbound & _).
  exact Hbound.
Defined.

Lemma base_port_follows_the_last_bind :
  ∃ first w1 second w2,
    _start_file_server "/srv/a"
      (fresh ∅ 0 {[8000; 8002; 8003; 8004; 8005; 8006; 8007; 8008; 8009]} ∅)
    = (Return first, w1) ∧
    port first = 8001 ∧
    (∀ i : nat, (i < 10)%nat → connects w1 (8000 + Z.of_nat i) = true) ∧
    _start_file_server "/srv/b" w1 = (Return second, w2) ∧
    port second = 8010 ∧
    bound_servers w2 = [{| server_port := 8001; directory := "/srv/a" |};
                        {| server_port := 8010; directory := "/srv/b" |}].
Proof.
  eexists _, _, _, _. split; [vm_compute; reflexivity|].
  split; [reflexivity|]. split.
  { intros i Hi. do 10 (destruct i as [|i]; [vm_compute; reflexivity|]). lia. }
  split; [vm_compute; reflexivity|]. split; reflexivity.
Qed.

Lemma negotiation_from_current_base_witness :
  ∃ w', _start_file_server "/srv/downloads" (fresh ∅ 0 {[8000; 8001; 8002]} ∅)
        = (Return {| server := Some {| server_port := 8003;
                                       directory := "/srv/downloads" |};
                     port := 8003 |}, w') ∧
        bound_servers w' = [{| server_port := 8003; directory := "/srv/downloads" |}] ∧
        FILE_SERVER_PORT w' = 8003.
Proof.
  destruct (FileServerProofs.negotiation_from_current_base
              (fresh ∅ 0 {[8000; 8001; 8002]} ∅) "/srv/downloads" eq_refl)
    as [Hfree _].
  destruct (Hfree 3%nat) as [Hbind _].
  - lia.
  - intros i Hi. do 3 (destruct i as [|i]; [vm_compute; reflexivity|]). lia.
  - vm_compute. reflexivity.
  - apply Hbind. vm_compute. reflexivity.
Defined.

(** *** Message bodies *)

Lemma later_plain_part_overwrites_the_first :
  head (inline_bodies "text/plain" (preorder two_plain)) = Some "Zmlyc3Q=" ∧
  decode (mailbox two_plain) "Zmlyc3Q=" = Return "first" ∧
  extract_body_recursive (mailbox two_plain) two_plain
    {| email_body_plain := ""; email_body_html := "" |}
  = Return {| email_body_plain := "second"; email_body_html := "<p>hi</p>" |}.
Proof. repeat split; vm_compute; reflexivity. Qed.

Lemma single_parts_of_each_kind_are_both_kept :
  extract_body_recursive (mailbox deep_html) deep_html
    {| email_body_plain := ""; email_body_html := "" |}
  = Return {| email_body_plain := "plain text"; email_body_html := "<b>bold</b>" |}.
Proof. vm_compute. reflexivity. Qed.

Lemma last_occurrence_of_each_kind_wins_witness :
  ∃ plain html,
    extract_body_recursive (mailbox two_plain) two_plain
      {| email_body_plain := ""; email_body_html := "" |}
    = Return {| email_body_plain := plain; email_body_html := html |} ∧
    captured (mailbox two_plain) "text/plain" (preorder two_plain) "" = Return plain ∧
    captured (mailbox two_plain) "text/html" (preorder two_plain) "" = Return html.
Proof.
  apply (MimeProofs.last_occurrence_of_each_kind_wins (mailbox two_plain) two_plain).
  intros d Hd.
  change (d ∈ ["Zmlyc3Q="; "c2Vjb25k"; "PHA-aGk8L3A-"]) in Hd.
  repeat (apply elem_of_cons in Hd as [->|Hd]; [eexists; vm_compute; reflexivity|]).
  by apply elem_of_nil in Hd.
Defined.

Lemma both_bodies_lie_one_level_down :
  inline_bodies "text/plain" (preorder with_attachment) = ["cGxhaW4gdGV4dA=="] ∧
  inline_bodies "text/html" (preorder with_attachment) = ["PGI-Ym9sZDwvYj4="] ∧
  decode (mailbox with_attachment) "PGI-Ym9sZDwvYj4=" = Return "<b>bold</b>" ∧
  (get_latest_emails (mailbox with_attachment) 1 (signed_in ∅)).1
  = Return (VDict
      [("count", VInt 1);
       ("emails",
        VList [VDict [("id", VStr "m1"); ("date", VStr "(Unknown Date)");
                      ("from", VStr "a@example.com");
                      ("to", VStr "(Unknown Recipient)");
                      ("subject", VStr "report");
                      ("body", VStr "No message body found.")]])]).
Proof. repeat split; vm_compute; reflexivity. Qed.

Lemma latest_emails_miss_nested_bodies_witness :
  ∃ email w',
    get_latest_emails (mailbox with_attachment) 1 (signed_in ∅)
    = (Return (VDict [("count", VInt 1); ("emails", VList [email])]), w') ∧
    dict_get "id" email = Some (VStr "m1") ∧
    dict_get "body" email = Some (VStr "No message body found.").
Proof.
  apply (BodyProofs.latest_emails_miss_nested_bodies (mailbox with_attachment) 1
           (signed_in ∅) cached (signed_in ∅) "m1" (message with_attachment)
           with_attachment [("Subject", "report"); ("From", "a@example.com")]
           [multipart "multipart/alternative" None
              [leaf "text/plain" "cGxhaW4gdGV4dA=="; leaf "text/html" "PGI-Ym9sZDwvYj4="];
            attached "report.pdf" "att-1"]).
  - vm_compute. reflexivity.
  - reflexivity.
  - reflexivity.
  - reflexivity.
  - reflexivity.
  - reflexivity.
  - apply List.Forall_cons; [by eexists|].
    apply List.Forall_cons; [by eexists|apply List.Forall_nil].
Defined.

(** The sibling tool on the same message: the nested HTML body is shown. *)
Lemma captured_html_takes_precedence_witness :
  ∃ details,
    (get_email_details (mailbox with_attachment) "m1" (signed_in ∅)).1 = Return details ∧
    dict_get "body" details = Some (VStr "bold").
Proof.
  destruct (BodyProofs.captured_html_takes_precedence (mailbox with_attachment))
    as (_ & _ & Hdetails & _).
  destruct (Hdetails "m1" (signed_in ∅) cached (signed_in ∅)
              (message with_attachment) with_attachment
              {| email_body_plain := "plain text"; email_body_html := "<b>bold</b>" |})
    as (details & Hrun & Hbody); try (vm_compute; reflexivity).
  exists details. split; [exact Hrun|]. rewrite Hbody. vm_compute. reflexivity.
Defined.

(** *** Downloads *)

Lemma collision_appends_counter_before_extension_witness :
  ∃ n : nat,
    (1 ≤ n)%nat ∧
    numbered "report.pdf" n = "report_1.pdf" ∧
    unique_name 3 "/srv/downloads" "report.pdf" "report.pdf" 1
      (signed_in {["/srv/downloads/report.pdf" := Blob "x"]})
    = (Return (Some (numbered "report.pdf" n)),
       signed_in {["/srv/downloads/report.pdf" := Blob "x"]}).
Proof.
  destruct (FetchProofs.collision_appends_counter_before_extension
              (signed_in {["/srv/downloads/report.pdf" := Blob "x"]})
              "/srv/downloads" "report.pdf")
    as (n & Hn & Hrun & _).
  { eexists. vm_compute. reflexivity. }
  exists n. split; [exact Hn|]. split; [|exact Hrun].
  assert (unique_name 3 "/srv/downloads" "report.pdf" "report.pdf" 1
            (signed_in {["/srv/downloads/report.pdf" := Blob "x"]})
          = (Return (Some "report_1.pdf"),
             signed_in {["/srv/downloads/report.pdf" := Blob "x"]})) as Hcomputed.
  { vm_compute. reflexivity. }
  change (S (size (files (signed_in {["/srv/downloads/report.pdf" := Blob "x"]}))))
    with 3%nat in Hrun.
  rewrite Hrun in Hcomputed. congruence.
Defined.

Lemma names_count_up_across_downloads :
  ∃ w1 w2,
    (download_email_attachments pdf_store "m1"
       (signed_in {["/srv/downloads/report.pdf" := Blob "x"]})).2 = w1 ∧
    (download_email_attachments pdf_store "m1" w1).2 = w2 ∧
    is_Some (files w1 !! "/srv/downloads/report_1.pdf") ∧
    files w1 !! "/srv/downloads/report_2.pdf" = None ∧
    is_Some (files w2 !! "/srv/downloads/report_2.pdf").
Proof.
  eexists _, _. split; [reflexivity|]. split; [reflexivity|].
  repeat split; try eexists; vm_compute; reflexivity.
Qed.

Lemma every_attachment_gets_its_own_outcome_witness :
  (download_each flaky_store "m1" "/srv/downloads" 8000
     [{| attachment_id := "att-1"; a_filename := "a.txt";
         mime_type := "application/pdf"; a_size := 3 |};
      {| attachment_id := "att-2"; a_filename := "b.txt";
         mime_type := "application/pdf"; a_size := 3 |};
      {| attachment_id := "att-3"; a_filename := "c.txt";
         mime_type := "application/pdf"; a_size := 3 |}] [] []
     (signed_in ∅)).1
  = Return
      ([{| d_filename := "a.txt"; original_filename := "a.txt";
           download_link := "http://localhost:8000/a.txt"; file_size := 5;
           d_mime_type := "application/pdf" |};
        {| d_filename := "c.txt"; original_filename := "c.txt";
           download_link := "http://localhost:8000/c.txt"; file_size := 5;
           d_mime_type := "application/pdf" |}],
       [{| f_filename := "b.txt"; error := "<HttpError 404 Not Found>" |}]).
Proof.
  set (a1 := {| attachment_id := "att-1"; a_filename := "a.txt";
                mime_type := "application/pdf"; a_size := 3 |}).
  set (a2 := {| attachment_id := "att-2"; a_filename := "b.txt";
                mime_type := "application/pdf"; a_size := 3 |}).
  set (a3 := {| attachment_id := "att-3"; a_filename := "c.txt";
                mime_type := "application/pdf"; a_size := 3 |}).
  set (one := download_one flaky_store "m1" "/srv/downloads" 8000).
  set (w1 := (one a1 (signed_in ∅)).2).
  set (w2 := (one a2 w1).2).
  set (w3 := (one a3 w2).2).
  rewrite (proj2 (FetchProofs.every_attachment_gets_its_own_outcome
                    flaky_store "m1" "/srv/downloads" 8000)
             a1 a2 a3 (signed_in ∅)
             {| d_filename := "a.txt"; original_filename := "a.txt";
                download_link := "http://localhost:8000/a.txt"; file_size := 5;
                d_mime_type := "application/pdf" |} w1
             (HttpError 404 "<HttpError 404 Not Found>") w2
             {| d_filename := "c.txt"; original_filename := "c.txt";
                download_link := "http://localhost:8000/c.txt"; file_size := 5;
                d_mime_type := "application/pdf" |} w3);
    [reflexivity| | |]; vm_compute; reflexivity.
Defined.
End Examples.


(** * Further properties *)

(** ** The file server across calls *)

Module ServerInvariants.
Import FileServer FileServerProofs.

Ltac run :=
  unfold _start_file_server, _is_port_in_use, new_HTTPServer, set_globals,
    record, try_except, raise, lift, get_world,
    mbind, M_bind, mret, M_ret, fmap, M_fmap; simpl.

(** The shapes a call can end in: the handle reused, a new listener on a
    bindable candidate, or an error in an unchanged world. *)
Lemma start_cases w download_path :
  (reusable w download_path = true ∧
   _start_file_server download_path w
   = (Return {| server := _file_server w; port := FILE_SERVER_PORT w |}, w)) ∨
  (reusable w download_path = false ∧
   ∃ e, _start_file_server download_path w = (Raise e, w)) ∨
  (reusable w download_path = false ∧
   ∃ q, bindable w q = true ∧
     let s := {| server_port := q; directory := download_path |} in
     _start_file_server download_path w
     = (Return {| server := Some s; port := q |},
        {| files := files w; now := now w;
           log := log w ++ [ServeForever q download_path];
           listening := listening w; held := held w;
           bound_servers := bound_servers w ++ [s];
           _file_server := Some s; _file_server_thread := Some true;
           _download_path := Some download_path; FILE_SERVER_PORT := q |})).
Proof.
  destruct (reusable w download_path) eqn:Hre.
  - left. split; [done|]. unfold _start_file_server.
    unfold mbind, M_bind, get_world. by rewrite Hre.
  - right.
    destruct (probe_total w (FILE_SERVER_PORT w + 10)
                (Z.to_nat (FILE_SERVER_PORT w + 10 - FILE_SERVER_PORT w))
                (FILE_SERVER_PORT w)) as (q & Hprobe & Hq & _); [lia|lia|].
    destruct (_start_file_server download_path w) as [r w'] eqn:Hrun.
    revert Hrun. unfold _start_file_server.
    unfold mbind at 1, M_bind at 1, get_world at 1. rewrite Hre.
    unfold mbind at 1, M_bind at 1. rewrite Hprobe.
    case_bool_decide as Hmax; run.
    { intros [= <- <-]. left. split; [done|]. eauto. }
    destruct (bindable w q) eqn:Hbind; simpl; intros [= <- <-].
    + right. split; [done|]. exists q. by split.
    + left. split; [done|]. eauto.
Qed.

Import ServerState.

Lemma bindable_fresh w q :
  bindable w q = true →
  0 ≤ q ≤ 65535 ∧ (q ∉ listening w) ∧ (q ∉ held w) ∧
  (q ∉ (server_port <$> bound_servers w)).
Proof.
  unfold bindable. rewrite !andb_true_iff, !negb_true_iff.
  intros [[[H1 H2] H3] H4].
  apply bool_decide_eq_true in H1. apply bool_decide_eq_false in H2, H3, H4.
  done.
Qed.

(** X1.  Every call leaves the globals consistent with the listeners, and
    whatever it returns names a listener of this process that serves the
    requested path on the returned port. *)
Theorem start_keeps_server_state w download_path r w' :
  consistent w →
  _start_file_server download_path w = (r, w') →
  consistent w' ∧
  ∀ info, r = Return info →
    ∃ s, server info = Some s ∧ s ∈ bound_servers w' ∧
         server_port s = port info ∧ directory s = download_path.
Proof.
  intros [Hhandle [Hnodup Hforeign]] Hrun.
  destruct (start_cases w download_path)
    as [[Hre Heq]|[[_ [e Heq]]|[_ (q & Hbind & Heq)]]];
    rewrite Heq in Hrun; injection Hrun as <- <-.
  - split; [done|]. intros info [= <-]. simpl.
    unfold reusable in Hre. rewrite !andb_true_iff in Hre.
    destruct Hre as [[Hs _] Hp].
    apply bool_decide_eq_true in Hs as [s Hs], Hp.
    destruct (Hhandle s Hs) as (Hin & Hport & Hdir).
    exists s. repeat split; try done. congruence.
  - split; [done|]. by intros info [=].
  - apply bindable_fresh in Hbind as (Hrange & Hl & Hh & Hown).
    split; [split; [|split]|]; simpl.
    + intros s [= <-]. simpl. split; [|done].
      apply elem_of_app. right. apply list_elem_of_here.
    + rewrite fmap_app. simpl. apply NoDup_app. split; [done|].
      split; [|apply NoDup_singleton].
      intros p Hp Hq. apply list_elem_of_singleton in Hq as ->. done.
    + intros p. rewrite fmap_app. simpl. rewrite elem_of_app.
      intros [Hp|Hp]; [by apply Hforeign|].
      apply list_elem_of_singleton in Hp as ->. done.
    + intros info [= <-]. simpl. eexists. split; [done|]. split; [|done].
      apply elem_of_app. right. apply list_elem_of_here.
Qed.

(** X2.  A call that returned can be repeated for the same path at no cost:
    the second call returns the same answer and changes nothing. *)
Theorem start_again_same_path w download_path info w' :
  _start_file_server download_path w = (Return info, w') →
  _start_file_server download_path w' = (Return info, w').
Proof.
  intros Hrun.
  destruct (start_cases w download_path)
    as [[Hre Heq]|[[_ [e Heq]]|[_ (q & Hbind & Heq)]]];
    rewrite Heq in Hrun; [|done|]; injection Hrun as <- <-.
  - done.
  - unfold _start_file_server, reusable, mbind, M_bind, get_world. simpl.
    by rewrite !bool_decide_eq_true_2 by eauto.
Qed.
End ServerInvariants.


(** ** The credential helper from call to call *)

Module CredentialSequel.
Import Credentials Reference CredentialProofs.

Lemma invalid_record c w :
  is_Some (refresh_token c) → is_Some (expiry c) →
  ¬ unexpired c (now w) →
  bool_decide (is_Some (token c)) &&
  negb match expiry c with
       | None => false
       | Some t => bool_decide (t - REFRESH_THRESHOLD ≤ now w)
       end = false.
Proof.
  intros Hrt [e Hexp] Hbad. apply andb_false_iff.
  destruct (token c) as [t|] eqn:Htok; [right|left; by apply bool_decide_eq_false; intros [? ?]].
  apply negb_false_iff. rewrite Hexp. apply bool_decide_eq_true.
  destruct (decide (e - REFRESH_THRESHOLD ≤ now w)); [done|].
  destruct Hbad. split; [rewrite Htok; eauto|]. split; [done|].
  exists e. split; [done|lia].
Qed.

Lemma not_due c w :
  ¬ refreshable c (now w) →
  match expiry c with
  | None => false
  | Some t => bool_decide (t - REFRESH_THRESHOLD ≤ now w)
  end && truthy (refresh_token c) = false.
Proof.
  intros Hnot. apply andb_false_iff.
  destruct (truthy (refresh_token c)) eqn:Hrt; [left|by right].
  destruct (expiry c) as [e|] eqn:Hexp; [|done].
  apply bool_decide_eq_false. intros Hle. apply Hnot.
  split; [|done]. exists e. by rewrite Hexp.
Qed.

(** Whatever the helper returns is what the token file holds afterwards; the
    clock is not the helper's to move. *)
Lemma returned_record_is_on_disk env token_path w c w' :
  _get_credentials env token_path w = (Return c, w') →
  files w' !! token_path = Some (TokenJson c) ∧ now w' = now w.
Proof.
  run. destruct w as [fs t l ? ? ? ? ? ? ?]; simpl.
  repeat (case_match; simplify_eq; simpl in * ); intros; simplify_eq; simpl.
  all: try congruence.
  all: try (split; [by rewrite lookup_insert_eq|done]).
  split; [|done]. rewrite H1.
  destruct c0 as [tok rt [e|]]; simpl in *; subst; [done|].
  apply andb_true_iff in H as [_ H].
  apply negb_true_iff, bool_decide_eq_false in H.
  unfold REFRESH_THRESHOLD in H. lia.
Qed.

(** X3.  Once a call has returned a record that is still usable when stored
    (it has an access token, a refresh token and an expiry not yet reached),
    the next call returns the same record and does nothing: no request, no
    write. *)
Theorem next_call_is_quiet env token_path w c w' :
  _get_credentials env token_path w = (Return c, w') →
  unexpired c (now w') →
  _get_credentials env token_path w' = (Return c, w').
Proof.
  intros Hfirst Hok.
  destruct (returned_record_is_on_disk _ _ _ _ _ Hfirst) as [Hfile _].
  destruct (expired_false c w' Hok) as (Hload & Ht & He).
  unfold _get_credentials, from_authorized_user_file, valid, expired,
    path_exists, try_except, get_world, mbind, M_bind, mret, M_ret, fmap, M_fmap.
  repeat (rewrite ?Hfile, ?Hload; cbn -[from_authorized_user_info]).
  by rewrite Ht, He.
Qed.

(** X4.  A stored record that loads as it is (it has a refresh token and an
    expiry) and is neither usable nor due for a refresh (no access token yet
    not expired, or expired with an empty refresh token) is written back and
    returned as it is: there is no refresh, no consent flow, and the caller
    gets a record that is not valid. *)
Theorem unrefreshable_record_comes_back_unchanged env token_path w c :
  files w !! token_path = Some (TokenJson c) →
  is_Some (refresh_token c) →
  is_Some (expiry c) →
  ¬ unexpired c (now w) →
  ¬ refreshable c (now w) →
  write_denied env token_path = false →
  ∃ w', _get_credentials env token_path w = (Return c, w') ∧
        log w' = log w ++ [FileWrite token_path (TokenJson c)] ∧
        files w' = <[token_path := TokenJson c]> (files w) ∧
        valid c w' = (Return false, w').
Proof.
  intros Hfile Hrt Hex Hbad Hnot Hw.
  pose proof (invalid_record c w Hrt Hex Hbad) as Hinvalid.
  pose proof (not_due c w Hnot) as Hdue.
  pose proof (loaded_as_stored c w Hrt Hex) as Hload.
  unfold _get_credentials, renew, from_authorized_user_file, valid, expired,
    path_exists, write_file, record, set_file, try_except, raise, lift, get_world,
    mbind, M_bind, mret, M_ret, fmap, M_fmap.
  repeat (rewrite ?Hfile, ?Hload, ?Hinvalid, ?Hdue, ?Hw;
          cbn -[from_authorized_user_info]).
  eexists. split; [reflexivity|]. simpl. by rewrite Hinvalid.
Qed.

(** X5.  A stored record that is due, with a token endpoint that answers:
    one refresh request, then the write of the refreshed record, which is
    returned; the consent flow is not started. *)
Theorem due_record_is_refreshed_once env token_path w c c' :
  files w !! token_path = Some (TokenJson c) →
  refreshable c (now w) →
  refresh_reply env (log w ++ [TokenRefresh c]) = Return c' →
  write_denied env token_path = false →
  ∃ w', _get_credentials env token_path w = (Return c', w') ∧
        log w' = log w ++ [TokenRefresh c; FileWrite token_path (TokenJson c')] ∧
        files w' = <[token_path := TokenJson c']> (files w).
Proof.
  intros Hfile Hdue Hreply Hw.
  pose proof (not_usable_when_due c w Hdue) as Hexp.
  destruct Hdue as [(e0 & He0 & _) Hrt].
  destruct c as [tok rt ex]; simpl in *. subst ex.
  destruct rt as [r|]; [|done]. unfold truthy in Hrt.
  run. repeat (rewrite ?Hfile, ?Hexp, ?Hrt, ?Hreply, ?Hw, ?andb_false_r; simpl).
  eexists. split; [reflexivity|]. split; [|done]. by rewrite <- app_assoc.
Qed.

End CredentialSequel.


(** ** The attachment walks *)

Module WalkProofs.
Import Mime WalkRef.

Lemma describe_strict_agrees payload :
  malformed payload = false →
  describe_strict payload = Return (describe payload).
Proof.
  unfold malformed, describe_strict, describe, body_attachmentId, truthy.
  destruct (filename payload) as [fn|]; simpl; [|done].
  destruct (body payload) as [b|]; simpl.
  - destruct (attachmentId b) as [aid|]; simpl.
    + destruct (String.eqb fn ""), (String.eqb aid ""), (mimeType payload);
        simpl; done.
    + by destruct (String.eqb fn "").
  - by destruct (String.eqb fn "").
Qed.

Lemma malformed_raises payload :
  malformed payload = true → ∃ e, describe_strict payload = Raise e.
Proof.
  unfold malformed, describe_strict.
  destruct (truthy (filename payload)); simpl; [|done].
  destruct (body payload) as [b|]; [|eauto].
  destruct (truthy (attachmentId b)); simpl; [|done].
  destruct (mimeType payload); simpl; [done|eauto].
Qed.

Lemma lenient_walk_is_preorder payload :
  extract_attachments_recursive payload = preorder payload ≫= describe.
Proof.
  induction payload as [mt fn hs b ps IH] using Part_induction.
  simpl. f_equal. destruct ps as [l|]; [|done].
  induction IH as [|x l Hx Hl IHl]; simpl; [done|].
  rewrite bind_app. by rewrite Hx, IHl.
Qed.

(** X6.  [get_email_details] lists the descriptors of the parts in the
    order of a pre-order walk, at any depth, and every descriptor listed
    comes from a part with a non-empty file name and a non-empty attachment
    id, which it carries. *)
Theorem attachments_follow_preorder payload :
  extract_attachments_recursive payload = preorder payload ≫= describe ∧
  ∀ a, a ∈ extract_attachments_recursive payload →
    ∃ part, part ∈ preorder payload ∧
      filename part = Some (a_filename a) ∧
      body_attachmentId part = Some (attachment_id a) ∧
      a_filename a ≠ "" ∧ attachment_id a ≠ "".
Proof.
  split; [apply lenient_walk_is_preorder|].
  intros a. rewrite lenient_walk_is_preorder.
  intros (part & Ha & Hpart)%list_elem_of_bind.
  exists part. split; [done|]. unfold describe in Ha.
  destruct (filename part) as [fn|]; [|by apply elem_of_nil in Ha].
  destruct (body_attachmentId part) as [aid|]; [|by apply elem_of_nil in Ha].
  destruct (truthy (Some fn)) eqn:Hfn; [|by apply elem_of_nil in Ha].
  destruct (truthy (Some aid)) eqn:Haid; [|by apply elem_of_nil in Ha].
  apply list_elem_of_singleton in Ha as ->. simpl in *.
  repeat split; try done.
  - intros ->. done.
  - intros ->. done.
Qed.

Lemma bind_Return {A B} (a : A) (f : A → result B) : (Return a ≫= f) = f a.
Proof. reflexivity. Qed.

Lemma bind_Raise {A B} (e : exn) (f : A → result B) : (Raise e ≫= f) = Raise e.
Proof. reflexivity. Qed.

Lemma collect_stuck e nodes : foldl collect (Raise e) nodes = Raise e.
Proof. induction nodes; simpl; [done|]. done. Qed.

Lemma collect_all_app l1 l2 acc :
  collect_all (l1 ++ l2) acc
  = match collect_all l1 acc with
    | Return acc' => collect_all l2 acc'
    | Raise e => Raise e
    end.
Proof.
  unfold collect_all. rewrite foldl_app.
  destruct (foldl collect (Return acc) l1); [done|apply collect_stuck].
Qed.

(** The strict walk is the fold of [collect] over the nodes in pre-order. *)
Lemma strict_walk_is_fold payload : ∀ acc,
  extract_attachments_strict payload acc = collect_all (preorder payload) acc.
Proof.
  induction payload as [mt fn hs b ps IH] using Part_induction. intros acc.
  simpl. unfold collect_all. simpl.
  destruct (describe_strict _) as [here|e]; rewrite ?bind_Return, ?bind_Raise.
  2: { by rewrite collect_stuck. }
  destruct ps as [l|]; [|done].
  change (foldl collect (mret (acc ++ here)) ?l) with (collect_all l (acc ++ here)).
  generalize (acc ++ here). clear acc here.
  induction IH as [|x l Hx Hl IHl]; intros acc; [done|].
  rewrite collect_all_app, <- Hx.
  destruct (extract_attachments_strict x acc); rewrite ?bind_Return, ?bind_Raise;
    [apply IHl|done].
Qed.

Lemma collect_all_sound nodes : ∀ acc,
  forallb (λ n, negb (malformed n)) nodes = true →
  collect_all nodes acc = Return (acc ++ (nodes ≫= describe)).
Proof.
  induction nodes as [|n nodes IH]; intros acc; simpl.
  { intros _. unfold collect_all. simpl. by rewrite app_nil_r. }
  rewrite andb_true_iff, negb_true_iff. intros [Hm Hrest].
  change (n :: nodes) with ([n] ++ nodes). rewrite collect_all_app.
  unfold collect_all at 1. simpl. unfold collect.
  rewrite (describe_strict_agrees n Hm), ?bind_Return.
  unfold mret, result_ret. rewrite (IH _ Hrest). by rewrite <- app_assoc.
Qed.

Lemma collect_all_raises nodes : ∀ acc,
  forallb (λ n, negb (malformed n)) nodes = false →
  ∃ e, collect_all nodes acc = Raise e.
Proof.
  induction nodes as [|n nodes IH]; intros acc; simpl; [done|].
  change (n :: nodes) with ([n] ++ nodes). rewrite collect_all_app.
  unfold collect_all at 1. simpl. unfold collect. rewrite ?bind_Return.
  destruct (malformed n) eqn:Hm; simpl.
  - intros _. destruct (malformed_raises n Hm) as [e ->]. eauto.
  - rewrite (describe_strict_agrees n Hm), ?bind_Return. apply IH.
Qed.

(** X7.  The walk of [download_email_attachments] raises exactly
    when some part of the message is malformed for it; when it returns, it
    returns the attachments [get_email_details] lists for the same message,
    in the same order. *)
Theorem strict_walk_agrees_or_raises payload :
  (forallb (λ n, negb (malformed n)) (preorder payload) = true →
   extract_attachments_strict payload []
   = Return (extract_attachments_recursive payload)) ∧
  (forallb (λ n, negb (malformed n)) (preorder payload) = false →
   ∃ e, extract_attachments_strict payload [] = Raise e).
Proof.
  rewrite strict_walk_is_fold. split; intros Hall.
  - rewrite (collect_all_sound _ _ Hall). by rewrite lenient_walk_is_preorder.
  - by apply collect_all_raises.
Qed.
End WalkProofs.


(** ** What the Gmail tools let out *)

Module BoundaryProofs.
Import Text Mime Credentials FileServer Gmail Fetcher NameProofs FetchProofs.

Lemma gmail_errors_answer e w :
  ∃ text, gmail_errors e w = (Return (VDict [("error", VStr text)]), w).
Proof. destruct e; eexists; reflexivity. Qed.

(** X8.  Only the credential helper can make [get_email_details]
    raise: it is called outside the [try].  Once it has returned, the tool
    returns a dict whatever the service and the message do: the details,
    which echo the id, or a dict whose only key is "error". *)
Theorem details_raise_only_for_credentials env email_id w :
  (∀ e w1, _get_credentials env "token.json" w = (Raise e, w1) →
     get_email_details env email_id w = (Raise e, w1)) ∧
  (∀ creds w1, _get_credentials env "token.json" w = (Return creds, w1) →
     ∃ answer w', get_email_details env email_id w = (Return answer, w') ∧
       ((∃ text, answer = VDict [("error", VStr text)]) ∨
        dict_get "id" answer = Some (VStr email_id))).
Proof.
  split.
  - intros e w1 Hc. unfold get_email_details.
    unfold mbind at 1, M_bind at 1. by rewrite Hc.
  - intros creds w1 Hc. unfold get_email_details.
    unfold mbind at 1, M_bind at 1. rewrite Hc.
    unfold try_except, mbind, M_bind.
    destruct (remote _ _ w1) as [[msg|e] w2].
    2: { destruct (gmail_errors_answer e w2) as [text ->]. eauto 10. }
    destruct (lift (index "payload" (msg_payload msg)) w2) as [[payload|e] w3].
    2: { destruct (gmail_errors_answer e w3) as [text ->]. eauto 10. }
    destruct (lift (extract_body_recursive env payload _) w3) as [[bodies|e] w4].
    2: { destruct (gmail_errors_answer e w4) as [text ->]. eauto 10. }
    eexists _, _. split; [reflexivity|]. by right.
Qed.

(** *** Downloads and the files already there *)

Lemma write_file_cases env path content w :
  (∃ e, write_file env path content w = (Raise e, w)) ∨
  write_file env path content w
  = (Return (),
     {| files := <[path := content]> (files w); now := now w;
        log := log w ++ [FileWrite path content];
        listening := listening w; held := held w;
        bound_servers := bound_servers w; _file_server := _file_server w;
        _file_server_thread := _file_server_thread w;
        _download_path := _download_path w;
        FILE_SERVER_PORT := FILE_SERVER_PORT w |}).
Proof.
  unfold write_file, set_file, record, raise, get_world, mbind, M_bind. simpl.
  destruct (write_denied env path); [left; eauto|].
  destruct (files w !! path) as [[]|]; eauto.
Qed.

Lemma bind_inv {A B} (m : M A) (k : A → M B) w r w' :
  (m ≫= k) w = (r, w') →
  (∃ e, m w = (Raise e, w') ∧ r = Raise e) ∨
  (∃ a w1, m w = (Return a, w1) ∧ k a w1 = (r, w')).
Proof.
  unfold mbind, M_bind. destruct (m w) as [[a|e] w1].
  - right. eauto.
  - intros [= <- <-]. left. eauto.
Qed.

Lemma remote_keeps_files {A} (e : event) (reply : list event → result A) w r w' :
  remote e reply w = (r, w') → files w' = files w.
Proof.
  unfold remote, record, lift, get_world, mbind, M_bind. simpl.
  by intros [= <- <-].
Qed.

Lemma lift_keeps_world {A} (x : result A) w r w' : lift x w = (r, w') → w' = w.
Proof. unfold lift. by intros [= <- <-]. Qed.

Lemma download_one_keeps_files env email_id download_path server_port a w r w' :
  download_one env email_id download_path server_port a w = (r, w') →
  ∀ path f, files w !! path = Some f → files w' !! path = Some f.
Proof.
  unfold download_one. intros Hrun path f Hpath.
  apply bind_inv in Hrun as [(e & Hm & _)|(data & w1 & Hm & Hrun)];
    apply remote_keeps_files in Hm; [by rewrite Hm|].
  apply bind_inv in Hrun as [(e & Hl & _)|(d & w2 & Hl & Hrun)];
    apply lift_keeps_world in Hl as ->; [by rewrite Hm|].
  apply bind_inv in Hrun as [(e & Hl & _)|(file_data & w2 & Hl & Hrun)];
    apply lift_keeps_world in Hl as ->; [by rewrite Hm|].
  apply bind_inv in Hrun as [(e & Hl & _)|(w2 & w3 & Hl & Hrun)];
    [done|]. injection Hl as <- <-.
  destruct (unique_name_total w1 download_path (a_filename a) (a_filename a))
    as (name & Hname & Hfree).
  apply bind_inv in Hrun as [(e & Hl & _)|(found & w3 & Hl & Hrun)];
    rewrite Hname in Hl; [done|]. injection Hl as <- <-.
  assert (¬ present w1 (join download_path name)) as Hnew.
  { destruct Hfree as [[-> ?]|[_ (n & _ & _ & ? & _)]]; done. }
  apply bind_inv in Hrun as [(e & Hl & _)|([] & w3 & Hl & Hrun)];
    destruct (write_file_cases env (join download_path name) (Blob file_data) w1)
      as [[e' Hw]|Hw]; rewrite Hw in Hl; try done.
  - injection Hl as <- <-. by rewrite Hm.
  - injection Hl as <-. unfold mret, M_ret in Hrun. injection Hrun as <- <-.
    simpl. rewrite lookup_insert_ne; [by rewrite Hm|].
    intros <-. apply Hnew. exists f. unfold present. by rewrite Hm.
Qed.

(** X9.  The download loop never replaces a file: whatever was in
    the file system before it ran is there afterwards, unchanged. *)
Theorem downloads_never_overwrite env email_id download_path server_port :
  ∀ attachments downloaded failed w r w',
    download_each env email_id download_path server_port attachments
                  downloaded failed w = (r, w') →
    ∀ path f, files w !! path = Some f → files w' !! path = Some f.
Proof.
  induction attachments as [|a rest IH]; intros ds fs w r w'; simpl.
  { by intros [= <- <-]. }
  unfold mbind at 1, M_bind at 1, try_except, fmap, M_fmap.
  destruct (download_one env email_id download_path server_port a w)
    as [[d|e] w1] eqn:Hone; simpl; intros Hrest path f Hpath;
    (eapply IH; [exact Hrest|]);
    by eapply download_one_keeps_files.
Qed.

Lemma download_each_returns env email_id download_path server_port :
  ∀ attachments downloaded failed w,
    ∃ ds fs w',
      download_each env email_id download_path server_port attachments
                    downloaded failed w
      = (Return (downloaded ++ ds, failed ++ fs), w') ∧
      (length ds + length fs = length attachments)%nat.
Proof.
  induction attachments as [|a rest IH]; intros ds0 fs0 w; simpl.
  { exists [], [], w. by rewrite !app_nil_r. }
  unfold mbind at 1, M_bind at 1, try_except, fmap, M_fmap.
  destruct (download_one env email_id download_path server_port a w)
    as [[d|e] w1]; simpl.
  - destruct (IH (ds0 ++ [d]) fs0 w1) as (ds & fs & w' & -> & Hlen).
    exists (d :: ds), fs, w'. rewrite <- app_assoc. split; [done|]. simpl. lia.
  - destruct (IH ds0 (fs0 ++ [{| f_filename := a_filename a; error := str e |}]) w1)
      as (ds & fs & w' & -> & Hlen).
    exists ds, ({| f_filename := a_filename a; error := str e |} :: fs), w'.
    rewrite <- app_assoc. split; [done|]. simpl. lia.
Qed.

Lemma makedirs_cases path w :
  (∃ e, makedirs path w = (Raise e, w)) ∨
  (∃ w1, makedirs path w = (Return (), w1) ∧
         files w1 !! path = Some Directory ∧
         _file_server w1 = _file_server w ∧ log w1 = log w).
Proof.
  unfold makedirs, set_file, raise, get_world, mbind, M_bind, mret, M_ret.
  destruct (files w !! path) as [[]|] eqn:Hp; simpl.
  - right. eauto.
  - left. eauto.
  - left. eauto.
  - right. eexists. split; [done|]. simpl. by rewrite lookup_insert_eq.
Qed.

Lemma start_keeps_files download_path w r w' :
  _start_file_server download_path w = (r, w') →
  files w' = files w ∧ (∀ info, r = Return info → is_Some (_file_server w')).
Proof.
  intros Hrun.
  destruct (ServerInvariants.start_cases w download_path)
    as [[Hre Heq]|[[_ [e Heq]]|[_ (q & Hbind & Heq)]]];
    rewrite Heq in Hrun; injection Hrun as <- <-; (split; [done|]);
    intros info Hinfo; try done.
  unfold reusable in Hre. rewrite !andb_true_iff in Hre.
  destruct Hre as [[Hs _] _]. by apply bool_decide_eq_true in Hs.
Qed.

(** X10.  Only the credential helper can make
    [download_email_attachments] raise.  Once it has returned, the tool
    returns a dict: one whose only key is "error", the "No attachments" status,
    or the report for this email, in which the two counts add up to the number
    of attachments. *)
Theorem download_raises_only_for_credentials env email_id w :
  (∀ e w1, _get_credentials env "token.json" w = (Raise e, w1) →
     download_email_attachments env email_id w = (Raise e, w1)) ∧
  (∀ creds w1, _get_credentials env "token.json" w = (Return creds, w1) →
     ∃ answer w', download_email_attachments env email_id w = (Return answer, w') ∧
       ((∃ text, answer = VDict [("error", VStr text)]) ∨
        dict_get "status" answer = Some (VStr "No attachments found in this email.") ∨
        (dict_get "email_id" answer = Some (VStr email_id) ∧
         ∃ good bad : nat,
           dict_get "successful_downloads" answer = Some (VInt (Z.of_nat good)) ∧
           dict_get "failed_downloads" answer = Some (VInt (Z.of_nat bad)) ∧
           dict_get "total_attachments" answer
           = Some (VInt (Z.of_nat (good + bad)))))).
Proof.
  split.
  - intros e w1 Hc. unfold download_email_attachments.
    unfold mbind at 1, M_bind at 1. by rewrite Hc.
  - intros creds w1 Hc. unfold download_email_attachments.
    unfold mbind at 1, M_bind at 1. rewrite Hc.
    unfold try_except, mbind, M_bind.
    destruct (makedirs _ w1) as [[[]|e] w2].
    2: { destruct (gmail_errors_answer e w2) as [text ->]. eauto 10. }
    destruct (_start_file_server _ w2) as [[info|e] w3].
    2: { destruct (gmail_errors_answer e w3) as [text ->]. eauto 10. }
    destruct (remote _ _ w3) as [[msg|e] w4].
    2: { destruct (gmail_errors_answer e w4) as [text ->]. eauto 10. }
    destruct (lift (index "payload" (msg_payload msg)) w4) as [[payload|e] w5].
    2: { destruct (gmail_errors_answer e w5) as [text ->]. eauto 10. }
    destruct (lift (extract_attachments_strict payload []) w5)
      as [[[|a attachments]|e] w6].
    3: { destruct (gmail_errors_answer e w6) as [text ->]. eauto 10. }
    { eexists _, _. split; [reflexivity|]. right. by left. }
    destruct (download_each_returns env email_id (join (cwd env) "downloads")
                (port info) (a :: attachments) [] [] w6)
      as (ds & fs & w7 & -> & Hlen).
    eexists _, _. split; [reflexivity|]. right. right. split; [done|].
    exists (length ds), (length fs). simpl dict_get.
    repeat split. by rewrite Hlen.
Qed.

(** X11.  A message without attachments still costs the side
    effects: when the tool answers "No attachments found", the downloads
    directory exists and the process holds a file-server handle. *)
Theorem nothing_to_download_still_starts_the_server env email_id w answer w' :
  download_email_attachments env email_id w = (Return answer, w') →
  dict_get "status" answer = Some (VStr "No attachments found in this email.") →
  files w' !! join (cwd env) "downloads" = Some Directory ∧
  is_Some (_file_server w').
Proof.
  unfold download_email_attachments. intros Hrun Hstatus.
  apply bind_inv in Hrun as [(e & _ & [=])|(creds & w1 & _ & Hrun)].
  revert Hrun. unfold try_except, mbind, M_bind.
  destruct (makedirs_cases (join (cwd env) "downloads") w1)
    as [[e ->]|(w2 & -> & Hdir & _ & _)].
  { destruct (gmail_errors_answer e w1) as [text ->].
    intros [= <- <-]. done. }
  destruct (_start_file_server _ w2) as [[info|e] w3] eqn:Hstart.
  2: { destruct (gmail_errors_answer e w3) as [text ->]. intros [= <- <-]. done. }
  destruct (start_keeps_files _ _ _ _ Hstart) as [Hfiles Hhandle].
  destruct (remote _ _ w3) as [[msg|e] w4] eqn:Hremote.
  2: { destruct (gmail_errors_answer e w4) as [text ->]. intros [= <- <-]. done. }
  assert (files w4 = files w3 ∧ _file_server w4 = _file_server w3) as [Hf4 Hs4].
  { revert Hremote. unfold remote, record, lift, get_world, mbind, M_bind. simpl.
    by intros [= _ <-]. }
  destruct (lift (index "payload" (msg_payload msg)) w4) as [[payload|e] w5] eqn:Hl5.
  2: { destruct (gmail_errors_answer e w5) as [text ->]. intros [= <- <-]. done. }
  apply lift_keeps_world in Hl5 as ->.
  destruct (lift (extract_attachments_strict payload []) w4)
    as [[[|a attachments]|e] w6] eqn:Hl6.
  3: { destruct (gmail_errors_answer e w6) as [text ->]. intros [= <- <-]. done. }
  - apply lift_keeps_world in Hl6 as ->. unfold mret, M_ret. intros [= <- <-].
    rewrite Hf4, Hfiles, Hs4. split; [done|]. by eapply Hhandle.
  - destruct (download_each_returns env email_id (join (cwd env) "downloads")
                (port info) (a :: attachments) [] [] w6)
      as (ds & fs & w7 & -> & Hlen).
    unfold mret, M_ret. intros [= <- <-]. done.
Qed.
End BoundaryProofs.


(** ** Searching the mailbox, and the two delete tools *)

Module SearchProofs.
Import Credentials Gmail.

Lemma search_each env : ∀ ids w,
  (∀ l, ∃ msg, message_reply env l = Return msg) →
  ∃ emails w',
    for_each (search_one env) ids w = (Return emails, w') ∧
    dict_get "id" <$> emails = (λ id, Some (VStr id)) <$> ids ∧
    log w' = log w ++ ((λ id, MessagesGet id None) <$> ids).
Proof.
  induction ids as [|id ids IH]; intros w Hup; simpl.
  { exists [], w. by rewrite app_nil_r. }
  unfold mbind at 1, M_bind at 1.
  unfold search_one at 1, remote, record, lift, get_world, mbind at 1 2 3,
    M_bind at 1 2 3. simpl.
  destruct (Hup (log w ++ [MessagesGet id None])) as [msg ->].
  unfold mret at 1, M_ret at 1.
  set (w1 := {| files := files w; now := now w;
                log := log w ++ [MessagesGet id None];
                listening := listening w; held := held w;
                bound_servers := bound_servers w; _file_server := _file_server w;
                _file_server_thread := _file_server_thread w;
                _download_path := _download_path w;
                FILE_SERVER_PORT := FILE_SERVER_PORT w |}).
  destruct (IH w1 Hup) as (emails & w' & Hrun & Hids & Hlog).
  unfold mbind, M_bind. rewrite Hrun. unfold mret, M_ret.
  eexists _, _. split; [reflexivity|]. split.
  - rewrite fmap_cons. by rewrite Hids.
  - rewrite Hlog. simpl. by rewrite <- app_assoc.
Qed.

(** X12.  [search_emails] looks at no more than the first five
    hits: with a service that answers every message request, it fetches the
    first five ids of the listing, in order, and returns one entry for each.
    A listing without hits is answered by the status dict, with no message
    request at all. *)
Theorem search_fetches_the_first_five env query w creds w1 :
  _get_credentials env "token.json" w = (Return creds, w1) →
  (∀ ids, list_reply env (log w1 ++ [MessagesList None (Some query) None])
          = Return (Some ids) →
     ids ≠ [] →
     (∀ l, ∃ msg, message_reply env l = Return msg) →
     ∃ emails w',
       search_emails env query w = (Return (VDict [("emails", VList emails)]), w') ∧
       dict_get "id" <$> emails = (λ id, Some (VStr id)) <$> take 5 ids ∧
       log w' = log w1 ++ MessagesList None (Some query) None
                       :: ((λ id, MessagesGet id None) <$> take 5 ids)) ∧
  (list_reply env (log w1 ++ [MessagesList None (Some query) None]) = Return None ∨
   list_reply env (log w1 ++ [MessagesList None (Some query) None]) = Return (Some []) →
   ∃ w', search_emails env query w
         = (Return (VDict [("status", VStr "No emails found matching your query.")]), w') ∧
         log w' = log w1 ++ [MessagesList None (Some query) None]).
Proof.
  intros Hc. split.
  - intros ids Hlist Hne Hup. unfold search_emails.
    unfold mbind at 1, M_bind at 1. rewrite Hc.
    unfold mbind at 1, M_bind at 1.
    unfold remote, record, lift, get_world, mbind at 1 2, M_bind at 1 2. simpl.
    rewrite Hlist. simpl. destruct ids as [|id ids]; [done|].
    set (w2 := {| files := files w1; now := now w1;
                  log := log w1 ++ [MessagesList None (Some query) None];
                  listening := listening w1; held := held w1;
                  bound_servers := bound_servers w1; _file_server := _file_server w1;
                  _file_server_thread := _file_server_thread w1;
                  _download_path := _download_path w1;
                  FILE_SERVER_PORT := FILE_SERVER_PORT w1 |}).
    destruct (search_each env (take 5 (id :: ids)) w2 Hup)
      as (emails & w' & Hrun & Hids & Hlog).
    unfold mbind, M_bind.
    change (firstn 5 (id :: ids)) with (take 5 (id :: ids)).
    rewrite Hrun. unfold mret, M_ret.
    eexists _, _. split; [reflexivity|]. split; [done|].
    rewrite Hlog. simpl. by rewrite <- app_assoc.
  - intros Hlist. unfold search_emails.
    unfold mbind at 1, M_bind at 1. rewrite Hc.
    unfold remote, record, lift, get_world, mbind, M_bind. simpl.
    destruct Hlist as [-> | ->]; simpl; eexists; split; reflexivity.
Qed.
End SearchProofs.

Module DeleteProofs.
Import Credentials.

Ltac run :=
  unfold Calendar.delete_event, Tasks.delete_task, try_except, remote, record,
    lift, get_world, mbind, M_bind, mret, M_ret; simpl.

(** X13.  How the two delete tools read the status of a failed
    delete request: [delete_event] tells 404 ("Event not found") and 410
    ("Event already deleted") from the rest; [delete_task] tells only 404
    ("Task not found"), so a 410 is a plain "Failed to delete task".  Both
    echo the id and put the error text under "details". *)
Theorem delete_tools_read_the_status env id container w creds w1 status text :
  (_get_credentials env "token_calendar.json" w = (Return creds, w1) →
   delete_reply env (log w1 ++ [EventsDelete container id])
   = Raise (HttpError status text) →
   ∃ w', Calendar.delete_event env id container w
         = (Return (VDict
              [("status", VStr "error");
               ("message", VStr (if bool_decide (status = 404) then "Event not found"
                                 else if bool_decide (status = 410)
                                      then "Event already deleted"
                                      else "Failed to delete event"));
               ("details", VStr (if bool_decide (status = 404)
                                 then "No event with ID '" +:+ id
                                      +:+ "' exists in the calendar"
                                 else if bool_decide (status = 410)
                                      then "Event with ID '" +:+ id
                                           +:+ "' was already deleted"
                                      else text));
               ("event_id", VStr id)]), w')) ∧
  (_get_credentials env "token_tasks.json" w = (Return creds, w1) →
   delete_reply env (log w1 ++ [TasksDelete container id])
   = Raise (HttpError status text) →
   ∃ w', Tasks.delete_task env id container w
         = (Return (VDict
              [("status", VStr "error");
               ("message", VStr (if bool_decide (status = 404) then "Task not found"
                                 else "Failed to delete task"));
               ("details", VStr (if bool_decide (status = 404)
                                 then "No task with ID '" +:+ id
                                      +:+ "' exists in the task list"
                                 else text));
               ("task_id", VStr id)]), w')).
Proof.
  split; intros Hc Hreply; run; rewrite Hc; simpl; rewrite Hreply; simpl;
    repeat case_bool_decide; eexists; reflexivity.
Qed.

(** X14.  [delete_task] never raises, not even when the
    credential helper does: it answers with a dict that echoes the task id,
    tagged "success" or "error". *)
Theorem delete_task_always_answers env task_id tasklist_id w :
  ∃ answer w', Tasks.delete_task env task_id tasklist_id w = (Return answer, w') ∧
    dict_get "task_id" answer = Some (VStr task_id) ∧
    (dict_get "status" answer = Some (VStr "success") ∨
     (dict_get "status" answer = Some (VStr "error") ∧
      ∃ text, dict_get "message" answer = Some (VStr text))).
Proof.
  unfold Tasks.delete_task, try_except, mbind, M_bind.
  destruct (_get_credentials _ _ w) as [[creds|e] w1].
  - destruct (remote _ _ w1) as [[[]|e] w2].
    + eexists _, _. split; [reflexivity|]. split; [done|]. by left.
    + destruct e as [status text|text]; unfold mret, M_ret;
        repeat case_bool_decide; eexists _, _; (split; [reflexivity|]);
        (split; [done|]); right; (split; [done|]); eexists; reflexivity.
  - destruct e as [status text|text]; unfold mret, M_ret;
      repeat case_bool_decide; eexists _, _; (split; [reflexivity|]);
      (split; [done|]); right; (split; [done|]); eexists; reflexivity.
Qed.
End DeleteProofs.


(** ** Objects in and out of the Tasks and Calendar tools *)

Module JsonProofs.
Import Json.

Lemma get_nil key : get key [] = None.
Proof. reflexivity. Qed.

Lemma get_cons key k v (d : dict) :
  get key ((k, v) :: d) = if String.eqb k key then Some v else get key d.
Proof. unfold get. simpl. by destruct (String.eqb k key). Qed.

Lemma eqb_false (a b : string) : a ≠ b → String.eqb a b = false.
Proof. intros H. by destruct (String.eqb_spec a b). Qed.

Lemma eqb_true (a : string) : String.eqb a a = true.
Proof. by destruct (String.eqb_spec a a). Qed.

(** Assignment then lookup: the key holds the new value, the other keys
    what they held. *)
Lemma get_set_eq key v (d : dict) : get key (set key v d) = Some v.
Proof.
  induction d as [|[k x] d IH]; simpl.
  - by rewrite get_cons, eqb_true.
  - destruct (String.eqb k key) eqn:Hk; rewrite get_cons, Hk; done.
Qed.

Lemma get_set_ne key key' v (d : dict) :
  key ≠ key' → get key' (set key v d) = get key' d.
Proof.
  intros Hne. induction d as [|[k x] d IH]; simpl.
  - by rewrite get_cons, eqb_false.
  - destruct (String.eqb_spec k key) as [->|Hk].
    + by rewrite !get_cons, eqb_false.
    + rewrite !get_cons. by rewrite IH.
Qed.

Lemma get_copy_key_eq key (src dst : dict) :
  get key (copy_key key src dst)
  = match get key src with
    | Some v => Some v
    | None => get key dst
    end.
Proof. unfold copy_key. destruct (get key src); [apply get_set_eq|done]. Qed.

Lemma get_copy_key_ne key key' (src dst : dict) :
  key ≠ key' → get key' (copy_key key src dst) = get key' dst.
Proof.
  intros Hne. unfold copy_key. destruct (get key src); [by apply get_set_ne|done].
Qed.
End JsonProofs.

Module TaskProofs.
Import Json Rest Credentials TaskTools JsonProofs ToolRef.

Lemma in_world_run {A} (m : M A) s r w' :
  m (world s) = (r, w') →
  in_world m s = (r, {| world := w'; calls := calls s |}).
Proof. intros H. unfold in_world. by rewrite H. Qed.

Lemma step {A B} (m : T A) (k : A → T B) s a s' :
  m s = (Return a, s') → (m ≫= k) s = k a s'.
Proof. intros H. unfold mbind, T_bind. by rewrite H. Qed.

Lemma stop {A B} (m : T A) (k : A → T B) s e s' :
  m s = (Raise e, s') → (m ≫= k) s = (Raise e, s').
Proof. intros H. unfold mbind, T_bind. by rewrite H. Qed.

Lemma guarded_return {A} (m : T A) (h : exn → A) s a s' :
  m s = (Return a, s') → guarded m h s = (Return a, s').
Proof. intros H. unfold guarded. by rewrite H. Qed.

Lemma guarded_raise {A} (m : T A) (h : exn → A) s e s' :
  m s = (Raise e, s') → guarded m h s = (Return (h e), s').
Proof. intros H. unfold guarded. by rewrite H. Qed.

Lemma execute_run api r s :
  execute api r s
  = (api (calls s ++ [r]), {| world := world s; calls := calls s ++ [r] |}).
Proof. reflexivity. Qed.

Lemma completed_body_fields task id :
  get "id" task = Some id →
  ∃ body, completed_body task = Return body ∧
    get "id" body = Some id ∧
    get "title" body = Some (get_or "title" (VStr "") task) ∧
    get "status" body = Some (VStr "completed") ∧
    get "notes" body = get "notes" task ∧
    get "due" body = get "due" task ∧
    ∀ k, ¬ sendable k → get k body = None.
Proof.
  intros Hid. unfold completed_body, getitem, index. rewrite Hid.
  eexists. split; [reflexivity|].
  repeat split.
  - by rewrite !get_copy_key_ne.
  - by rewrite !get_copy_key_ne.
  - by rewrite !get_copy_key_ne.
  - rewrite get_copy_key_ne by done. rewrite get_copy_key_eq.
    by destruct (get "notes" task).
  - rewrite get_copy_key_eq. rewrite get_copy_key_ne by done.
    by destruct (get "due" task).
  - intros k Hk. unfold sendable in Hk.
    rewrite !get_copy_key_ne by (intros <-; tauto).
    rewrite !get_cons, !eqb_false by (intros <-; tauto). done.
Qed.

(** X15.  [complete_task] on a task the service returns: one get,
    then one update whose body is the task's id, its title (empty when it
    has none), the status "completed", and its notes and due date exactly
    when the task has them.  No other key of the task is sent back. *)
Theorem complete_task_resends_five_keys env api task_id tasklist_id s creds w1 task id :
  _get_credentials env token_file (world s) = (Return creds, w1) →
  api (calls s ++ [TasksGet tasklist_id task_id]) = Return task →
  get "id" task = Some id →
  ∃ body answer,
    complete_task env api task_id tasklist_id s
    = (Return answer,
       {| world := w1;
          calls := calls s ++ [TasksGet tasklist_id task_id;
                               TasksUpdate tasklist_id task_id body] |}) ∧
    get "id" body = Some id ∧
    get "title" body = Some (get_or "title" (VStr "") task) ∧
    get "status" body = Some (VStr "completed") ∧
    get "notes" body = get "notes" task ∧
    get "due" body = get "due" task ∧
    ∀ k, ¬ sendable k → get k body = None.
Proof.
  intros Hc Hget Hid.
  destruct (completed_body_fields task id Hid) as (body & Hbody & Hfields).
  exists body.
  destruct (api ((calls s ++ [TasksGet tasklist_id task_id])
                 ++ [TasksUpdate tasklist_id task_id body])) as [updated|e] eqn:Hup.
  - destruct (getitem "id" updated) as [uid|e] eqn:Huid.
    + eexists. split; [|exact Hfields]. unfold complete_task.
      apply guarded_return.
      erewrite step; [|by apply in_world_run].
      erewrite step; [|by rewrite execute_run; simpl; rewrite Hget].
      erewrite step; [|by unfold pure; rewrite Hbody].
      erewrite step; [|by rewrite execute_run; simpl; rewrite Hup].
      erewrite step; [|by unfold pure; rewrite Huid].
      by rewrite <- app_assoc.
    + eexists. split; [|exact Hfields]. unfold complete_task.
      apply guarded_raise.
      erewrite step; [|by apply in_world_run].
      erewrite step; [|by rewrite execute_run; simpl; rewrite Hget].
      erewrite step; [|by unfold pure; rewrite Hbody].
      erewrite step; [|by rewrite execute_run; simpl; rewrite Hup].
      erewrite stop; [|by unfold pure; rewrite Huid].
      by rewrite <- app_assoc.
  - eexists. split; [|exact Hfields]. unfold complete_task.
    apply guarded_raise.
    erewrite step; [|by apply in_world_run].
    erewrite step; [|by rewrite execute_run; simpl; rewrite Hget].
    erewrite step; [|by unfold pure; rewrite Hbody].
    erewrite stop; [|by rewrite execute_run; simpl; rewrite Hup].
    by rewrite <- app_assoc.
Qed.

(** X16.  When the task cannot be fetched, or comes back without
    an 'id', [complete_task] and [update_task] stop there: the get is the
    only request made, and the answer is the error dict for what was raised,
    "Task not found" for a 404. *)
Theorem no_update_without_the_task env api task_id tasklist_id s creds w1 e
    title notes due status :
  _get_credentials env token_file (world s) = (Return creds, w1) →
  api (calls s ++ [TasksGet tasklist_id task_id]) = Raise e ∨
  (∃ task, api (calls s ++ [TasksGet tasklist_id task_id]) = Return task ∧
           get "id" task = None ∧ e = Mime.KeyError "id") →
  complete_task env api task_id tasklist_id s
  = (Return (task_errors "complete" task_id e),
     {| world := w1; calls := calls s ++ [TasksGet tasklist_id task_id] |}) ∧
  update_task env api task_id title notes due status tasklist_id s
  = (Return (task_errors "update" task_id e),
     {| world := w1; calls := calls s ++ [TasksGet tasklist_id task_id] |}) ∧
  (∀ text, e = HttpError 404 text →
     dict_get "message" (task_errors "complete" task_id e)
     = Some (VStr "Task not found")).
Proof.
  intros Hc Hget. split; [|split].
  - unfold complete_task. apply guarded_raise.
    erewrite step; [|by apply in_world_run].
    destruct Hget as [Hget|(task & Hget & Hid & ->)].
    + erewrite stop; [done|]. by rewrite execute_run; simpl; rewrite Hget.
    + erewrite step; [|by rewrite execute_run; simpl; rewrite Hget].
      erewrite stop; [done|].
      unfold pure, completed_body, getitem, index. by rewrite Hid.
  - unfold update_task. apply guarded_raise.
    erewrite step; [|by apply in_world_run].
    destruct Hget as [Hget|(task & Hget & Hid & ->)].
    + erewrite stop; [done|]. by rewrite execute_run; simpl; rewrite Hget.
    + erewrite step; [|by rewrite execute_run; simpl; rewrite Hget].
      erewrite stop; [done|].
      unfold pure, updated_body, getitem, index. by rewrite Hid.
  - by intros text ->.
Qed.

Lemma get_given_or_kept_eq x key (task body : dict) :
  get key (given_or_kept x key task body)
  = match given x (get key task) with
    | Some v => Some v
    | None => get key body
    end.
Proof.
  unfold given_or_kept, given. destruct x; [apply get_set_eq|apply get_copy_key_eq].
Qed.

Lemma get_given_or_kept_ne x key key' (task body : dict) :
  key ≠ key' → get key' (given_or_kept x key task body) = get key' body.
Proof.
  intros Hne. unfold given_or_kept.
  destruct x; [by apply get_set_ne|by apply get_copy_key_ne].
Qed.

(** X17.  [update_task] on a task the service returns: one get,
    then one update whose body takes each of title, status, notes and due
    from the argument when one is passed (an empty string included) and from
    the fetched task otherwise, title and status falling back to "" and
    "needsAction".  No other key of the task is sent back. *)
Theorem update_task_sends_given_or_stored env api task_id title notes due status
    tasklist_id s creds w1 task id :
  _get_credentials env token_file (world s) = (Return creds, w1) →
  api (calls s ++ [TasksGet tasklist_id task_id]) = Return task →
  get "id" task = Some id →
  ∃ body answer,
    update_task env api task_id title notes due status tasklist_id s
    = (Return answer,
       {| world := w1;
          calls := calls s ++ [TasksGet tasklist_id task_id;
                               TasksUpdate tasklist_id task_id body] |}) ∧
    get "id" body = Some id ∧
    get "title" body = given title (Some (get_or "title" (VStr "") task)) ∧
    get "status" body = given status (Some (get_or "status" (VStr "needsAction") task)) ∧
    get "notes" body = given notes (get "notes" task) ∧
    get "due" body = given due (get "due" task) ∧
    ∀ k, ¬ sendable k → get k body = None.
Proof.
  intros Hc Hget Hid.
  assert (∃ body, updated_body title notes due status task = Return body ∧
            get "id" body = Some id ∧
            get "title" body = given title (Some (get_or "title" (VStr "") task)) ∧
            get "status" body
            = given status (Some (get_or "status" (VStr "needsAction") task)) ∧
            get "notes" body = given notes (get "notes" task) ∧
            get "due" body = given due (get "due" task) ∧
            ∀ k, ¬ sendable k → get k body = None)
    as (body & Hbody & Hfields).
  { unfold updated_body, getitem, index. rewrite Hid.
    eexists. split; [reflexivity|]. repeat split.
    - by rewrite !get_given_or_kept_ne.
    - rewrite !get_given_or_kept_ne by done. by destruct title.
    - rewrite !get_given_or_kept_ne by done. by destruct status.
    - rewrite get_given_or_kept_ne by done. rewrite get_given_or_kept_eq.
      by destruct (given notes (get "notes" task)).
    - rewrite get_given_or_kept_eq. rewrite get_given_or_kept_ne by done.
      by destruct (given due (get "due" task)).
    - intros k Hk. unfold sendable in Hk.
      rewrite !get_given_or_kept_ne by (intros <-; tauto).
      rewrite !get_cons, !eqb_false by (intros <-; tauto). done. }
  exists body.
  destruct (api ((calls s ++ [TasksGet tasklist_id task_id])
                 ++ [TasksUpdate tasklist_id task_id body])) as [updated|e] eqn:Hup.
  - destruct (getitem "id" updated) as [uid|e] eqn:Huid.
    + eexists. split; [|exact Hfields]. unfold update_task.
      apply guarded_return.
      erewrite step; [|by apply in_world_run].
      erewrite step; [|by rewrite execute_run; simpl; rewrite Hget].
      erewrite step; [|by unfold pure; rewrite Hbody].
      erewrite step; [|by rewrite execute_run; simpl; rewrite Hup].
      erewrite step; [|by unfold pure; rewrite Huid].
      by rewrite <- app_assoc.
    + eexists. split; [|exact Hfields]. unfold update_task.
      apply guarded_raise.
      erewrite step; [|by apply in_world_run].
      erewrite step; [|by rewrite execute_run; simpl; rewrite Hget].
      erewrite step; [|by unfold pure; rewrite Hbody].
      erewrite step; [|by rewrite execute_run; simpl; rewrite Hup].
      erewrite stop; [|by unfold pure; rewrite Huid].
      by rewrite <- app_assoc.
  - eexists. split; [|exact Hfields]. unfold update_task.
    apply guarded_raise.
    erewrite step; [|by apply in_world_run].
    erewrite step; [|by rewrite execute_run; simpl; rewrite Hget].
    erewrite step; [|by unfold pure; rewrite Hbody].
    erewrite stop; [|by rewrite execute_run; simpl; rewrite Hup].
    by rewrite <- app_assoc.
Qed.
End TaskProofs.


Module ListingProofs.
Import Json Rest Credentials TaskTools JsonProofs ToolRef TaskProofs.

Lemma format_task_identified item :
  identified item →
  ∃ d formatted, item = VDict d ∧ format_task item = Return formatted ∧
    dict_get "id" formatted = get "id" d ∧
    dict_get "title" formatted = Some (get_or "title" (VStr "(No Title)") d).
Proof.
  destruct item as [| | | | |d]; try done. intros [id Hid].
  exists d. unfold format_task, subscript, getitem, index. rewrite Hid. simpl.
  eexists. split; [done|]. split; [reflexivity|].
  change (dict_get ?k (VDict ?x)) with (get k x).
  rewrite !get_copy_key_ne by done. by rewrite !get_cons.
Qed.

Lemma format_task_rejects item :
  ¬ identified item → ∃ e, format_task item = Raise e.
Proof.
  destruct item as [| | | | |d]; simpl; intros Hbad;
    unfold format_task, subscript; simpl; eauto.
  unfold getitem, index. destruct (get "id" d) eqn:Hid; [|eauto].
  destruct Hbad. eauto.
Qed.

Lemma each_format_task_all items :
  Forall identified items →
  ∃ formatted, each format_task items = Return formatted ∧
    Forall2 (λ (item f : value), ∃ d, item = VDict d ∧
                        dict_get "id" f = get "id" d ∧
                        dict_get "title" f
                        = Some (get_or "title" (VStr "(No Title)") d))
            items formatted.
Proof.
  induction 1 as [|item items Hitem _ IH]; simpl.
  { exists []. split; [done|]. constructor. }
  destruct (format_task_identified item Hitem) as (d & f & -> & Hf & Hid & Htitle).
  destruct IH as (fs & Hfs & Hall).
  rewrite Hf. simpl. rewrite Hfs. simpl.
  exists (f :: fs). split; [done|]. constructor; [|done]. eauto.
Qed.

Lemma each_format_task_one_bad items :
  Exists (λ item, ¬ identified item) items →
  ∃ e, each format_task items = Raise e.
Proof.
  induction 1 as [item items Hbad|item items _ IH]; simpl.
  - destruct (format_task_rejects item Hbad) as [e ->]. eauto.
  - destruct (format_task item); simpl; [|eauto].
    destruct IH as [e ->]. eauto.
Qed.

(** X18.  [list_tasks] with a listing the service returns: without
    items (no 'items' key, or an empty list) the answer is count 0 with a
    message; when every item is an object with an 'id' the answer has one
    entry per item, in order, with the item's id and title; a single item
    that is not makes the whole answer an error with an empty task list.
    One list request is made in each case. *)
Theorem list_tasks_is_all_or_nothing env api tasklist_id max_results
    (show_completed : bool) s creds w1 results :
  _get_credentials env token_file (world s) = (Return creds, w1) →
  api (calls s ++ [TasksList tasklist_id max_results
                     (if show_completed then Some true else None)
                     (if show_completed then Some true else None)])
  = Return results →
  let s1 := {| world := w1;
               calls := calls s ++ [TasksList tasklist_id max_results
                                      (if show_completed then Some true else None)
                                      (if show_completed then Some true else None)] |} in
  (get "items" results = None ∨ get "items" results = Some (VList []) →
   list_tasks env api tasklist_id max_results show_completed s
   = (Return (VDict [("count", VInt 0);
                     ("tasklist_id", VStr tasklist_id);
                     ("tasks", VList []);
                     ("message", VStr "No tasks found in this list.")]), s1)) ∧
  (∀ item items, get "items" results = Some (VList (item :: items)) →
     (Forall identified (item :: items) →
      ∃ formatted,
        list_tasks env api tasklist_id max_results show_completed s
        = (Return (VDict [("count", VInt (Z.of_nat (length (item :: items))));
                          ("tasklist_id", VStr tasklist_id);
                          ("tasks", VList formatted)]), s1) ∧
        Forall2 (λ (item f : value), ∃ d, item = VDict d ∧
                            dict_get "id" f = get "id" d ∧
                            dict_get "title" f
                            = Some (get_or "title" (VStr "(No Title)") d))
                (item :: items) formatted) ∧
     (Exists (λ item, ¬ identified item) (item :: items) →
      ∃ text,
        list_tasks env api tasklist_id max_results show_completed s
        = (Return (VDict [("status", VStr "error");
                          ("message", VStr text);
                          ("tasklist_id", VStr tasklist_id);
                          ("tasks", VList [])]), s1))).
Proof.
  intros Hc Hlist s1. unfold list_tasks. split.
  - intros Hitems. apply guarded_return.
    erewrite step; [|by apply in_world_run].
    erewrite step; [|by rewrite execute_run; simpl; rewrite Hlist].
    unfold get_or. by destruct Hitems as [-> | ->].
  - intros item items Hitems. split.
    + intros Hall.
      destruct (each_format_task_all _ Hall) as (formatted & Heach & Hpairs).
      exists formatted. split; [|done]. apply guarded_return.
      erewrite step; [|by apply in_world_run].
      erewrite step; [|by rewrite execute_run; simpl; rewrite Hlist].
      unfold get_or. rewrite Hitems.
      change (default (VList []) (Some (VList (item :: items))))
        with (VList (item :: items)).
      change (negb (truthy_value (VList (item :: items)))) with false.
      cbv iota.
      erewrite step; [|reflexivity].
      erewrite step; [|by unfold pure; rewrite Heach].
      unfold mret, T_ret. do 4 f_equal.
      apply Forall2_length in Hpairs. by rewrite Hpairs.
    + intros Hbad.
      destruct (each_format_task_one_bad _ Hbad) as (e & Heach).
      exists (match e with
              | HttpError _ _ => "An HTTP error occurred: " +:+ str e
              | Exception _ => "An error occurred: " +:+ str e
              end).
      match goal with
      | |- guarded ?m _ _ = _ => assert (m s = (Raise e, s1)) as Hrun
      end.
      { erewrite step; [|by apply in_world_run].
        erewrite step; [|by rewrite execute_run; simpl; rewrite Hlist].
        unfold get_or. rewrite Hitems.
        change (default (VList []) (Some (VList (item :: items))))
          with (VList (item :: items)).
        change (negb (truthy_value (VList (item :: items)))) with false.
        cbv iota.
        erewrite step; [|reflexivity].
        erewrite stop; [done|]. by unfold pure; rewrite Heach. }
      rewrite (guarded_raise _ _ _ _ _ Hrun). by destruct e.
Qed.
End ListingProofs.


Module AnswerProofs.
Import Json Rest Credentials TaskTools EventTools JsonProofs ToolRef TaskProofs.

Ltac refused e :=
  eexists; split;
  [apply guarded_raise; erewrite stop; [reflexivity|by apply in_world_run]
  |unfold task_errors, listing_errors; destruct e; simpl;
   repeat case_bool_decide; (split; [reflexivity|eexists; reflexivity])].

(** X19.  The five Tasks tools that keep the credential
    helper inside their [try] do not raise when it fails: each answers with
    a dict tagged "error" that carries a message, and makes no request to
    the service. *)
Theorem task_tools_answer_a_credential_failure env api s e w1 :
  _get_credentials env TaskTools.token_file (world s) = (Raise e, w1) →
  ∀ task_id tasklist_id name title notes due status parent max_results
    show_completed,
    refusal s w1 (complete_task env api task_id tasklist_id s) ∧
    refusal s w1 (update_task env api task_id title notes due status tasklist_id s) ∧
    refusal s w1 (create_task env api name notes due parent tasklist_id s) ∧
    refusal s w1 (list_tasks env api tasklist_id max_results show_completed s) ∧
    refusal s w1 (list_tasklists env api s).
Proof.
  intros Hc. intros. unfold refusal. repeat split.
  - unfold complete_task. refused e.
  - unfold update_task. refused e.
  - unfold create_task. refused e.
  - unfold list_tasks. refused e.
  - unfold list_tasklists. refused e.
Qed.

(** X20.  The same for the four Calendar tools that keep
    the credential helper inside their [try]. *)
Theorem calendar_tools_answer_a_credential_failure env api clock s e w1 :
  _get_credentials env EventTools.token_file (world s) = (Raise e, w1) →
  ∀ event_id summary start_datetime end_datetime new_summary new_start new_end
    description location attendees timezone new_timezone calendar_id query
    max_results days_ahead,
    refusal s w1 (create_event env api summary start_datetime end_datetime
                               description location attendees timezone
                               calendar_id s) ∧
    refusal s w1 (update_event env api event_id new_summary new_start new_end
                               description location attendees new_timezone
                               calendar_id s) ∧
    refusal s w1 (search_events env api query max_results calendar_id s) ∧
    refusal s w1 (list_events env api clock max_results days_ahead calendar_id s).
Proof.
  intros Hc. intros. unfold refusal. repeat split.
  - unfold create_event. refused e.
  - unfold update_event. refused e.
  - unfold search_events. refused e.
  - unfold list_events. refused e.
Qed.
End AnswerProofs.


Module RequestProofs.
Import Json Rest Credentials TaskTools EventTools JsonProofs ToolRef TaskProofs.

Lemma get_when_truthy_eq x key (body : dict) :
  get key (when_truthy x key body)
  = if truthy x then VStr <$> x else get key body.
Proof.
  unfold when_truthy. destruct (truthy x) eqn:Hx; [|done].
  rewrite get_set_eq. by destruct x.
Qed.

Lemma get_when_truthy_ne x key key' (body : dict) :
  key ≠ key' → get key' (when_truthy x key body) = get key' body.
Proof.
  intros Hne. unfold when_truthy. destruct (truthy x); [by apply get_set_ne|done].
Qed.

Lemma create_task_runs env api title notes due parent tasklist_id s w1 creds :
  _get_credentials env TaskTools.token_file (world s) = (Return creds, w1) →
  ∃ answer, create_task env api title notes due parent tasklist_id s
            = (Return answer,
               {| world := w1;
                  calls := calls s ++ [TasksInsert tasklist_id (new_task title notes due)
                                         (if truthy parent then parent else None)] |}).
Proof.
  intros Hc. unfold create_task.
  destruct (api (calls s ++ [TasksInsert tasklist_id (new_task title notes due)
                               (if truthy parent then parent else None)]))
    as [created|e] eqn:Hreply.
  - destruct (getitem "id" created) as [id|e] eqn:Hid.
    + eexists. apply guarded_return.
      erewrite step; [|by apply in_world_run].
      erewrite step; [|by rewrite execute_run; simpl; rewrite Hreply].
      erewrite step; [|by unfold pure; rewrite Hid].
      reflexivity.
    + eexists. apply guarded_raise.
      erewrite step; [|by apply in_world_run].
      erewrite step; [|by rewrite execute_run; simpl; rewrite Hreply].
      erewrite stop; [reflexivity|]. by unfold pure; rewrite Hid.
  - eexists. apply guarded_raise.
    erewrite step; [|by apply in_world_run].
    erewrite stop; [reflexivity|]. by rewrite execute_run; simpl; rewrite Hreply.
Qed.

(** X21.  [create_task] makes one insert request.  Its body
    has the title and, only when they are non-empty, the notes and the due
    date; an empty string is treated like no argument, for the parent too.
    The answer reports what the service stored, not what was passed. *)
Theorem create_task_drops_empty_arguments env api title notes due parent
    tasklist_id s creds w1 :
  _get_credentials env TaskTools.token_file (world s) = (Return creds, w1) →
  ∃ body,
    let request := TasksInsert tasklist_id body (if truthy parent then parent else None) in
    let s1 := {| world := w1; calls := calls s ++ [request] |} in
    (∃ answer, create_task env api title notes due parent tasklist_id s
               = (Return answer, s1)) ∧
    get "title" body = Some (VStr title) ∧
    get "notes" body = (if truthy notes then VStr <$> notes else None) ∧
    get "due" body = (if truthy due then VStr <$> due else None) ∧
    (∀ k, k ≠ "title" → k ≠ "notes" → k ≠ "due" → get k body = None) ∧
    (∀ created id, api (calls s ++ [request]) = Return created →
       get "id" created = Some id →
       create_task env api title notes due parent tasklist_id s
       = (Return (VDict [("status", VStr "success");
                         ("message", VStr "Task created successfully");
                         ("task_id", id);
                         ("title", get_or "title" VNone created);
                         ("notes", get_or "notes" (VStr "No notes") created);
                         ("due", get_or "due" (VStr "No due date") created);
                         ("tasklist_id", VStr tasklist_id);
                         ("position", get_or "position" (VStr "") created)]), s1)).
Proof.
  intros Hc. exists (new_task title notes due). simpl.
  split; [|split; [|split; [|split; [|split]]]].
  - apply (create_task_runs env api title notes due parent tasklist_id s w1 creds Hc).
  - unfold new_task. by rewrite !get_when_truthy_ne by done.
  - unfold new_task. rewrite get_when_truthy_ne by done.
    rewrite get_when_truthy_eq. by destruct (truthy notes).
  - unfold new_task. rewrite get_when_truthy_eq.
    destruct (truthy due); [done|]. by rewrite get_when_truthy_ne.
  - intros k H1 H2 H3. unfold new_task.
    rewrite !get_when_truthy_ne by done. by rewrite get_cons, eqb_false.
  - intros created id Hreply Hid. unfold create_task. apply guarded_return.
    erewrite step; [|by apply in_world_run].
    erewrite step; [|by rewrite execute_run; simpl; rewrite Hreply].
    erewrite step; [|by unfold pure, getitem, index; rewrite Hid].
    reflexivity.
Qed.

Lemma answers {A} (m : T A) (h : exn → A) s r s1 :
  m s = (r, s1) → ∃ answer, guarded m h s = (Return answer, s1).
Proof. intros H. unfold guarded. rewrite H. destruct r; eauto. Qed.

Lemma request_then {B} api req (k : dict → T B) s :
  ∃ r, (execute api req ≫= k) s = (r, {| world := world s; calls := calls s ++ [req] |})
  ∨ ∃ created, api (calls s ++ [req]) = Return created ∧
       (execute api req ≫= k) s
       = k created {| world := world s; calls := calls s ++ [req] |}.
Proof.
  destruct (api (calls s ++ [req])) as [created|e] eqn:Hreply.
  - exists (Raise (Exception "")). right. exists created. split; [done|].
    erewrite step; [done|]. by rewrite execute_run, Hreply.
  - exists (Raise e). left. erewrite stop; [done|]. by rewrite execute_run, Hreply.
Qed.

(** X22.  [create_event] makes one insert request.  Guests
    are notified exactly when the attendee list is non-empty, and only then
    does the body have an 'attendees' key, one object per address; an empty
    description or location is left out; start and end both carry the one
    time zone passed. *)
Theorem create_event_notifies_only_invitees env api summary start_datetime end_datetime
    description location attendees timezone calendar_id s creds w1 :
  _get_credentials env EventTools.token_file (world s) = (Return creds, w1) →
  ∃ body notify,
    (∃ answer, create_event env api summary start_datetime end_datetime description
                 location attendees timezone calendar_id s
               = (Return answer,
                  {| world := w1;
                     calls := calls s ++ [EventsInsert calendar_id body notify] |})) ∧
    (attendees = None ∨ attendees = Some [] →
       notify = "none" ∧ get "attendees" body = None) ∧
    (∀ l, attendees = Some l → l ≠ [] →
       notify = "all" ∧
       get "attendees" body
       = Some (VList ((λ email, VDict [("email", VStr email)]) <$> l))) ∧
    get "summary" body = Some (VStr summary) ∧
    get "start" body = Some (VDict [("dateTime", VStr start_datetime);
                                    ("timeZone", VStr timezone)]) ∧
    get "end" body = Some (VDict [("dateTime", VStr end_datetime);
                                  ("timeZone", VStr timezone)]) ∧
    get "description" body = (if truthy description then VStr <$> description else None) ∧
    get "location" body = (if truthy location then VStr <$> location else None) ∧
    (∀ k, ¬ revisable k → get k body = None).
Proof.
  intros Hc.
  exists (new_event summary start_datetime end_datetime description location
                    attendees timezone),
         (if some_items attendees then "all" else "none").
  split; [|split; [|split; [|split; [|split; [|split; [|split; [|split]]]]]]].
  - unfold create_event.
    match goal with |- ∃ _, guarded ?m _ _ = _ =>
      assert (∃ r, m s = (r, {| world := w1;
        calls := calls s ++ [EventsInsert calendar_id
          (new_event summary start_datetime end_datetime description location
                     attendees timezone)
          (if some_items attendees then "all" else "none")] |})) as [r Hrun]
    end.
    { erewrite step; [|by apply in_world_run].
      match goal with |- ∃ _, (execute _ ?req ≫= ?k) ?s0 = _ =>
        destruct (api (calls s0 ++ [req])) as [created|e] eqn:Hreply
      end.
      - erewrite step; [|by rewrite execute_run, Hreply]. unfold pure. eauto.
      - erewrite stop; [|by rewrite execute_run, Hreply]. eauto. }
    by eapply answers.
  - intros [-> | ->]; simpl; (split; [done|]); unfold new_event; simpl;
      destruct (truthy description), (truthy location);
      rewrite ?get_set_ne by done; by rewrite !get_cons, ?eqb_false by done.
  - intros l -> Hl. destruct l as [|a l]; [done|]. simpl. split; [done|].
    unfold new_event. simpl. by rewrite get_set_eq.
  - unfold new_event. destruct (some_items attendees), (truthy location),
      (truthy description); by rewrite ?get_set_ne by done.
  - unfold new_event. destruct (some_items attendees), (truthy location),
      (truthy description); by rewrite ?get_set_ne by done.
  - unfold new_event. destruct (some_items attendees), (truthy location),
      (truthy description); by rewrite ?get_set_ne by done.
  - unfold new_event. destruct (some_items attendees), (truthy location);
      rewrite ?get_set_ne by done;
      (destruct (truthy description) eqn:Hd; [rewrite get_set_eq; by destruct description|done]).
  - unfold new_event. destruct (some_items attendees);
      rewrite ?get_set_ne by done;
      (destruct (truthy location) eqn:Hl;
       [rewrite get_set_eq; by destruct location|]);
      destruct (truthy description); by rewrite ?get_set_ne by done.
  - intros k Hk. unfold revisable in Hk.
    assert (k ≠ "summary" ∧ k ≠ "start" ∧ k ≠ "end" ∧ k ≠ "description" ∧
            k ≠ "location" ∧ k ≠ "attendees") as (?&?&?&?&?&?) by naive_solver.
    unfold new_event. destruct (some_items attendees), (truthy location),
      (truthy description); rewrite ?get_set_ne by done;
      by rewrite !get_cons, !eqb_false by done.
Qed.

Lemma get_replace_eq key x (event : dict) :
  get key (replace key x event) = given x (get key event).
Proof. destruct x; simpl; [apply get_set_eq|done]. Qed.

Lemma get_replace_ne key key' x (event : dict) :
  key ≠ key' → get key' (replace key x event) = get key' event.
Proof. intros Hne. destruct x; simpl; [by apply get_set_ne|done]. Qed.

Lemma bind_ok {A B} (m : result A) (k : A → result B) b :
  m ≫= k = Return b → ∃ a, m = Return a ∧ k a = Return b.
Proof. destruct m as [a|e]; [eauto|done]. Qed.

Lemma move_other key datetime timezone (event body : dict) k :
  move key datetime timezone event = Return body → key ≠ k →
  get k body = get k event.
Proof.
  intros Hrun Hne. destruct datetime as [t|]; simpl in Hrun; [|by simplify_eq].
  apply bind_ok in Hrun as (v & _ & Hrun).
  apply bind_ok in Hrun as ([] & _ & Hrun).
  - apply bind_ok in Hrun as (v1 & _ & Hrun).
    apply bind_ok in Hrun as (v2 & _ & Hrun).
    injection Hrun as <-. by apply get_set_ne.
  - injection Hrun as <-. by apply get_set_ne.
Qed.

(** What [move] leaves under its own key, for a stored value that is an
    object. *)
Lemma move_key key t timezone (event body d : dict) :
  move key (Some t) timezone event = Return body →
  get key event = Some (VDict d) →
  get key body
  = Some (if has "dateTime" d
          then VDict (let d := set "dateTime" (VStr t) d in
                      if truthy timezone
                      then set "timeZone" (of_option timezone) d else d)
          else VDict [("dateTime", VStr t);
                      ("timeZone", VStr (if truthy timezone
                                         then default "" timezone else "UTC"))]).
Proof.
  intros Hrun Hd. simpl in Hrun. unfold getitem in Hrun. rewrite Hd in Hrun.
  simpl in Hrun. destruct (has "dateTime" d); simpl in Hrun.
  - destruct (truthy timezone); simpl in Hrun; injection Hrun as <-;
      by rewrite get_set_eq.
  - injection Hrun as <-. by rewrite get_set_eq.
Qed.

(** X23.  The event [update_event] sends back is the fetched one
    with only the given fields replaced: a field passed as None keeps its
    stored value, every key the tool does not know is resent as fetched, and
    an attendee list, even an empty one, replaces the stored guests. *)
Theorem update_event_changes_only_given_fields summary start_datetime end_datetime
    description location attendees timezone (event body : dict) :
  revised summary start_datetime end_datetime description location attendees
          timezone event = Return body →
  (∀ k, ¬ revisable k → get k body = get k event) ∧
  get "summary" body = given summary (get "summary" event) ∧
  get "description" body = given description (get "description" event) ∧
  get "location" body = given location (get "location" event) ∧
  (start_datetime = None → get "start" body = get "start" event) ∧
  (end_datetime = None → get "end" body = get "end" event) ∧
  get "attendees" body
  = match attendees with
    | Some l => Some (VList ((λ email, VDict [("email", VStr email)]) <$> l))
    | None => get "attendees" event
    end.
Proof.
  intros Hrun. unfold revised in Hrun.
  apply bind_ok in Hrun as (e1 & H1 & Hrun).
  apply bind_ok in Hrun as (e2 & H2 & Hrun).
  injection Hrun as <-.
  assert (∀ k, k ≠ "attendees" →
    get k (match attendees with
           | Some l => set "attendees" (invitees l)
                         (replace "location" location
                            (replace "description" description e2))
           | None => replace "location" location
                       (replace "description" description e2)
           end)
    = get k (replace "location" location (replace "description" description e2)))
    as Hatt.
  { intros k Hk. destruct attendees; [by apply get_set_ne|done]. }
  split; [|split; [|split; [|split; [|split; [|split]]]]].
  - intros k Hk. unfold revisable in Hk.
    assert (k ≠ "summary" ∧ k ≠ "start" ∧ k ≠ "end" ∧ k ≠ "description" ∧
            k ≠ "location" ∧ k ≠ "attendees") as (?&?&?&?&?&?) by naive_solver.
    rewrite Hatt by done. rewrite !get_replace_ne by done.
    rewrite (move_other _ _ _ _ _ k H2) by done.
    rewrite (move_other _ _ _ _ _ k H1) by done.
    by rewrite get_replace_ne.
  - rewrite Hatt by done. rewrite !get_replace_ne by done.
    rewrite (move_other _ _ _ _ _ "summary" H2) by done.
    rewrite (move_other _ _ _ _ _ "summary" H1) by done.
    apply get_replace_eq.
  - rewrite Hatt by done. rewrite get_replace_ne by done.
    rewrite get_replace_eq.
    rewrite (move_other _ _ _ _ _ "description" H2) by done.
    rewrite (move_other _ _ _ _ _ "description" H1) by done.
    by rewrite get_replace_ne.
  - rewrite Hatt by done. rewrite get_replace_eq.
    rewrite get_replace_ne by done.
    rewrite (move_other _ _ _ _ _ "location" H2) by done.
    rewrite (move_other _ _ _ _ _ "location" H1) by done.
    by rewrite get_replace_ne.
  - intros ->. rewrite Hatt by done. rewrite !get_replace_ne by done.
    rewrite (move_other _ _ _ _ _ "start" H2) by done.
    simpl in H1. injection H1 as <-. by rewrite get_replace_ne.
  - intros ->. rewrite Hatt by done. rewrite !get_replace_ne by done.
    simpl in H2. injection H2 as <-.
    rewrite (move_other _ _ _ _ _ "end" H1) by done.
    by rewrite get_replace_ne.
  - destruct attendees as [l|]; [by rewrite get_set_eq|].
    rewrite !get_replace_ne by done.
    rewrite (move_other _ _ _ _ _ "attendees" H2) by done.
    rewrite (move_other _ _ _ _ _ "attendees" H1) by done.
    by rewrite get_replace_ne.
Qed.

(** X24.  A new start time given to [update_event]: a timed event
    keeps its other start fields and takes the new time zone only when one
    is passed; an all-day event has its start replaced by a timed one, in
    UTC when no time zone is passed, so the stored 'date' is gone. *)
Theorem update_event_new_start summary t end_datetime description location attendees
    timezone (event body d : dict) :
  revised summary (Some t) end_datetime description location attendees
          timezone event = Return body →
  get "start" event = Some (VDict d) →
  ∃ d', get "start" body = Some (VDict d') ∧
    get "dateTime" d' = Some (VStr t) ∧
    (has "dateTime" d = true →
       get "timeZone" d' = (if truthy timezone then VStr <$> timezone
                            else get "timeZone" d) ∧
       ∀ k, k ≠ "dateTime" → k ≠ "timeZone" → get k d' = get k d) ∧
    (has "dateTime" d = false →
       get "timeZone" d' = Some (VStr (if truthy timezone then default "" timezone
                                       else "UTC")) ∧
       ∀ k, k ≠ "dateTime" → k ≠ "timeZone" → get k d' = None).
Proof.
  intros Hrun Hd. unfold revised in Hrun.
  apply bind_ok in Hrun as (e1 & H1 & Hrun).
  apply bind_ok in Hrun as (e2 & H2 & Hrun).
  injection Hrun as <-.
  assert (get "start" (replace "summary" summary event) = Some (VDict d)) as Hd'.
  { by rewrite get_replace_ne. }
  pose proof (move_key _ _ _ _ _ _ H1 Hd') as Hstart.
  assert (get "start" (match attendees with
           | Some l => set "attendees" (invitees l)
                         (replace "location" location
                            (replace "description" description e2))
           | None => replace "location" location
                       (replace "description" description e2)
           end) = get "start" e1) as ->.
  { transitivity (get "start" (replace "location" location
                                 (replace "description" description e2))).
    - destruct attendees; [by apply get_set_ne|done].
    - rewrite !get_replace_ne by done. by apply (move_other _ _ _ _ _ _ H2). }
  rewrite Hstart. destruct (has "dateTime" d) eqn:Hhas.
  - eexists. split; [done|]. split; [|split; [|done]].
    + destruct (truthy timezone); simpl; rewrite ?get_set_ne by done;
        apply get_set_eq.
    + intros _. split.
      * destruct (truthy timezone) eqn:Htz; simpl.
        -- rewrite get_set_eq. by destruct timezone.
        -- by rewrite get_set_ne.
      * intros k Hk1 Hk2. destruct (truthy timezone); simpl;
          by rewrite !get_set_ne by done.
  - eexists. split; [done|]. split; [done|]. split; [done|]. intros _.
    split; [done|]. intros k Hk1 Hk2. by rewrite !get_cons, !eqb_false by done.
Qed.

(** X25.  [update_event] reads the event and then sends one
    update with the revised event, notifying guests exactly when the event
    sent has an 'attendees' key, given or stored.  When the revision itself
    fails, for instance on an event with no 'start', nothing is sent and
    the failure is an error answer. *)
Theorem update_event_reads_then_writes_once env api event_id summary start_datetime
    end_datetime description location attendees timezone calendar_id s creds w1 event :
  _get_credentials env EventTools.token_file (world s) = (Return creds, w1) →
  api (calls s ++ [EventsGet calendar_id event_id]) = Return event →
  (∀ body, revised summary start_datetime end_datetime description location
                   attendees timezone event = Return body →
     ∃ answer, update_event env api event_id summary start_datetime end_datetime
                 description location attendees timezone calendar_id s
               = (Return answer,
                  {| world := w1;
                     calls := calls s ++
                       [EventsGet calendar_id event_id;
                        EventsUpdate calendar_id event_id body
                          (if bool_decide (is_Some (get "attendees" body))
                           then "all" else "none")] |})) ∧
  (∀ e, revised summary start_datetime end_datetime description location
                attendees timezone event = Raise e →
     ∃ answer, update_event env api event_id summary start_datetime end_datetime
                 description location attendees timezone calendar_id s
               = (Return answer,
                  {| world := w1;
                     calls := calls s ++ [EventsGet calendar_id event_id] |}) ∧
       dict_get "status" answer = Some (VStr "error")).
Proof.
  intros Hc Hget. split.
  - intros body Hbody. unfold update_event.
    match goal with |- ∃ _, guarded ?m _ _ = (_, ?s1) =>
      assert (∃ r, m s = (r, s1)) as [r Hrun]
    end.
    { erewrite step; [|by apply in_world_run].
      erewrite step; [|by rewrite execute_run; simpl; rewrite Hget].
      erewrite step; [|by unfold pure; rewrite Hbody].
      match goal with |- ∃ _, (execute _ ?req ≫= ?k) ?s0 = _ =>
        destruct (api (calls s0 ++ [req])) as [updated|e] eqn:Hreply
      end.
      - erewrite step; [|by rewrite execute_run, Hreply]. unfold pure. simpl.
        rewrite <- app_assoc. simpl. eauto.
      - erewrite stop; [|by rewrite execute_run, Hreply]. simpl.
        rewrite <- app_assoc. simpl. eauto. }
    by eapply answers.
  - intros e He. unfold update_event. eexists. split.
    + apply guarded_raise.
      erewrite step; [|by apply in_world_run].
      erewrite step; [|by rewrite execute_run; simpl; rewrite Hget].
      erewrite stop; [reflexivity|]. by unfold pure; rewrite He.
    + destruct e; simpl; repeat case_bool_decide; reflexivity.
Qed.
End RequestProofs.


Module CalendarProofs.
Import Json Rest Credentials EventTools JsonProofs ToolRef TaskProofs.

Lemma each_guest guests :
  Forall is_object guests → each format_attendee guests = Return (guest <$> guests).
Proof.
  induction 1 as [|a guests Ha _ IH]; [done|]. simpl.
  destruct a as [| | | | |a]; try done. simpl. rewrite IH. done.
Qed.

Lemma format_upcoming_scheduled item :
  scheduled item →
  ∃ d f, item = VDict d ∧ format_upcoming item = Return (VDict f) ∧
    get "id" f = get "id" d ∧
    (∃ s, get "start" d = Some (VDict s) ∧ get "start" f = Some (shown s)) ∧
    (∃ e, get "end" d = Some (VDict e) ∧ get "end" f = Some (shown e)) ∧
    get "summary" f = Some (get_or "summary" (VStr "(No Title)") d) ∧
    get "attendees" f
    = match get "attendees" d with
      | Some (VList guests) => Some (VList (guest <$> guests))
      | _ => None
      end.
Proof.
  destruct item as [| | | | |d]; try done.
  intros ([id Hid] & [s Hs] & [e He] & Hguests). exists d.
  unfold format_upcoming, format_event, moment_of, subscript, getitem, index.
  rewrite Hs, He, Hid. simpl.
  set (base := copy_key "description" d (copy_key "location" d _)).
  assert (get "attendees" base = None ∧ get "id" base = Some id ∧
          get "start" base = Some (shown s) ∧ get "end" base = Some (shown e) ∧
          get "summary" base = Some (get_or "summary" (VStr "(No Title)") d))
    as (Hb1 & Hb2 & Hb3 & Hb4 & Hb5).
  { unfold base. rewrite !get_copy_key_ne by done. by rewrite !get_cons. }
  destruct (get "attendees" d) as [[| | | |guests|]|] eqn:Hatt; try done.
  - simpl. rewrite (each_guest _ Hguests). simpl.
    eexists. split; [done|]. split; [done|].
    rewrite get_set_eq, !get_set_ne by done. eauto 10.
  - eexists. split; [done|]. split; [done|]. eauto 10.
Qed.

Lemma each_format_upcoming items :
  Forall scheduled items →
  ∃ formatted, each format_upcoming items = Return formatted ∧
    Forall2 (λ (item f : value), ∃ d, item = VDict d ∧
               dict_get "id" f = get "id" d ∧
               (∃ s, get "start" d = Some (VDict s) ∧
                     dict_get "start" f = Some (shown s)) ∧
               (∃ e, get "end" d = Some (VDict e) ∧
                     dict_get "end" f = Some (shown e)) ∧
               dict_get "summary" f = Some (get_or "summary" (VStr "(No Title)") d) ∧
               dict_get "attendees" f
               = match get "attendees" d with
                 | Some (VList guests) => Some (VList (guest <$> guests))
                 | _ => None
                 end)
            items formatted.
Proof.
  induction 1 as [|item items Hitem _ IH]; simpl.
  { exists []. split; [done|]. constructor. }
  destruct (format_upcoming_scheduled item Hitem) as (d & f & -> & Hf & Hfacts).
  destruct IH as (fs & Hfs & Hall).
  rewrite Hf. simpl. rewrite Hfs. simpl.
  exists (VDict f :: fs). split; [done|]. constructor; [|done].
  exists d. split; [done|]. exact Hfacts.
Qed.

(** X26.  [list_events] asks for the events between now and [days_ahead]
    days from now, both stamps with a "Z" appended; when the end of the
    window cannot be computed it makes no request and answers with an
    error.  A listing without items is answered by count 0 and a message
    that names the number of days.  When every item is an object with an
    'id' whose 'start' and 'end' are objects and whose 'attendees', if any,
    is a list of objects, the answer has one entry per event, in order: its
    id, the time of a timed event or the date of an all-day one, and of each
    attendee only the address and the response, "needsAction" when none is
    stored. *)
Theorem list_events_window_and_entries env api clock max_results days_ahead
    calendar_id s creds w1 :
  _get_credentials env token_file (world s) = (Return creds, w1) →
  (∀ e, later_iso clock days_ahead = Raise e →
     ∃ answer, list_events env api clock max_results days_ahead calendar_id s
               = (Return answer, {| world := w1; calls := calls s |}) ∧
       dict_get "status" answer = Some (VStr "error") ∧
       dict_get "events" answer = Some (VList [])) ∧
  (∀ window_end results,
     later_iso clock days_ahead = Return window_end →
     api (calls s ++ [EventsList calendar_id None (Some (now_iso clock +:+ "Z"))
                        (Some (window_end +:+ "Z")) max_results]) = Return results →
     let s1 := {| world := w1;
                  calls := calls s ++ [EventsList calendar_id None
                                         (Some (now_iso clock +:+ "Z"))
                                         (Some (window_end +:+ "Z")) max_results] |} in
     (get "items" results = None ∨ get "items" results = Some (VList []) →
      list_events env api clock max_results days_ahead calendar_id s
      = (Return (VDict [("count", VInt 0);
                        ("events", VList []);
                        ("message", VStr ("No upcoming events found in the next "
                                          +:+ pretty days_ahead +:+ " days."))]), s1)) ∧
     (∀ item items, get "items" results = Some (VList (item :: items)) →
        Forall scheduled (item :: items) →
        ∃ formatted,
          list_events env api clock max_results days_ahead calendar_id s
          = (Return (VDict [("count", VInt (Z.of_nat (length (item :: items))));
                            ("events", VList formatted);
                            ("time_range", VStr ("Next " +:+ pretty days_ahead
                                                 +:+ " days from " +:+ today clock))]),
             s1) ∧
          Forall2 (λ (item f : value), ∃ d, item = VDict d ∧
                     dict_get "id" f = get "id" d ∧
                     (∃ s, get "start" d = Some (VDict s) ∧
                           dict_get "start" f = Some (shown s)) ∧
                     (∃ e, get "end" d = Some (VDict e) ∧
                           dict_get "end" f = Some (shown e)) ∧
                     dict_get "summary" f
                     = Some (get_or "summary" (VStr "(No Title)") d) ∧
                     dict_get "attendees" f
                     = match get "attendees" d with
                       | Some (VList guests) => Some (VList (guest <$> guests))
                       | _ => None
                       end)
                  (item :: items) formatted)).
Proof.
  intros Hc. split.
  - intros e He. unfold list_events. eexists. split.
    + apply guarded_raise.
      erewrite step; [|by apply in_world_run].
      erewrite stop; [reflexivity|]. by unfold pure; rewrite He.
    + by destruct e.
  - intros window_end results Hend Hlist s1. unfold list_events. split.
    + intros Hitems. apply guarded_return.
      erewrite step; [|by apply in_world_run].
      erewrite step; [|by unfold pure; rewrite Hend].
      erewrite step; [|by rewrite execute_run; simpl; rewrite Hlist].
      unfold get_or. by destruct Hitems as [-> | ->].
    + intros item items Hitems Hall.
      destruct (each_format_upcoming _ Hall) as (formatted & Heach & Hpairs).
      exists formatted. split; [|done]. apply guarded_return.
      erewrite step; [|by apply in_world_run].
      erewrite step; [|by unfold pure; rewrite Hend].
      erewrite step; [|by rewrite execute_run; simpl; rewrite Hlist].
      unfold get_or. rewrite Hitems.
      change (default (VList []) (Some (VList (item :: items))))
        with (VList (item :: items)).
      change (negb (truthy_value (VList (item :: items)))) with false.
      cbv iota.
      erewrite step; [|reflexivity].
      erewrite step; [|by unfold pure; rewrite Heach].
      unfold mret, T_ret. do 4 f_equal.
      apply Forall2_length in Hpairs. by rewrite Hpairs.
Qed.
End CalendarProofs.


Module TextProofs.
Import Text TextRef NameProofs.

Lemma sub_blank_lines_skip (k : nat) (s : string) :
  sub_blank_lines k s = sub_blank_lines 0 (drop k s).
Proof.
  revert k. induction s as [|c s IH]; intros [|k]; try done.
  simpl. apply IH.
Qed.

Lemma length_drop (k : nat) (s : string) :
  (String.length (drop k s) ≤ String.length s)%nat.
Proof.
  revert s. induction k as [|k IH]; intros [|c s]; simpl; try lia.
  specialize (IH s). lia.
Qed.

Lemma blank_end_some (s : string) (pos b : nat) :
  is_Some (blank_end s pos (Some b)).
Proof.
  revert pos b. induction s as [|c s IH]; intros pos b; simpl; [done|].
  destruct (is_space c); [|done]. destruct (Ascii.eqb c nl); apply IH.
Qed.

Lemma is_space_nl : is_space nl = true.
Proof. reflexivity. Qed.

(** Where a match ends, the text does not go on with a newline. *)
Lemma blank_end_stops (s : string) (pos : nat) (best : option nat) (k : nat) :
  blank_end s pos best = Some k →
  (best = Some k ∧ starts_nl s = false)
  ∨ ((pos < k)%nat ∧ starts_nl (drop (k - pos) s) = false).
Proof.
  revert pos best. induction s as [|c s IH]; intros pos best Hk; simpl in Hk.
  - by left.
  - destruct (is_space c) eqn:Hc.
    + destruct (Ascii.eqb c nl) eqn:Hnl.
      * right. apply IH in Hk as [[[= <-] Hs]|[Hlt Hs]].
        -- split; [lia|]. by replace (S pos - pos)%nat with 1%nat by lia.
        -- split; [lia|].
           by replace (k - pos)%nat with (S (k - S pos)) by lia.
      * apply IH in Hk as [[-> Hs]|[Hlt Hs]].
        -- left. by simpl.
        -- right. split; [lia|].
           by replace (k - pos)%nat with (S (k - S pos)) by lia.
    + left. split; [done|]. simpl.
      destruct (Ascii.eqb_spec c nl) as [->|]; [|done].
      by rewrite is_space_nl in Hc.
Qed.

Lemma blank_end_none (s : string) :
  blank_end s 0 None = None → starts_nl s = false.
Proof.
  destruct s as [|c s]; [done|]. simpl.
  destruct (Ascii.eqb_spec c nl) as [->|]; [|done].
  rewrite is_space_nl. intros H.
  destruct (blank_end_some s 1 1) as [k Hk]. congruence.
Qed.

Lemma tidy_quiet (n : nat) (s : string) :
  starts_nl s = false →
  tidy n (sub_blank_lines 0 s) = tidy 0 (sub_blank_lines 0 s).
Proof.
  destruct s as [|c s]; [done|]. simpl. intros Hc. rewrite Hc. simpl.
  by rewrite Hc.
Qed.

Lemma sub_blank_lines_tidy (m : nat) (text : string) :
  (String.length text ≤ m)%nat → tidy 0 (sub_blank_lines 0 text) = true.
Proof.
  revert text. induction m as [|m IH]; intros [|c rest] Hlen; try done.
  { simpl in Hlen. lia. }
  simpl in Hlen. simpl. destruct (Ascii.eqb c nl) eqn:Hc.
  - destruct (blank_end rest 0 None) as [k|] eqn:Hend.
    + simpl. rewrite sub_blank_lines_skip.
      apply blank_end_stops in Hend as [[? _]|[_ Hq]]; [done|].
      rewrite Nat.sub_0_r in Hq. rewrite (tidy_quiet _ _ Hq).
      apply IH. pose proof (length_drop k rest). lia.
    + simpl. rewrite Hc. simpl. apply blank_end_none in Hend.
      rewrite (tidy_quiet _ _ Hend). apply IH. lia.
  - simpl. rewrite Hc. apply IH. lia.
Qed.

Lemma tidy_app (a b : string) (n : nat) :
  tidy n (a +:+ String nl (String nl (String nl b))) = false.
Proof.
  revert n. induction a as [|c a IH]; intros n.
  - rewrite app_nil. simpl. by destruct n as [|[|n]].
  - rewrite app_cons. simpl. destruct (Ascii.eqb c nl); [|done].
    rewrite IH. apply andb_false_r.
Qed.

Lemma app_assoc (a b c : string) : (a +:+ b) +:+ c = a +:+ (b +:+ c).
Proof.
  induction a as [|x a IH]; [done|]. rewrite !app_cons. by rewrite IH.
Qed.

Lemma lstrip_suffix (s : string) : ∃ p, s = p +:+ lstrip s.
Proof.
  induction s as [|c s [p IH]]; [by exists ""|]. simpl.
  destruct (is_space c).
  - exists (String c p). rewrite app_cons. by f_equal.
  - by exists "".
Qed.

Lemma rev_app_app (s acc : string) :
  String.rev_app s acc = String.rev_app s "" +:+ acc.
Proof.
  revert acc. induction s as [|c s IH]; intros acc; [done|]. simpl.
  rewrite (IH (String c acc)), (IH (String c "")).
  by rewrite app_assoc.
Qed.

Lemma rev_cons (c : Ascii.ascii) (s : string) :
  String.rev (String c s) = String.rev s +:+ String c "".
Proof. unfold String.rev. simpl. apply rev_app_app. Qed.

Lemma app_empty (a : string) : a +:+ "" = a.
Proof. induction a as [|c a IH]; [done|]. rewrite app_cons. by f_equal. Qed.

Lemma rev_append (a b : string) :
  String.rev (a +:+ b) = String.rev b +:+ String.rev a.
Proof.
  induction a as [|c a IH].
  - rewrite app_nil. by rewrite app_empty.
  - rewrite app_cons, !rev_cons, IH. apply app_assoc.
Qed.

Lemma rev_rev (s : string) : String.rev (String.rev s) = s.
Proof.
  induction s as [|c s IH]; [done|].
  rewrite rev_cons, rev_append, IH. done.
Qed.

Lemma strip_inside (s : string) : ∃ p q, s = p +:+ strip s +:+ q.
Proof.
  unfold strip, rstrip. destruct (lstrip_suffix s) as [p Hp].
  destruct (lstrip_suffix (String.rev (lstrip s))) as [q Hq].
  exists p, (String.rev q). rewrite <- rev_append, <- Hq, rev_rev. done.
Qed.

Lemma prefix_app (a s : string) : String.prefix a s = true → ∃ b, s = a +:+ b.
Proof.
  revert s. induction a as [|x a IH]; intros s; [by exists s|].
  destruct s as [|y s]; simpl; [done|].
  destruct (Ascii.ascii_dec x y) as [->|]; [|done].
  intros [b ->]%IH. by exists b.
Qed.

Lemma occurs_untidy (s : string) :
  Json.occurs (String nl (String nl (String nl ""))) s = true →
  ∀ n, tidy n s = false.
Proof.
  induction s as [|c s IH]; intros Hin n; [done|].
  unfold Json.occurs in Hin. fold Json.occurs in Hin.
  apply orb_true_iff in Hin as [Hpre|Hin].
  - apply prefix_app in Hpre as [b ->]. apply (tidy_app "" b n).
  - simpl. rewrite !(IH Hin). rewrite andb_false_r.
    by destruct (Ascii.eqb c nl).
Qed.

Lemma tidy_mono (s : string) (m n : nat) :
  (m ≤ n)%nat → tidy n s = true → tidy m s = true.
Proof.
  revert m n. induction s as [|c s IH]; intros m n Hmn; [done|]. simpl.
  destruct (Ascii.eqb c nl); [|done].
  intros [Hn H]%andb_true_iff. apply Nat.ltb_lt in Hn.
  apply andb_true_iff. split; [apply Nat.ltb_lt; lia|].
  apply (IH (S m) (S n)); [lia|done].
Qed.

Lemma tidy_prefix (s q : string) (n : nat) :
  tidy n (s +:+ q) = true → tidy n s = true.
Proof.
  revert n. induction s as [|c s IH]; intros n; [done|]. rewrite app_cons. simpl.
  destruct (Ascii.eqb c nl); [|apply IH].
  intros [Hn H]%andb_true_iff. rewrite Hn. simpl. by apply IH.
Qed.

Lemma tidy_suffix (p s : string) (n : nat) :
  tidy n (p +:+ s) = true → tidy 0 s = true.
Proof.
  revert n. induction p as [|c p IH]; intros n.
  - rewrite app_nil. apply tidy_mono. lia.
  - rewrite app_cons. simpl. destruct (Ascii.eqb c nl); [|apply IH].
    intros [_ H]%andb_true_iff. by eapply IH.
Qed.

Lemma tidy_inside (p s q : string) : tidy 0 (p +:+ s +:+ q) = true → tidy 0 s = true.
Proof. intros H%tidy_suffix. by eapply tidy_prefix. Qed.

(** X27.  The text made of an HTML body never has three newlines in
    a row, whatever the parser returns: paragraphs are at most one blank
    line apart. *)
Theorem html_text_has_no_double_blank_line env (html : string) :
  Json.occurs (String nl (String nl (String nl ""))) (Gmail.html_to_text env html)
  = false.
Proof.
  unfold Gmail.html_to_text.
  destruct (strip_inside (sub_blank_lines 0 (get_text env html))) as (p & q & Hs).
  assert (tidy 0 (sub_blank_lines 0 (get_text env html)) = true) as Hok.
  { apply (sub_blank_lines_tidy _ _ (le_n _)). }
  rewrite Hs in Hok. apply tidy_inside in Hok.
  destruct (Json.occurs _ _) eqn:Hin; [|done].
  by rewrite (occurs_untidy _ Hin) in Hok.
Qed.
End TextProofs.


(** ** The properties above on sample runs *)

Module Runs.
Import Text Mime Credentials FileServer Gmail Fetcher Reference.
Import Json Rest TaskTools EventTools ToolRef ServerState.
Import Scenario Samples Cases Desk.

Lemma start_keeps_server_state_witness :
  consistent (_start_file_server "/srv/a" (fresh ∅ 0 ∅ ∅)).2 ∧
  ∀ info, (_start_file_server "/srv/a" (fresh ∅ 0 ∅ ∅)).1 = Return info →
    ∃ s, server info = Some s ∧
         s ∈ bound_servers (_start_file_server "/srv/a" (fresh ∅ 0 ∅ ∅)).2 ∧
         server_port s = port info ∧ directory s = "/srv/a".
Proof.
  apply (ServerInvariants.start_keeps_server_state (fresh ∅ 0 ∅ ∅) "/srv/a").
  - split; [by intros s [=]|]. split; [constructor|].
    intros p Hp. by apply elem_of_nil in Hp.
  - vm_compute. reflexivity.
Defined.

Lemma start_again_same_path_witness :
  _start_file_server "/srv/b" (_start_file_server "/srv/b" serving_a).2
  = (Return {| server := Some {| server_port := 8001; directory := "/srv/b" |};
               port := 8001 |},
     (_start_file_server "/srv/b" serving_a).2).
Proof.
  apply (ServerInvariants.start_again_same_path serving_a "/srv/b").
  vm_compute. reflexivity.
Defined.

Lemma next_call_is_quiet_witness :
  _get_credentials gmail_down "token.json"
    (_get_credentials gmail_down "token.json" (fresh ∅ 1000 ∅ ∅)).2
  = (Return granted, (_get_credentials gmail_down "token.json" (fresh ∅ 1000 ∅ ∅)).2).
Proof.
  apply (CredentialSequel.next_call_is_quiet gmail_down "token.json" (fresh ∅ 1000 ∅ ∅)).
  - vm_compute. reflexivity.
  - split; [by eexists|]. split; [by eexists|].
    exists 9000. split; [reflexivity|]. vm_compute. reflexivity.
Defined.

Lemma unrefreshable_record_comes_back_unchanged_witness :
  ∃ w', _get_credentials gmail_down "token.json"
          (fresh {["token.json" := TokenJson blank]} 1000 ∅ ∅) = (Return blank, w') ∧
        log w' = [] ++ [FileWrite "token.json" (TokenJson blank)] ∧
        files w' = <["token.json" := TokenJson blank]>
                     (files (fresh {["token.json" := TokenJson blank]} 1000 ∅ ∅)) ∧
        valid blank w' = (Return false, w').
Proof.
  apply (CredentialSequel.unrefreshable_record_comes_back_unchanged gmail_down
           "token.json" (fresh {["token.json" := TokenJson blank]} 1000 ∅ ∅) blank).
  - reflexivity.
  - by eexists.
  - by eexists.
  - by intros [[? [=]] _].
  - intros [(e & [= <-] & Hle) _]. vm_compute in Hle. by apply Hle.
  - reflexivity.
Defined.

Lemma due_record_is_refreshed_once_witness :
  ∃ w', _get_credentials renewing "token.json"
          (fresh {["token.json" := TokenJson stale]} 1000 ∅ ∅) = (Return granted, w') ∧
        log w' = [] ++ [TokenRefresh stale; FileWrite "token.json" (TokenJson granted)] ∧
        files w' = <["token.json" := TokenJson granted]>
                     (files (fresh {["token.json" := TokenJson stale]} 1000 ∅ ∅)).
Proof.
  apply (CredentialSequel.due_record_is_refreshed_once renewing
           "token.json" (fresh {["token.json" := TokenJson stale]} 1000 ∅ ∅) stale granted).
  - reflexivity.
  - split; [|reflexivity]. exists 900. split; [reflexivity|]. vm_compute. by intros [=].
  - reflexivity.
  - reflexivity.
Defined.

(** What the loader makes of records stored without an expiry or without a
    refresh token: the first loads as already expired and is refreshed, the
    second does not load and the consent flow runs. *)
Lemma stored_records_that_are_not_returned_as_they_are :
  (∃ w', _get_credentials renewing "token.json"
           (fresh {["token.json" :=
                     TokenJson {| token := Some "ya29.cached";
                                  refresh_token := Some "1//r";
                                  expiry := None |}]} 1000 ∅ ∅)
         = (Return granted, w') ∧
         log w' = [TokenRefresh {| token := Some "ya29.cached";
                                   refresh_token := Some "1//r";
                                   expiry := Some 775 |};
                   FileWrite "token.json" (TokenJson granted)]) ∧
  (∃ w', _get_credentials gmail_down "token.json"
           (fresh {["token.json" :=
                     TokenJson {| token := Some "ya29.cached";
                                  refresh_token := None;
                                  expiry := Some 5000 |}]} 1000 ∅ ∅)
         = (Return granted, w') ∧
         log w' = [LocalServerFlow 8080;
                   FileWrite "token.json" (TokenJson granted)]).
Proof.
  split; eexists; (split; [vm_compute; reflexivity|reflexivity]).
Qed.

Lemma strict_walk_agrees_or_raises_witness :
  extract_attachments_strict with_attachment []
  = Return (extract_attachments_recursive with_attachment).
Proof.
  apply (proj1 (WalkProofs.strict_walk_agrees_or_raises with_attachment)).
  vm_compute. reflexivity.
Defined.

Lemma details_raise_only_for_credentials_witness :
  ∃ answer w',
    get_email_details (mailbox with_attachment) "m1" (signed_in ∅) = (Return answer, w') ∧
    ((∃ text, answer = VDict [("error", VStr text)]) ∨
     dict_get "id" answer = Some (VStr "m1")).
Proof.
  apply (proj2 (BoundaryProofs.details_raise_only_for_credentials
                  (mailbox with_attachment) "m1" (signed_in ∅)) cached (signed_in ∅)).
  vm_compute. reflexivity.
Defined.

Lemma downloads_never_overwrite_witness :
  files (download_each pdf_store "m1" "/srv/downloads" 8000 [report] [] []
           with_old_report).2 !! "/srv/downloads/report.pdf" = Some (Blob "old").
Proof.
  apply (BoundaryProofs.downloads_never_overwrite pdf_store "m1" "/srv/downloads" 8000
           [report] [] [] with_old_report
           (download_each pdf_store "m1" "/srv/downloads" 8000 [report] [] []
              with_old_report).1).
  - vm_compute. reflexivity.
  - reflexivity.
Defined.

Lemma download_raises_only_for_credentials_witness :
  ∃ answer w',
    download_email_attachments pdf_store "m1" (signed_in ∅) = (Return answer, w') ∧
    ((∃ text, answer = VDict [("error", VStr text)]) ∨
     dict_get "status" answer = Some (VStr "No attachments found in this email.") ∨
     (dict_get "email_id" answer = Some (VStr "m1") ∧
      ∃ good bad : nat,
        dict_get "successful_downloads" answer = Some (VInt (Z.of_nat good)) ∧
        dict_get "failed_downloads" answer = Some (VInt (Z.of_nat bad)) ∧
        dict_get "total_attachments" answer = Some (VInt (Z.of_nat (good + bad))))).
Proof.
  apply (proj2 (BoundaryProofs.download_raises_only_for_credentials
                  pdf_store "m1" (signed_in ∅)) cached (signed_in ∅)).
  vm_compute. reflexivity.
Defined.

Lemma nothing_to_download_still_starts_the_server_witness :
  files (download_email_attachments (mailbox two_plain) "m1" (signed_in ∅)).2
    !! join "/srv" "downloads" = Some Directory ∧
  is_Some (_file_server
             (download_email_attachments (mailbox two_plain) "m1" (signed_in ∅)).2).
Proof.
  apply (BoundaryProofs.nothing_to_download_still_starts_the_server
           (mailbox two_plain) "m1" (signed_in ∅)
           (VDict [("status", VStr "No attachments found in this email.");
                   ("file_server_running", VBool true);
                   ("server_info",
                    VStr "File server running at http://localhost:8000")])
           (download_email_attachments (mailbox two_plain) "m1" (signed_in ∅)).2).
  - vm_compute. reflexivity.
  - reflexivity.
Defined.

Lemma search_fetches_the_first_five_witness :
  ∃ emails w',
    search_emails (mailbox two_plain) "hello" (signed_in ∅)
    = (Return (VDict [("emails", VList emails)]), w') ∧
    dict_get "id" <$> emails = [Some (VStr "m1")] ∧
    log w' = [MessagesList None (Some "hello") None; MessagesGet "m1" None].
Proof.
  assert (_get_credentials (mailbox two_plain) "token.json" (signed_in ∅)
          = (Return cached, signed_in ∅)) as Hc by (vm_compute; reflexivity).
  apply (proj1 (SearchProofs.search_fetches_the_first_five (mailbox two_plain) "hello"
                  (signed_in ∅) cached (signed_in ∅) Hc) ["m1"]).
  - reflexivity.
  - done.
  - intros l. eexists. reflexivity.
Defined.

Lemma delete_tools_read_the_status_witness :
  (∃ w', Calendar.delete_event gone "e1" "primary"
           (fresh {["token_calendar.json" := TokenJson cached]} 1000 ∅ ∅)
         = (Return (VDict [("status", VStr "error");
                           ("message", VStr "Event already deleted");
                           ("details", VStr "Event with ID 'e1' was already deleted");
                           ("event_id", VStr "e1")]), w')) ∧
  (∃ w', Tasks.delete_task gone "t1" "@default"
           (fresh {["token_tasks.json" := TokenJson cached]} 1000 ∅ ∅)
         = (Return (VDict [("status", VStr "error");
                           ("message", VStr "Failed to delete task");
                           ("details", VStr "<HttpError 410 Gone>");
                           ("task_id", VStr "t1")]), w')).
Proof.
  split.
  - apply (proj1 (DeleteProofs.delete_tools_read_the_status gone "e1" "primary"
                    (fresh {["token_calendar.json" := TokenJson cached]} 1000 ∅ ∅)
                    cached
                    (fresh {["token_calendar.json" := TokenJson cached]} 1000 ∅ ∅)
                    410 "<HttpError 410 Gone>")).
    + vm_compute. reflexivity.
    + reflexivity.
  - apply (proj2 (DeleteProofs.delete_tools_read_the_status gone "t1" "@default"
                    (fresh {["token_tasks.json" := TokenJson cached]} 1000 ∅ ∅)
                    cached
                    (fresh {["token_tasks.json" := TokenJson cached]} 1000 ∅ ∅)
                    410 "<HttpError 410 Gone>")).
    + vm_compute. reflexivity.
    + reflexivity.
Defined.

(** *** Tasks *)

Lemma complete_task_resends_five_keys_witness :
  ∃ body answer,
    complete_task gmail_down office "t1" "@default" (at_desk "token_tasks.json")
    = (Return answer,
       {| world := world (at_desk "token_tasks.json");
          calls := calls (at_desk "token_tasks.json")
                   ++ [TasksGet "@default" "t1"; TasksUpdate "@default" "t1" body] |}) ∧
    get "id" body = Some (VStr "t1") ∧
    get "title" body = Some (get_or "title" (VStr "") groceries) ∧
    get "status" body = Some (VStr "completed") ∧
    get "notes" body = get "notes" groceries ∧
    get "due" body = get "due" groceries ∧
    ∀ k, ¬ sendable k → get k body = None.
Proof.
  apply (TaskProofs.complete_task_resends_five_keys gmail_down office "t1" "@default"
           (at_desk "token_tasks.json") cached).
  - vm_compute. reflexivity.
  - reflexivity.
  - reflexivity.
Defined.

Lemma no_update_without_the_task_witness :
  complete_task gmail_down nowhere "t9" "@default" (at_desk "token_tasks.json")
  = (Return (task_errors "complete" "t9" (HttpError 404 "<HttpError 404 Not Found>")),
     {| world := world (at_desk "token_tasks.json");
        calls := calls (at_desk "token_tasks.json") ++ [TasksGet "@default" "t9"] |}) ∧
  update_task gmail_down nowhere "t9" (Some "Buy bread") None None None "@default"
    (at_desk "token_tasks.json")
  = (Return (task_errors "update" "t9" (HttpError 404 "<HttpError 404 Not Found>")),
     {| world := world (at_desk "token_tasks.json");
        calls := calls (at_desk "token_tasks.json") ++ [TasksGet "@default" "t9"] |}) ∧
  (∀ text, HttpError 404 "<HttpError 404 Not Found>" = HttpError 404 text →
     dict_get "message"
       (task_errors "complete" "t9" (HttpError 404 "<HttpError 404 Not Found>"))
     = Some (VStr "Task not found")).
Proof.
  apply (TaskProofs.no_update_without_the_task gmail_down nowhere "t9" "@default"
           (at_desk "token_tasks.json") cached).
  - vm_compute. reflexivity.
  - left. reflexivity.
Defined.

Lemma update_task_sends_given_or_stored_witness :
  ∃ body answer,
    update_task gmail_down office "t1" None (Some "") None (Some "completed") "@default"
      (at_desk "token_tasks.json")
    = (Return answer,
       {| world := world (at_desk "token_tasks.json");
          calls := calls (at_desk "token_tasks.json")
                   ++ [TasksGet "@default" "t1"; TasksUpdate "@default" "t1" body] |}) ∧
    get "id" body = Some (VStr "t1") ∧
    get "title" body = given None (Some (get_or "title" (VStr "") groceries)) ∧
    get "status" body
    = given (Some "completed") (Some (get_or "status" (VStr "needsAction") groceries)) ∧
    get "notes" body = given (Some "") (get "notes" groceries) ∧
    get "due" body = given None (get "due" groceries) ∧
    ∀ k, ¬ sendable k → get k body = None.
Proof.
  apply (TaskProofs.update_task_sends_given_or_stored gmail_down office "t1"
           None (Some "") None (Some "completed") "@default"
           (at_desk "token_tasks.json") cached).
  - vm_compute. reflexivity.
  - reflexivity.
  - reflexivity.
Defined.

Lemma list_tasks_is_all_or_nothing_witness :
  ∃ formatted,
    list_tasks gmail_down office "@default" 100 false (at_desk "token_tasks.json")
    = (Return (VDict [("count", VInt 1);
                      ("tasklist_id", VStr "@default");
                      ("tasks", VList formatted)]),
       {| world := world (at_desk "token_tasks.json");
          calls := [TasksList "@default" 100 None None] |}) ∧
    Forall2 (λ (item f : value), ∃ d, item = VDict d ∧
                        dict_get "id" f = get "id" d ∧
                        dict_get "title" f
                        = Some (get_or "title" (VStr "(No Title)") d))
            [VDict groceries] formatted.
Proof.
  assert (_get_credentials gmail_down TaskTools.token_file
            (world (at_desk "token_tasks.json"))
          = (Return cached, world (at_desk "token_tasks.json"))) as Hc
    by (vm_compute; reflexivity).
  apply (proj1 (proj2 (ListingProofs.list_tasks_is_all_or_nothing gmail_down office
                         "@default" 100 false (at_desk "token_tasks.json") cached
                         (world (at_desk "token_tasks.json"))
                         [("items", VList [VDict groceries])] Hc eq_refl)
                  (VDict groceries) [] eq_refl)).
  apply List.Forall_cons; [by eexists|apply List.Forall_nil].
Defined.

Lemma task_tools_answer_a_credential_failure_witness :
  refusal stranger (_get_credentials refusing "token_tasks.json" (world stranger)).2
    (complete_task refusing office "t1" "@default" stranger) ∧
  refusal stranger (_get_credentials refusing "token_tasks.json" (world stranger)).2
    (update_task refusing office "t1" (Some "Buy bread") None None None "@default"
       stranger) ∧
  refusal stranger (_get_credentials refusing "token_tasks.json" (world stranger)).2
    (create_task refusing office "Buy bread" None None None "@default" stranger) ∧
  refusal stranger (_get_credentials refusing "token_tasks.json" (world stranger)).2
    (list_tasks refusing office "@default" 100 false stranger) ∧
  refusal stranger (_get_credentials refusing "token_tasks.json" (world stranger)).2
    (list_tasklists refusing office stranger).
Proof.
  apply (AnswerProofs.task_tools_answer_a_credential_failure refusing office stranger
           (Exception "access_denied")).
  vm_compute. reflexivity.
Defined.

Lemma create_task_drops_empty_arguments_witness :
  ∃ body,
    let request := TasksInsert "@default" body
                     (if truthy (Some "") then Some "" else None) in
    let s1 := {| world := world (at_desk "token_tasks.json");
                 calls := calls (at_desk "token_tasks.json") ++ [request] |} in
    (∃ answer, create_task gmail_down office "Buy bread" (Some "") None (Some "")
                 "@default" (at_desk "token_tasks.json")
               = (Return answer, s1)) ∧
    get "title" body = Some (VStr "Buy bread") ∧
    get "notes" body = (if truthy (Some "") then VStr <$> Some "" else None) ∧
    get "due" body = (if truthy None then VStr <$> None else None) ∧
    (∀ k, k ≠ "title" → k ≠ "notes" → k ≠ "due" → get k body = None) ∧
    (∀ created id, office (calls (at_desk "token_tasks.json") ++ [request])
                   = Return created →
       get "id" created = Some id →
       create_task gmail_down office "Buy bread" (Some "") None (Some "")
         "@default" (at_desk "token_tasks.json")
       = (Return (VDict [("status", VStr "success");
                         ("message", VStr "Task created successfully");
                         ("task_id", id);
                         ("title", get_or "title" VNone created);
                         ("notes", get_or "notes" (VStr "No notes") created);
                         ("due", get_or "due" (VStr "No due date") created);
                         ("tasklist_id", VStr "@default");
                         ("position", get_or "position" (VStr "") created)]), s1)).
Proof.
  apply (RequestProofs.create_task_drops_empty_arguments gmail_down office "Buy bread"
           (Some "") None (Some "") "@default" (at_desk "token_tasks.json") cached).
  vm_compute. reflexivity.
Defined.

(** *** Calendar *)

Lemma calendar_tools_answer_a_credential_failure_witness :
  refusal stranger (_get_credentials refusing "token_calendar.json" (world stranger)).2
    (create_event refusing office "Offsite" "2024-05-01T09:00:00" "2024-05-01T10:00:00"
       None None None "UTC" "primary" stranger) ∧
  refusal stranger (_get_credentials refusing "token_calendar.json" (world stranger)).2
    (update_event refusing office "e1" (Some "Retreat") None None None None None None
       "primary" stranger) ∧
  refusal stranger (_get_credentials refusing "token_calendar.json" (world stranger)).2
    (search_events refusing office "offsite" 10 "primary" stranger) ∧
  refusal stranger (_get_credentials refusing "token_calendar.json" (world stranger)).2
    (list_events refusing office wall_clock 10 7 "primary" stranger).
Proof.
  apply (AnswerProofs.calendar_tools_answer_a_credential_failure refusing office
           wall_clock stranger (Exception "access_denied")).
  vm_compute. reflexivity.
Defined.

Lemma create_event_notifies_only_invitees_witness :
  ∃ body notify,
    (∃ answer, create_event gmail_down office "Offsite" "2024-05-01T09:00:00"
                 "2024-05-01T10:00:00" (Some "") None (Some []) "UTC" "primary"
                 (at_desk "token_calendar.json")
               = (Return answer,
                  {| world := world (at_desk "token_calendar.json");
                     calls := calls (at_desk "token_calendar.json")
                              ++ [EventsInsert "primary" body notify] |})) ∧
    (Some [] = (None : option (list string)) ∨ Some [] = Some ([] : list string) →
       notify = "none" ∧ get "attendees" body = None) ∧
    (∀ l : list string, Some [] = Some l → l ≠ [] →
       notify = "all" ∧
       get "attendees" body
       = Some (VList ((λ email, VDict [("email", VStr email)]) <$> l))) ∧
    get "summary" body = Some (VStr "Offsite") ∧
    get "start" body = Some (VDict [("dateTime", VStr "2024-05-01T09:00:00");
                                    ("timeZone", VStr "UTC")]) ∧
    get "end" body = Some (VDict [("dateTime", VStr "2024-05-01T10:00:00");
                                  ("timeZone", VStr "UTC")]) ∧
    get "description" body = (if truthy (Some "") then VStr <$> Some "" else None) ∧
    get "location" body = (if truthy None then VStr <$> None else None) ∧
    (∀ k, ¬ revisable k → get k body = None).
Proof.
  apply (RequestProofs.create_event_notifies_only_invitees gmail_down office "Offsite"
           "2024-05-01T09:00:00" "2024-05-01T10:00:00" (Some "") None (Some []) "UTC"
           "primary" (at_desk "token_calendar.json") cached).
  vm_compute. reflexivity.
Defined.

Lemma update_event_changes_only_given_fields_witness :
  (∀ k, ¬ revisable k →
     get k (set "attendees" (invitees []) (set "location" (VStr "Room 2") offsite))
     = get k offsite) ∧
  get "summary" (set "attendees" (invitees []) (set "location" (VStr "Room 2") offsite))
  = given None (get "summary" offsite) ∧
  get "description"
    (set "attendees" (invitees []) (set "location" (VStr "Room 2") offsite))
  = given None (get "description" offsite) ∧
  get "location" (set "attendees" (invitees []) (set "location" (VStr "Room 2") offsite))
  = given (Some "Room 2") (get "location" offsite) ∧
  ((None : option string) = None →
   get "start" (set "attendees" (invitees []) (set "location" (VStr "Room 2") offsite))
   = get "start" offsite) ∧
  ((None : option string) = None →
   get "end" (set "attendees" (invitees []) (set "location" (VStr "Room 2") offsite))
   = get "end" offsite) ∧
  get "attendees" (set "attendees" (invitees []) (set "location" (VStr "Room 2") offsite))
  = Some (VList ((λ email, VDict [("email", VStr email)]) <$> [])).
Proof.
  apply (RequestProofs.update_event_changes_only_given_fields None None None None
           (Some "Room 2") (Some []) None offsite).
  reflexivity.
Defined.

Lemma update_event_new_start_witness :
  ∃ d', get "start"
          (set "start" (VDict [("dateTime", VStr "2024-05-01T09:00:00");
                               ("timeZone", VStr "UTC")]) offsite)
        = Some (VDict d') ∧
    get "dateTime" d' = Some (VStr "2024-05-01T09:00:00") ∧
    (has "dateTime" [("date", VStr "2024-05-01")] = true →
       get "timeZone" d' = (if truthy None then VStr <$> None
                            else get "timeZone" [("date", VStr "2024-05-01")]) ∧
       ∀ k, k ≠ "dateTime" → k ≠ "timeZone" →
            get k d' = get k [("date", VStr "2024-05-01")]) ∧
    (has "dateTime" [("date", VStr "2024-05-01")] = false →
       get "timeZone" d' = Some (VStr (if truthy None then default "" None
                                       else "UTC")) ∧
       ∀ k, k ≠ "dateTime" → k ≠ "timeZone" → get k d' = None).
Proof.
  apply (RequestProofs.update_event_new_start None "2024-05-01T09:00:00" None None None
           None None offsite).
  - reflexivity.
  - reflexivity.
Defined.

Lemma update_event_reads_then_writes_once_witness :
  ∃ answer, update_event gmail_down office "e1" (Some "Retreat") None None None None
              None None "primary" (at_desk "token_calendar.json")
            = (Return answer,
               {| world := world (at_desk "token_calendar.json");
                  calls := calls (at_desk "token_calendar.json") ++
                    [EventsGet "primary" "e1";
                     EventsUpdate "primary" "e1" (set "summary" (VStr "Retreat") offsite)
                       (if bool_decide (is_Some (get "attendees"
                                                   (set "summary" (VStr "Retreat") offsite)))
                        then "all" else "none")] |}).
Proof.
  assert (_get_credentials gmail_down EventTools.token_file
            (world (at_desk "token_calendar.json"))
          = (Return cached, world (at_desk "token_calendar.json"))) as Hc
    by (vm_compute; reflexivity).
  apply (proj1 (RequestProofs.update_event_reads_then_writes_once gmail_down office "e1"
                  (Some "Retreat") None None None None None None "primary"
                  (at_desk "token_calendar.json") cached
                  (world (at_desk "token_calendar.json")) offsite Hc eq_refl)).
  reflexivity.
Defined.

Lemma list_events_window_and_entries_witness :
  ∃ formatted,
    list_events gmail_down office wall_clock 10 7 "primary"
      (at_desk "token_calendar.json")
    = (Return (VDict [("count", VInt 2);
                      ("events", VList formatted);
                      ("time_range", VStr "Next 7 days from 2024-05-01")]),
       {| world := world (at_desk "token_calendar.json");
          calls := [EventsList "primary" None (Some "2024-05-01T08:00:00Z")
                      (Some "2024-05-08T08:00:00Z") 10] |}) ∧
    Forall2 (λ (item f : value), ∃ d, item = VDict d ∧
               dict_get "id" f = get "id" d ∧
               (∃ s, get "start" d = Some (VDict s) ∧
                     dict_get "start" f = Some (shown s)) ∧
               (∃ e, get "end" d = Some (VDict e) ∧
                     dict_get "end" f = Some (shown e)) ∧
               dict_get "summary" f = Some (get_or "summary" (VStr "(No Title)") d) ∧
               dict_get "attendees" f
               = match get "attendees" d with
                 | Some (VList guests) => Some (VList (guest <$> guests))
                 | _ => None
                 end)
            [VDict offsite; VDict standup] formatted.
Proof.
  assert (_get_credentials gmail_down EventTools.token_file
            (world (at_desk "token_calendar.json"))
          = (Return cached, world (at_desk "token_calendar.json"))) as Hc
    by (vm_compute; reflexivity).
  apply (proj2 (proj2 (CalendarProofs.list_events_window_and_entries gmail_down office
                         wall_clock 10 7 "primary" (at_desk "token_calendar.json")
                         cached (world (at_desk "token_calendar.json")) Hc)
                  "2024-05-08T08:00:00"
                  [("items", VList [VDict offsite; VDict standup])]
                  eq_refl eq_refl)
           (VDict offsite) [VDict standup] eq_refl).
  apply List.Forall_cons; [|apply List.Forall_cons; [|apply List.Forall_nil]].
  - split; [by eexists|]. split; [by eexists|]. split; [by eexists|].
    apply List.Forall_cons; [exact I|apply List.Forall_nil].
  - split; [by eexists|]. split; [by eexists|]. split; [by eexists|]. exact I.
Defined.
End Runs.
